(** * Span-context derivation and header propagation of go-sensor

    A shallow embedding of [span_context.go] (the span context, its
    derivation from a parent and its restoration from a W3C trace context)
    and of the header propagation codec ([injectTraceContext],
    [extractTraceContext]), with the properties of the specification stated
    over them.

    Conventions.
    - Go's [int64] is [Z]; identifiers are only compared with [0], copied and
      formatted, so no arithmetic wraps in the embedded code.  The codec
      normalises with [mod 2^64] where the source converts to [uint64].
    - Go strings are byte strings: [string] is a list of 8-bit [ascii].
      [strings.ToLower] is embedded on its ASCII range, where a rune is a
      byte; statements about the keys of an arbitrary carrier take them to be
      ASCII.
    - Go maps are [gmap]s.  A [range] loop over a map visits the entries in an
      unspecified order: functions that range over a map take the visiting
      order as an explicit list and theorems quantify over every order.
    - The random generator, the global sensor options and the heap that holds
      baggage maps form an explicit [World] threaded through the code. *)

From Stdlib Require Import ZArith NArith Ascii String HexString List Bool Lia.
From stdpp Require Import base option list gmap strings fin_maps.

Open Scope Z_scope.
Open Scope string_scope.

(** ** Byte-string helpers (Go's [strings] package and slicing) *)

Module strings.

Definition is_upper (c : ascii) : bool :=
  ((65 <=? N_of_ascii c) && (N_of_ascii c <=? 90))%N.

Definition lower_byte (c : ascii) : ascii :=
  if is_upper c then ascii_of_N (N_of_ascii c + 32) else c.

(** [strings.ToLower] on ASCII bytes; bytes above 127 are kept. *)
Fixpoint ToLower (s : string) : string :=
  match s with
  | EmptyString => EmptyString
  | String c s' => String (lower_byte c) (ToLower s')
  end.

(** [strings.HasPrefix s p] *)
Definition HasPrefix (s p : string) : bool := String.prefix p s.

(** [strings.IndexByte s c]: index of the first [c] in [s], [-1] if none. *)
Fixpoint IndexByte (s : string) (c : ascii) : Z :=
  match s with
  | EmptyString => -1
  | String a s' =>
      if Ascii.eqb a c then 0
      else let i := IndexByte s' c in if (i <? 0)%Z then -1 else (i + 1)%Z
  end.

(** [s[:n]] *)
Fixpoint slice_to (s : string) (n : nat) : string :=
  match n, s with
  | S n', String c s' => String c (slice_to s' n')
  | _, _ => EmptyString
  end.

(** [s[n:]] *)
Fixpoint slice_from (s : string) (n : nat) : string :=
  match n, s with
  | S n', String _ s' => slice_from s' n'
  | _, _ => s
  end.

(** [strings.Repeat (string c) n] *)
Fixpoint Repeat (c : ascii) (n : nat) : string :=
  match n with
  | O => EmptyString
  | S n' => String c (Repeat c n')
  end.

(** [strings.Split s (string sep)] for a one-byte separator. *)
Fixpoint Split (s : string) (sep : ascii) : list string :=
  match s with
  | EmptyString => [EmptyString]
  | String c s' =>
      if Ascii.eqb c sep then EmptyString :: Split s' sep
      else match Split s' sep with
           | [] => [String c EmptyString]
           | w :: ws => String c w :: ws
           end
  end.

(** [strings.Join l (string sep)] *)
Fixpoint Join (l : list string) (sep : string) : string :=
  match l with
  | [] => EmptyString
  | [w] => w
  | w :: ws => w +:+ sep +:+ Join ws sep
  end.

(** Left padding with ['0'] to a minimal width, as [%0Ns] formats. *)
Definition pad0 (width : nat) (s : string) : string :=
  Repeat "0" (width - String.length s) +:+ s.

End strings.

(** ** Identifier codec *)

(** The codec functions [FormatID], [FormatLongID], [ParseID] and
    [ParseLongID] are called by the embedded code but declared in a file that
    is not part of the sources at hand: the embedding takes them as an
    interface.  A parse error ([MalformedID]) is [None]. *)
Class IDCodec := {
  FormatID : Z → string;
  FormatLongID : Z → Z → string;
  ParseID : string → option Z;
  ParseLongID : string → option (Z * Z);
}.

Definition is_int64 (n : Z) : Prop := - 2 ^ 63 <= n < 2 ^ 63.

Module SpecCodec.

(** Modelled from the spec: the hexadecimal digits of the codec, absent
    from the sources.  §4.1: lowercase digits on output, at least one; any
    hex digit on input. *)
Definition hex (n : N) : string :=
  match n with
  | N0 => "0"
  | Npos p => HexString.Raw.of_pos p ""
  end.

Definition is_hex_digit (c : ascii) : bool :=
  match HexString.ascii_to_digit c with Some _ => true | None => false end.

Fixpoint all_hex (s : string) : bool :=
  match s with
  | EmptyString => true
  | String c s' => is_hex_digit c && all_hex s'
  end.

(** The [int64] with the bit pattern of the unsigned 64-bit [u]. *)
Definition to_int64 (u : Z) : Z :=
  if (u <? 2 ^ 63)%Z then u else (u - 2 ^ 64)%Z.

(** Modelled from the spec: [FormatID], absent from the sources.  §4.1:
    canonical lowercase hex, no leading [0x], minimal digits but always at
    least one digit, including for zero.  The 64-bit pattern of a negative
    identifier is printed, which is what makes [ParseID (FormatID n) = n]
    hold for all 64-bit integers. *)
Definition FormatID (n : Z) : string := hex (Z.to_N (n mod 2 ^ 64)).

(** Modelled from the spec: [FormatLongID], absent from the sources.  §4.1:
    when [hi = 0], identical to [FormatID lo]; otherwise hex(hi) zero-padded
    to 16 digits followed by hex(lo) zero-padded to 16 digits. *)
Definition FormatLongID (hi lo : Z) : string :=
  if (hi =? 0)%Z then FormatID lo
  else strings.pad0 16 (FormatID hi) +:+ strings.pad0 16 (FormatID lo).

(** Modelled from the spec: [ParseID], absent from the sources.  §4.1:
    parses hex; fails with [MalformedID] on the empty string, on non-hex
    characters and on overflow beyond 64 bits. *)
Definition ParseID (s : string) : option Z :=
  match s with
  | EmptyString => None
  | _ =>
      if all_hex s then
        let u := Z.of_N (HexString.Raw.to_N s 0) in
        if (u <? 2 ^ 64)%Z then Some (to_int64 u) else None
      else None
  end.

(** Modelled from the spec: [ParseLongID], absent from the sources.  §4.1:
    up to 16 digits, [hi = 0] and [lo] is the parsed value; if longer, the
    last 16 digits are [lo] and the remainder is [hi]; fails with
    [MalformedID] on non-hex content. *)
Definition ParseLongID (s : string) : option (Z * Z) :=
  let n := String.length s in
  if (n <=? 16)%nat then lo ← ParseID s; Some (0, lo)
  else
    hi ← ParseID (strings.slice_to s (n - 16));
    lo ← ParseID (strings.slice_from s (n - 16));
    Some (hi, lo).

Definition codec : IDCodec :=
  Build_IDCodec FormatID FormatLongID ParseID ParseLongID.

End SpecCodec.

(** ** HTTP header maps ([net/http]) *)

Module http.

(** [http.Header] is [map[string][]string]. *)
Abbreviation Header := (gmap string (list string)).

Definition is_lower (c : ascii) : bool :=
  ((97 <=? N_of_ascii c) && (N_of_ascii c <=? 122))%N.

Definition is_digit (c : ascii) : bool :=
  ((48 <=? N_of_ascii c) && (N_of_ascii c <=? 57))%N.

(** The bytes of an RFC 7230 token. *)
Definition validHeaderFieldByte (c : ascii) : bool :=
  is_lower c || strings.is_upper c || is_digit c
  || bool_decide (c ∈ ["!"; "#"; "$"; "%"; "&"; "'"; "*"; "+"; "-"; ".";
                        "^"; "_"; "`"; "|"; "~"]%char).

Fixpoint all_valid (s : string) : bool :=
  match s with
  | EmptyString => true
  | String c s' => validHeaderFieldByte c && all_valid s'
  end.

Definition upper_byte (c : ascii) : ascii :=
  if is_lower c then ascii_of_N (N_of_ascii c - 32) else c.

(** Upper case at the start and after each dash, lower case elsewhere. *)
Fixpoint canonicalize (upper : bool) (s : string) : string :=
  match s with
  | EmptyString => EmptyString
  | String c s' =>
      let c' := if upper then upper_byte c else strings.lower_byte c in
      String c' (canonicalize (Ascii.eqb c' "-") s')
  end.

(** [textproto.CanonicalMIMEHeaderKey]: a key holding a byte that is not a
    token byte is returned unchanged. *)
Definition CanonicalMIMEHeaderKey (s : string) : string :=
  if all_valid s then canonicalize true s else s.

(** [h.Set(key, value)] *)
Definition Set_ (h : Header) (key value : string) : Header :=
  <[CanonicalMIMEHeaderKey key := [value]]> h.

(** [h.Get(key)]: the first value under the canonical key, [""] if none. *)
Definition Get (h : Header) (key : string) : string :=
  match h !! CanonicalMIMEHeaderKey key with
  | Some (v :: _) => v
  | _ => ""
  end.

End http.

(** ** The W3C trace context package [w3ctrace] *)

Module w3ctrace.

Record Flags := { Sampled : bool }.

Record Parent := {
  Version : N;
  TraceID : string;
  ParentID : string;
  PFlags : Flags;
}.

Record Context := {
  RawParent : string;
  RawState : string;
}.

(** The zero values [Parent{}] and [Context{}]. *)
Definition zeroParent : Parent :=
  {| Version := 0; TraceID := ""; ParentID := ""; PFlags := {| Sampled := false |} |}.
Definition zeroContext : Context := {| RawParent := ""; RawState := "" |}.

Definition with_ParentID (p : Parent) (id : string) : Parent :=
  {| Version := Version p; TraceID := TraceID p; ParentID := id; PFlags := PFlags p |}.
Definition with_RawParent (c : Context) (s : string) : Context :=
  {| RawParent := s; RawState := RawState c |}.
Definition with_RawState (c : Context) (s : string) : Context :=
  {| RawParent := RawParent c; RawState := s |}.

(** The functions of the package that the embedded code calls.  The
    package's own files are not among the sources: the embedding is
    parametric in them.  [State_Fetch] returns [(value, ok)] in Go. *)
Class Ops := {
  Version_Max : N;
  VendorInstana : string;
  State : Type;
  New : Parent → Context;
  IsZero : Context → bool;
  Context_Parent : Context → Parent;
  Context_State : Context → State;
  Parent_String : Parent → string;
  State_Fetch : State → string → option string;
  State_Add : State → string → string → State;
  State_String : State → string;
  Inject : Context → http.Header → http.Header;
  Extract : http.Header → option Context;
}.

End w3ctrace.

Module SpecW3C.
Import w3ctrace.

(** Modelled from the spec: the wire layout of the foreign parent, absent
    from the sources.  §6: [traceparent] holds version, 128-bit trace id,
    parent id and flags; the fields are joined by dashes, the trace id
    padded to 32 and the parent id to 16 hex digits. *)
Definition formatParent (p : Parent) : string :=
  strings.pad0 2 (SpecCodec.hex (Version p)) +:+ "-" +:+
  strings.pad0 32 (TraceID p) +:+ "-" +:+
  strings.pad0 16 (ParentID p) +:+ "-" +:+
  (if Sampled (PFlags p) then "01" else "00").

(** Modelled from the spec: reading the foreign parent fields back, absent
    from the sources.  A string that does not have the four fields gives
    the zero [Parent]. *)
Definition parseParent (s : string) : Parent :=
  match strings.Split s "-" with
  | [v; t; p; f] =>
      {| Version := HexString.Raw.to_N v 0; TraceID := t; ParentID := p;
         PFlags := {| Sampled := bool_decide (f = "01") |} |}
  | _ => zeroParent
  end.

(** Modelled from the spec: the vendor state list, absent from the
    sources.  §6: [tracestate] is a [vendor=value] list; entries are
    separated by commas and an entry without [=] is dropped. *)
Definition parseEntry (e : string) : option (string * string) :=
  let i := strings.IndexByte e "=" in
  if (i <? 0)%Z then None
  else Some (strings.slice_to e (Z.to_nat i), strings.slice_from e (Z.to_nat i + 1)).

(** Modelled from the spec: parsing of the vendor state list, absent from
    the sources.  §6: a comma-separated [vendor=value] list. *)
Definition parseState (s : string) : list (string * string) :=
  omap parseEntry (strings.Split s ",").

(** Modelled from the spec: printing of the vendor state list, absent from
    the sources.  §6: the entries [vendor=value], separated by commas. *)
Definition formatState (st : list (string * string)) : string :=
  strings.Join ((λ e, e.1 +:+ "=" +:+ e.2) <$> st) ",".

(** Modelled from the spec: the lookup of a vendor key, absent from the
    sources.  §4.2: the value under the key, if the key is present. *)
Definition Fetch (st : list (string * string)) (vendor : string) : option string :=
  snd <$> List.find (λ e, bool_decide (e.1 = vendor)) st.

(** Modelled from the spec: the upsert of a vendor entry, absent from the
    sources.  §4.3: the entry is upserted preserving all other vendor
    entries and their relative order; the upserted entry goes first. *)
Definition Add (st : list (string * string)) (vendor data : string)
  : list (string * string) :=
  (vendor, data) :: List.filter (λ e, negb (bool_decide (e.1 = vendor))) st.

(** Modelled from the spec: the names of the two foreign headers, absent
    from the sources.  §6: [traceparent] and [tracestate], read without
    regard to case. *)
Definition is_foreign_header (k : string) : bool :=
  bool_decide (strings.ToLower k = "traceparent")
  || bool_decide (strings.ToLower k = "tracestate").

(** Modelled from the spec: [w3ctrace.Inject], absent from the sources.
    §4.3: the two foreign headers are written to the header map, in place of
    any differently-cased copy. *)
Definition Inject (c : Context) (h : http.Header) : http.Header :=
  let h := filter (λ kv, is_foreign_header kv.1 = false) h in
  http.Set_ (http.Set_ h "traceparent" (RawParent c)) "tracestate" (RawState c).

(** Modelled from the spec: [w3ctrace.Extract], absent from the sources.
    §4.3: the foreign headers are parsed from the header map; without a
    foreign parent header there is no foreign context. *)
Definition Extract (h : http.Header) : option Context :=
  let c := {| RawParent := http.Get h "traceparent";
              RawState := http.Get h "tracestate" |} in
  if bool_decide (RawParent c = "") then None else Some c.

(** Modelled from the spec: [w3ctrace.New], absent from the sources.
    §4.2: a foreign context synthesized from parent fields; it holds the
    formatted parent and an empty state. *)
Definition New (p : Parent) : Context :=
  {| RawParent := formatParent p; RawState := "" |}.

(** Modelled from the spec: the zero-value check of a foreign context,
    absent from the sources.  §3: the zero value means no foreign context. *)
Definition IsZero (c : Context) : bool :=
  bool_decide (RawParent c = "" ∧ RawState c = "").

(** Modelled from the spec: the package as a whole, absent from the
    sources.  §6: the vendor key is [in]. *)
Definition ops : Ops :=
  {| Version_Max := 0;
     VendorInstana := "in";
     State := list (string * string);
     w3ctrace.New := New;
     w3ctrace.IsZero := IsZero;
     Context_Parent := λ c, parseParent (RawParent c);
     Context_State := λ c, parseState (RawState c);
     Parent_String := formatParent;
     State_Fetch := Fetch;
     State_Add := Add;
     State_String := formatState;
     w3ctrace.Inject := Inject;
     w3ctrace.Extract := Extract |}.

End SpecW3C.

(** ** The world the code runs in *)

(** [sensor.options]: the process-wide options the derivation reads. *)
Record Options := { disableW3CTraceCorrelation : bool }.

Abbreviation loc := positive.

(** - [sensor_options]: the global [sensor.options];
    - [entropy], [drawn]: the random source behind [randomID], as the
      sequence of values it will return and the number already returned;
    - [heap]: the Go maps allocated so far, by address. *)
Record World := {
  sensor_options : Options;
  entropy : nat → Z;
  drawn : nat;
  heap : gmap loc (gmap string string);
}.

Definition M (A : Type) : Type := World → A * World.

Definition ret {A} (a : A) : M A := λ w, (a, w).
Definition bind {A B} (m : M A) (k : A → M B) : M B :=
  λ w, let '(a, w') := m w in k a w'.

(** The notations [x ← m; k] and [m;; k] of the state monad. *)
#[global] Instance M_ret : MRet M := @ret.
#[global] Instance M_bind : MBind M := λ A B k m, bind m k.

Definition get_options : M Options := λ w, (sensor_options w, w).

(** [randomID()]: the next value of the random source. *)
Definition randomID : M Z :=
  λ w, (entropy w (drawn w),
        {| sensor_options := sensor_options w; entropy := entropy w;
           drawn := S (drawn w); heap := heap w |}).

Definition set_heap (w : World) (h : gmap loc (gmap string string)) : World :=
  {| sensor_options := sensor_options w; entropy := entropy w;
     drawn := drawn w; heap := h |}.

(** [make(map[string]string, n)]: a fresh, empty map. *)
Definition make_map : M loc :=
  λ w, let l := fresh (dom (heap w)) in (l, set_heap w (<[l := ∅]> (heap w))).

(** [m[k] = v] on the map at address [l]. *)
Definition map_store (l : loc) (k v : string) : M unit :=
  λ w, (tt, set_heap w (alter (λ m, <[k := v]> m) l (heap w))).

(** The entries of the map at address [l]. *)
Definition map_contents (w : World) (l : loc) : gmap string string :=
  default ∅ (heap w !! l).

(** [for k, v := range m { body k v }] along the visiting order [order]. *)
Fixpoint range_over (order : list (string * string))
    (body : string → string → M unit) : M unit :=
  match order with
  | [] => ret tt
  | (k, v) :: rest => body k v;; range_over rest body
  end.

(** ** [span_context.go] *)

Module SpanCtx.
Import w3ctrace.

(** [EUMCorrelationData]; the field [Type] is [Type_] here. *)
Record EUMCorrelationData := { Type_ : string; ID : string }.

(** [SpanReference]; its fields [TraceID] and [SpanID] are [RefTraceID] and
    [RefSpanID] here, apart from those of [SpanContext]. *)
Record SpanReference := { RefTraceID : string; RefSpanID : string }.

(** [SpanContext].  [Baggage] is a Go map, that is a reference: [None] is
    the [nil] map, [Some l] the map at address [l] of the heap. *)
Record SpanContext := {
  TraceIDHi : Z;
  TraceID : Z;
  SpanID : Z;
  ParentID : Z;
  Links : list SpanReference;
  Sampled : bool;
  Suppressed : bool;
  Baggage : option loc;
  W3CContext : Context;
  ForeignTrace : bool;
  Correlation : EUMCorrelationData;
}.

Definition zeroCorrelation : EUMCorrelationData := {| Type_ := ""; ID := "" |}.
Definition zeroReference : SpanReference := {| RefTraceID := ""; RefSpanID := "" |}.

(** [SpanContext{}] *)
Definition zeroSpanContext : SpanContext :=
  {| TraceIDHi := 0; TraceID := 0; SpanID := 0; ParentID := 0; Links := [];
     Sampled := false; Suppressed := false; Baggage := None;
     W3CContext := zeroContext; ForeignTrace := false;
     Correlation := zeroCorrelation |}.

(** Field assignments [c.F = x]. *)
Definition set_ids (c : SpanContext) (hi lo span : Z) : SpanContext :=
  {| TraceIDHi := hi; TraceID := lo; SpanID := span; ParentID := ParentID c;
     Links := Links c; Sampled := Sampled c; Suppressed := Suppressed c;
     Baggage := Baggage c; W3CContext := W3CContext c;
     ForeignTrace := ForeignTrace c; Correlation := Correlation c |}.
Definition set_SpanID_ParentID (c : SpanContext) (span parent : Z) : SpanContext :=
  {| TraceIDHi := TraceIDHi c; TraceID := TraceID c; SpanID := span;
     ParentID := parent; Links := Links c; Sampled := Sampled c;
     Suppressed := Suppressed c; Baggage := Baggage c;
     W3CContext := W3CContext c; ForeignTrace := ForeignTrace c;
     Correlation := Correlation c |}.
Definition set_ForeignTrace (c : SpanContext) (b : bool) : SpanContext :=
  {| TraceIDHi := TraceIDHi c; TraceID := TraceID c; SpanID := SpanID c;
     ParentID := ParentID c; Links := Links c; Sampled := Sampled c;
     Suppressed := Suppressed c; Baggage := Baggage c;
     W3CContext := W3CContext c; ForeignTrace := b;
     Correlation := Correlation c |}.
Definition set_W3CContext (c : SpanContext) (x : Context) : SpanContext :=
  {| TraceIDHi := TraceIDHi c; TraceID := TraceID c; SpanID := SpanID c;
     ParentID := ParentID c; Links := Links c; Sampled := Sampled c;
     Suppressed := Suppressed c; Baggage := Baggage c; W3CContext := x;
     ForeignTrace := ForeignTrace c; Correlation := Correlation c |}.
Definition set_Links (c : SpanContext) (l : list SpanReference) : SpanContext :=
  {| TraceIDHi := TraceIDHi c; TraceID := TraceID c; SpanID := SpanID c;
     ParentID := ParentID c; Links := l; Sampled := Sampled c;
     Suppressed := Suppressed c; Baggage := Baggage c;
     W3CContext := W3CContext c; ForeignTrace := ForeignTrace c;
     Correlation := Correlation c |}.
Definition set_Baggage (c : SpanContext) (b : option loc) : SpanContext :=
  {| TraceIDHi := TraceIDHi c; TraceID := TraceID c; SpanID := SpanID c;
     ParentID := ParentID c; Links := Links c; Sampled := Sampled c;
     Suppressed := Suppressed c; Baggage := b; W3CContext := W3CContext c;
     ForeignTrace := ForeignTrace c; Correlation := Correlation c |}.

(** The test [c.TraceIDHi == 0 && c.TraceID == 0 && c.SpanID == 0]. *)
Definition no_native_ids (c : SpanContext) : bool :=
  (TraceIDHi c =? 0)%Z && (TraceID c =? 0)%Z && (SpanID c =? 0)%Z.

(** [parseW3CInstanaState] *)
Definition parseW3CInstanaState (vendorData : string) : SpanReference * bool :=
  let ind := strings.IndexByte vendorData ";" in
  if (ind <? 0)%Z then (zeroReference, false)
  else ({| RefTraceID := strings.slice_to vendorData (Z.to_nat ind);
           RefSpanID := strings.slice_from vendorData (Z.to_nat (ind + 1)) |},
        true).

Section Code.
Context `{!IDCodec, !Ops}.

(** [newW3CTraceContext] *)
Definition newW3CTraceContext (c : SpanContext) : Context :=
  New {| Version := Version_Max;
         w3ctrace.TraceID := FormatLongID (TraceIDHi c) (TraceID c);
         w3ctrace.ParentID := FormatID (SpanID c);
         PFlags := {| w3ctrace.Sampled := negb (Suppressed c) |} |}.

(** [NewRootSpanContext] *)
Definition NewRootSpanContext : M SpanContext :=
  spanID ← randomID;
  let c := set_ids zeroSpanContext 0 spanID spanID in
  ret (set_W3CContext c (newW3CTraceContext c)).

(** [restoreFromW3CTraceState] *)
Definition restoreFromW3CTraceState (trCtx : Context) : SpanContext :=
  if IsZero trCtx then zeroSpanContext
  else
    let c := set_W3CContext zeroSpanContext trCtx in
    match State_Fetch (Context_State trCtx) VendorInstana with
    | None => c
    | Some state =>
        match parseW3CInstanaState state with
        | (_, false) => c
        | (ref, true) =>
            match ParseLongID (RefTraceID ref) with
            | None => c
            | Some (traceIDHi, traceIDLo) =>
                match ParseID (RefSpanID ref) with
                | None => c
                | Some parentID => set_ids c traceIDHi traceIDLo parentID
                end
            end
        end
    end.

(** [restoreFromW3CTraceContext] *)
Definition restoreFromW3CTraceContext (trCtx : Context) : M SpanContext :=
  if IsZero trCtx then ret zeroSpanContext
  else
    opts ← get_options;
    if disableW3CTraceCorrelation opts then ret (restoreFromW3CTraceState trCtx)
    else
      let parent := Context_Parent trCtx in
      match ParseLongID (w3ctrace.TraceID parent) with
      | None => ret zeroSpanContext
      | Some (traceIDHi, traceIDLo) =>
          match ParseID (w3ctrace.ParentID parent) with
          | None => ret zeroSpanContext
          | Some parentID =>
              ret {| TraceIDHi := traceIDHi; TraceID := traceIDLo;
                     SpanID := parentID; ParentID := 0; Links := [];
                     Sampled := false;
                     Suppressed := negb (w3ctrace.Sampled (PFlags parent));
                     Baggage := None; W3CContext := trCtx;
                     ForeignTrace := false; Correlation := zeroCorrelation |}
          end
      end.

(** [Clone].  The loop copies the entries one by one into the new map;
    [copy_order] is the order in which [range] visits them. *)
Definition Clone_along (copy_order : list (string * string)) (c : SpanContext)
  : M SpanContext :=
  let res :=
    {| TraceIDHi := TraceIDHi c; TraceID := TraceID c; SpanID := SpanID c;
       ParentID := ParentID c; Links := []; Sampled := Sampled c;
       Suppressed := Suppressed c; Baggage := None;
       W3CContext := W3CContext c; ForeignTrace := false;
       Correlation := zeroCorrelation |} in
  match Baggage c with
  | None => ret res
  | Some _ =>
      l ← make_map;
      range_over copy_order (map_store l);;
      ret (set_Baggage res (Some l))
  end.

(** [Clone] with the entries visited in the order of [map_to_list]; by
    [Clone_along_order] below every other order gives the same result. *)
Definition Clone (c : SpanContext) : M SpanContext :=
  λ w, Clone_along
         (match Baggage c with
          | Some l => map_to_list (map_contents w l)
          | None => []
          end) c w.

(** [WithBaggageItem] *)
Definition WithBaggageItem (c : SpanContext) (key val : string) : M SpanContext :=
  res ← Clone c;
  res ← match Baggage res with
        | None => l ← make_map; ret (set_Baggage res (Some l))
        | Some _ => ret res
        end;
  match Baggage res with
  | Some l => map_store l key val
  | None => ret tt
  end;;
  ret res.

(** [NewSpanContext] *)
Definition NewSpanContext (parent : SpanContext) : M SpanContext :=
  pf ← (if no_native_ids parent then
          restored ← restoreFromW3CTraceContext (W3CContext parent);
          opts ← get_options;
          ret (restored, true && negb (disableW3CTraceCorrelation opts))
        else ret (parent, false));
  let parent := pf.1 in
  let foreignTrace := pf.2 in
  if no_native_ids parent then
    c ← NewRootSpanContext;
    (* preserve the W3C trace context even if it was not used *)
    if negb (IsZero (W3CContext parent))
    then ret (set_W3CContext c (W3CContext parent))
    else ret c
  else
    c ← Clone parent;
    id ← randomID;
    let c := set_SpanID_ParentID c id (SpanID parent) in
    let c := set_ForeignTrace c foreignTrace in
    (* initialize W3C trace context if it's not set already *)
    if IsZero (W3CContext c) then
      ret (set_W3CContext c (newW3CTraceContext c))
    else
      (* update W3C trace context parent *)
      let w3cParent := Context_Parent (W3CContext c) in
      let w3cParent := with_ParentID w3cParent (FormatID (SpanID c)) in
      let c := set_W3CContext c
                 (with_RawParent (W3CContext c) (Parent_String w3cParent)) in
      (* check if there is Instana state stored in the W3C tracestate header *)
      if foreignTrace then
        match State_Fetch (Context_State (W3CContext c)) VendorInstana with
        | Some ancestor =>
            match parseW3CInstanaState ancestor with
            | (ref, true) => ret (set_Links c (Links c ++ [ref]))
            | (_, false) => ret c
            end
        | None => ret c
        end
      else ret c.

(** The links the derivation reads off the vendor state of a foreign
    context: the reference stored under the vendor key, if it parses. *)
Definition links_from_state (x : Context) : list SpanReference :=
  match State_Fetch (Context_State x) VendorInstana with
  | Some ancestor =>
      match parseW3CInstanaState ancestor with
      | (ref, true) => [ref]
      | (_, false) => []
      end
  | None => []
  end.

End Code.

(** The same package with another reading of the parent fields. *)
Definition override_Context_Parent (o : Ops) (f : Context → Parent) : Ops :=
  {| Version_Max := @Version_Max o;
     VendorInstana := @VendorInstana o;
     State := @State o;
     New := @New o;
     IsZero := @IsZero o;
     Context_Parent := f;
     Context_State := @Context_State o;
     Parent_String := @Parent_String o;
     State_Fetch := @State_Fetch o;
     State_Add := @State_Add o;
     State_String := @State_String o;
     Inject := @Inject o;
     Extract := @Extract o |}.

(** The entries of the baggage of [c] in the world [w]; none for [nil]. *)
Definition baggage_of (w : World) (c : SpanContext) : gmap string string :=
  match Baggage c with
  | Some l => map_contents w l
  | None => ∅
  end.

(** [ForeachBaggageItem].  [order] is the order in which [range] visits
    the entries of the baggage.  The handler is a Go closure: [handler s k v]
    gives its verdict on the pair ([false] stops the loop) and the new value
    of the variables it captures. *)
Fixpoint ForeachBaggageItem {S : Type} (order : list (string * string))
    (handler : S → string → string → bool * S) (s : S) : S :=
  match order with
  | [] => s
  | (k, v) :: rest =>
      match handler s k v with
      | (true, s') => ForeachBaggageItem rest handler s'
      | (false, s') => s'
      end
  end.

(** A handler that records the pairs it is called on and answers [keep]. *)
Definition recording (keep : string → string → bool)
    (log : list (string * string)) (k v : string) : bool * list (string * string) :=
  (keep k v, (log ++ [(k, v)])%list).

End SpanCtx.

(** ** The header propagation codec *)

Module Propagation.
Import w3ctrace.

(** Instana header constants *)
Definition FieldT : string := "x-instana-t".
Definition FieldS : string := "x-instana-s".
Definition FieldL : string := "x-instana-l".
Definition FieldB : string := "x-instana-b-".

(** The errors of [opentracing-go] that the codec returns. *)
Inductive error :=
| ErrInvalidCarrier
| ErrSpanContextNotFound
| ErrSpanContextCorrupted.

(** The span context as the codec sees it: the codec is written against a
    revision of [SpanContext] that holds the foreign context in the
    interface-typed field [ForeignParent], and it touches these fields
    only.  [ForeignParent] is [Some c] when the dynamic type is
    [w3ctrace.Context], otherwise [None].  The codec only reads the
    baggage of an injected context and only fills a map it has just made,
    so the map is held by value; [None] is the [nil] map. *)
Record SpanContext := {
  TraceID : Z;
  SpanID : Z;
  Suppressed : bool;
  Baggage : option (gmap string string);
  ForeignParent : option Context;
}.

Definition set_TraceID (c : SpanContext) (x : Z) : SpanContext :=
  {| TraceID := x; SpanID := SpanID c; Suppressed := Suppressed c;
     Baggage := Baggage c; ForeignParent := ForeignParent c |}.
Definition set_SpanID (c : SpanContext) (x : Z) : SpanContext :=
  {| TraceID := TraceID c; SpanID := x; Suppressed := Suppressed c;
     Baggage := Baggage c; ForeignParent := ForeignParent c |}.
Definition set_Suppressed (c : SpanContext) (x : bool) : SpanContext :=
  {| TraceID := TraceID c; SpanID := SpanID c; Suppressed := x;
     Baggage := Baggage c; ForeignParent := ForeignParent c |}.
Definition set_ForeignParent (c : SpanContext) (x : option Context) : SpanContext :=
  {| TraceID := TraceID c; SpanID := SpanID c; Suppressed := Suppressed c;
     Baggage := Baggage c; ForeignParent := x |}.
(** [c.Baggage[k] = v]; the codec never stores into a [nil] map. *)
Definition store_Baggage (c : SpanContext) (k v : string) : SpanContext :=
  {| TraceID := TraceID c; SpanID := SpanID c; Suppressed := Suppressed c;
     Baggage := (λ m, <[k := v]> m) <$> Baggage c;
     ForeignParent := ForeignParent c |}.

(** The entries a [range] over the baggage visits; none for a [nil] map. *)
Definition baggage_items (c : SpanContext) : gmap string string :=
  default ∅ (Baggage c).

(** The carriers of [opentracing-go]: [TextMapCarrier] is a
    [map[string]string] whose [Set] stores under the key as given,
    [HTTPHeadersCarrier] is an [http.Header] whose [Set] is
    [http.Header.Set]; both are readers and writers.  [OpaqueCarrier]
    stands for a value that implements neither interface. *)
Inductive Carrier :=
| TextMapCarrier (m : gmap string string)
| HTTPHeadersCarrier (h : http.Header)
| OpaqueCarrier.

Definition Carrier_Set (c : Carrier) (key val : string) : Carrier :=
  match c with
  | TextMapCarrier m => TextMapCarrier (<[key := val]> m)
  | HTTPHeadersCarrier h => HTTPHeadersCarrier (http.Set_ h key val)
  | OpaqueCarrier => OpaqueCarrier
  end.

(** The key/value pairs [ForeachKey] hands to its handler, in map order:
    one pair per entry of a text map, one pair per value of each header. *)
Definition header_pairs (ks : list (string * list string)) : list (string * string) :=
  ks ≫= λ kv, pair kv.1 <$> kv.2.

Definition visits (c : Carrier) (l : list (string * string)) : Prop :=
  match c with
  | TextMapCarrier m => l ≡ₚ map_to_list m
  | HTTPHeadersCarrier h => ∃ ks, ks ≡ₚ map_to_list h ∧ l = header_pairs ks
  | OpaqueCarrier => l = []
  end.

(** [ForeachKey]: the handler runs on each pair until it returns an
    error.  The handler's captured variables are the state [S]. *)
Fixpoint ForeachKey {S : Type} (pairs : list (string * string))
    (handler : S → string → string → S * option error) (s : S)
  : S * option error :=
  match pairs with
  | [] => (s, None)
  | (k, v) :: rest =>
      match handler s k v with
      | (s', Some err) => (s', Some err)
      | (s', None) => ForeachKey rest handler s'
      end
  end.

(** [parseLevel] *)
Definition parseLevel (s : string) : bool := bool_decide (s = "0").

(** [formatLevel] *)
Definition formatLevel (sc : SpanContext) : string :=
  if Suppressed sc then "0" else "1".

(** The casing of the header names found in the carrier. *)
Record Existing := {
  exstfieldT : string;
  exstfieldS : string;
  exstfieldL : string;
  exstfieldB : string;
}.

(** The closure passed to [ForeachKey] by [injectTraceContext]. *)
Definition inject_handler (e : Existing) (k v : string) : Existing * option error :=
  let lk := strings.ToLower k in
  if bool_decide (lk = FieldT) then
    ({| exstfieldT := k; exstfieldS := exstfieldS e;
        exstfieldL := exstfieldL e; exstfieldB := exstfieldB e |}, None)
  else if bool_decide (lk = FieldS) then
    ({| exstfieldT := exstfieldT e; exstfieldS := k;
        exstfieldL := exstfieldL e; exstfieldB := exstfieldB e |}, None)
  else if bool_decide (lk = FieldL) then
    ({| exstfieldT := exstfieldT e; exstfieldS := exstfieldS e;
        exstfieldL := k; exstfieldB := exstfieldB e |}, None)
  else if strings.HasPrefix lk FieldB then
    ({| exstfieldT := exstfieldT e; exstfieldS := exstfieldS e;
        exstfieldL := exstfieldL e;
        exstfieldB := strings.slice_to k (String.length FieldB) |}, None)
  else (e, None).

Section Code.
Context `{!IDCodec, !Ops}.

(** [addW3CTraceContext] *)
Definition addW3CTraceContext (h : http.Header) (sc : SpanContext) : http.Header :=
  let traceID := FormatID (TraceID sc) in
  let spanID := FormatID (SpanID sc) in
  let trCtx :=
    match ForeignParent sc with
    | Some c => c
    | None =>
        New {| Version := Version_Max; w3ctrace.TraceID := traceID;
               ParentID := spanID;
               PFlags := {| Sampled := negb (Suppressed sc) |} |}
    end in
  let p := with_ParentID (Context_Parent trCtx) spanID in
  let trCtx := with_RawParent trCtx (Parent_String p) in
  let trCtx :=
    with_RawState trCtx
      (State_String
         (State_Add (Context_State trCtx) VendorInstana (traceID +:+ ";" +:+ spanID))) in
  Inject trCtx h.

(** [injectTraceContext].  [pairs] is what [ForeachKey] delivers on the
    carrier and [baggage_order] the order in which the baggage is
    ranged over.  The carrier is updated in place: the result is its new
    content and the returned error. *)
Definition injectTraceContext (pairs baggage_order : list (string * string))
    (sc : SpanContext) (opaqueCarrier : Carrier) : Carrier * option error :=
  match opaqueCarrier with
  | OpaqueCarrier => (opaqueCarrier, Some ErrInvalidCarrier)
  | _ =>
      (* Handle pre-existing case-sensitive keys *)
      let e := (ForeachKey pairs inject_handler
                  {| exstfieldT := FieldT; exstfieldS := FieldS;
                     exstfieldL := FieldL; exstfieldB := FieldB |}).1 in
      let carrier :=
        match opaqueCarrier with
        | HTTPHeadersCarrier h =>
            let h := delete (exstfieldT e) h in
            let h := delete (exstfieldS e) h in
            let h := delete (exstfieldL e) h in
            let h := filter (λ kv, strings.HasPrefix (strings.ToLower kv.1) FieldB = false) h in
            HTTPHeadersCarrier (addW3CTraceContext h sc)
        | c => c
        end in
      let carrier := Carrier_Set carrier (exstfieldT e) (FormatID (TraceID sc)) in
      let carrier := Carrier_Set carrier (exstfieldS e) (FormatID (SpanID sc)) in
      let carrier := Carrier_Set carrier (exstfieldL e) (formatLevel sc) in
      let carrier :=
        foldl (λ c kv, Carrier_Set c (exstfieldB e +:+ kv.1) kv.2)
              carrier baggage_order in
      (carrier, None)
  end.

(** The closure passed to [ForeachKey] by [extractTraceContext]; its
    captured variables are [spanContext] and [fieldCount]. *)
Definition extract_handler (s : SpanContext * Z) (k v : string)
  : (SpanContext * Z) * option error :=
  let '(spanContext, fieldCount) := s in
  let lk := strings.ToLower k in
  if bool_decide (lk = FieldT) then
    let fieldCount := fieldCount + 1 in
    match ParseID v with
    | None => ((spanContext, fieldCount), Some ErrSpanContextCorrupted)
    | Some traceID => ((set_TraceID spanContext traceID, fieldCount), None)
    end
  else if bool_decide (lk = FieldS) then
    let fieldCount := fieldCount + 1 in
    match ParseID v with
    | None => ((spanContext, fieldCount), Some ErrSpanContextCorrupted)
    | Some spanID => ((set_SpanID spanContext spanID, fieldCount), None)
    end
  else if bool_decide (lk = FieldL) then
    ((set_Suppressed spanContext (parseLevel v), fieldCount), None)
  else if strings.HasPrefix lk FieldB then
    (* preserve original case of the baggage key *)
    ((store_Baggage spanContext (strings.slice_from k (String.length FieldB)) v,
      fieldCount), None)
  else ((spanContext, fieldCount), None).

(** [extractTraceContext]; [pairs] is what [ForeachKey] delivers. *)
Definition extractTraceContext (pairs : list (string * string))
    (opaqueCarrier : Carrier) : SpanContext * option error :=
  let spanContext :=
    {| TraceID := 0; SpanID := 0; Suppressed := false;
       Baggage := Some ∅; ForeignParent := None |} in
  match opaqueCarrier with
  | OpaqueCarrier => (spanContext, Some ErrInvalidCarrier)
  | _ =>
      match ForeachKey pairs extract_handler (spanContext, 0) with
      | ((spanContext, _), Some err) => (spanContext, Some err)
      | ((spanContext, fieldCount), None) =>
          if (fieldCount =? 0)%Z then (spanContext, Some ErrSpanContextNotFound)
          else if (fieldCount <? 2)%Z then (spanContext, Some ErrSpanContextCorrupted)
          else
            match opaqueCarrier with
            | HTTPHeadersCarrier c =>
                match Extract c with
                | Some trCtx =>
                    (set_ForeignParent spanContext (Some trCtx), None)
                | None => (spanContext, None)
                end
            | _ => (spanContext, None)
            end
      end
  end.

End Code.

(** Vocabulary of the statements: a key is the trace (span) field when its
    lower-case form is [FieldT] ([FieldS]); [native_count] is the number of
    delivered pairs whose key is one of the two. *)
Definition is_trace_field (k : string) : bool :=
  bool_decide (strings.ToLower k = FieldT).
Definition is_span_field (k : string) : bool :=
  bool_decide (strings.ToLower k = FieldS).
Definition is_level_field (k : string) : bool :=
  bool_decide (strings.ToLower k = FieldL).
Definition is_baggage_field (k : string) : bool :=
  strings.HasPrefix (strings.ToLower k) FieldB.
Definition is_native_field (k : string) : bool :=
  is_trace_field k || is_span_field k.
Definition native_count (pairs : list (string * string)) : nat :=
  length (List.filter (λ kv, is_native_field kv.1) pairs).

Definition is_instana_field (k : string) : bool :=
  is_trace_field k || is_span_field k || is_level_field k || is_baggage_field k.

(** What the extraction handler does to the baggage map on one pair. *)
Definition store_baggage_entry (b : gmap string string) (kv : string * string)
  : gmap string string :=
  if is_baggage_field kv.1
  then <[strings.slice_from kv.1 (String.length FieldB) := kv.2]> b
  else b.

(** How many of the two fields occur among the keys: 0, 1 or 2. *)
Definition fields_found (pairs : list (string * string)) : nat :=
  (if existsb (λ kv, is_trace_field kv.1) pairs then 1 else 0) +
  (if existsb (λ kv, is_span_field kv.1) pairs then 1 else 0).

(** Keys made of ASCII bytes only: on these [strings.ToLower] and the
    conversion to runes of [injectTraceContext] act byte by byte, as the
    embedding has them. *)
Definition is_ascii (s : string) : bool :=
  forallb (λ c, (N_of_ascii c <? 128)%N) (list_ascii_of_string s).
Definition ascii_keys (pairs : list (string * string)) : bool :=
  forallb (λ kv, is_ascii kv.1) pairs.

(** The carrier spells each of the trace, span and level fields in one way
    at most. *)
Definition one_spelling (pairs : list (string * string)) : Prop :=
  ∀ is_f, is_f ∈ [is_trace_field; is_span_field; is_level_field] →
    ∀ kv kv', kv ∈ pairs → kv' ∈ pairs →
      is_f kv.1 = true → is_f kv'.1 = true → kv.1 = kv'.1.

(** The names of the headers are ASCII. *)
Definition ascii_header_names (h : http.Header) : Prop :=
  ∀ k, is_Some (h !! k) → is_ascii k = true.

(** The header names [injectTraceContext] starts from. *)
Definition default_fields : Existing :=
  {| exstfieldT := FieldT; exstfieldS := FieldS;
     exstfieldL := FieldL; exstfieldB := FieldB |}.

End Propagation.


(** ** Inputs the properties are run on *)

Module Inputs.
Import w3ctrace SpanCtx.

(** A foreign context with a parseable parent and an Instana vendor entry. *)
Definition foreign_ctx : Context :=
  {| RawParent := "00-0000000000000000000000000000001a-0000000000000063-01";
     RawState := "in=2b;4d,foo=bar" |}.

(** A foreign context whose parent parses to all-zero identifiers. *)
Definition foreign_ctx_zero_ids : Context :=
  {| RawParent := "00-00000000000000000000000000000000-0000000000000000-01";
     RawState := "foo=bar" |}.

(** A foreign context whose trace id is not hex. *)
Definition foreign_ctx_garbled : Context :=
  {| RawParent := "00-0af7651916cd43dd8448eb211c80319z-00f067aa0ba902b7-01";
     RawState := "foo=bar" |}.

(** Parents that carry a foreign context only. *)
Definition parent_foreign : SpanContext :=
  set_W3CContext zeroSpanContext foreign_ctx.
Definition parent_foreign_zero_ids : SpanContext :=
  set_W3CContext zeroSpanContext foreign_ctx_zero_ids.
Definition parent_foreign_garbled : SpanContext :=
  set_W3CContext zeroSpanContext foreign_ctx_garbled.

(** A parent with native identifiers. *)
Definition parent_native : SpanContext := set_ids zeroSpanContext 0 26 99.

(** A world whose heap holds one baggage map, and a context that refers
    to it and has every field set. *)
Definition world_with_baggage : World :=
  {| sensor_options := {| disableW3CTraceCorrelation := false |};
     entropy := λ n, Z.of_nat n + 7; drawn := 0;
     heap := {[ 1%positive := ({[ "user" := "alice" ]} : gmap string string) ]} |}.

Definition full_context : SpanContext :=
  {| TraceIDHi := 1; TraceID := 26; SpanID := 99; ParentID := 5;
     Links := [ {| RefTraceID := "2b"; RefSpanID := "4d" |} ];
     Sampled := true; Suppressed := true; Baggage := Some 1%positive;
     W3CContext := foreign_ctx; ForeignTrace := true;
     Correlation := {| Type_ := "web"; ID := "abc" |} |}.

(** An HTTP request that carries the trace id header twice and no span id
    header, and the pairs [ForeachKey] delivers on it. *)
Definition headers_trace_twice : http.Header :=
  {[ "X-Instana-T" := ["1a"; "1a"] ]}.
Definition pairs_trace_twice : list (string * string) :=
  [("X-Instana-T", "1a"); ("X-Instana-T", "1a")].

(** A parent with flags, a link and correlation data but neither native
    identifiers nor a foreign context. *)
Definition parent_flags_only : SpanContext :=
  {| TraceIDHi := 0; TraceID := 0; SpanID := 0; ParentID := 5;
     Links := [ {| RefTraceID := "2b"; RefSpanID := "4d" |} ];
     Sampled := true; Suppressed := true; Baggage := None;
     W3CContext := zeroContext; ForeignTrace := true;
     Correlation := {| Type_ := "web"; ID := "abc" |} |}.

(** Contexts to inject: without baggage, and with one baggage entry. *)
Definition sc_plain : Propagation.SpanContext :=
  {| Propagation.TraceID := 26; Propagation.SpanID := 99;
     Propagation.Suppressed := false; Propagation.Baggage := None;
     Propagation.ForeignParent := None |}.
Definition sc_baggage : Propagation.SpanContext :=
  {| Propagation.TraceID := 26; Propagation.SpanID := 99;
     Propagation.Suppressed := true;
     Propagation.Baggage := Some {[ "user" := "alice" ]};
     Propagation.ForeignParent := None |}.

(** A text map that still holds a baggage header of an earlier request, and
    one that holds an unrelated header. *)
Definition stale_text_map : gmap string string := {[ "x-instana-b-old" := "v" ]}.
Definition plain_text_map : gmap string string := {[ "content-type" := "json" ]}.

(** A text map that holds the trace id under two spellings of the header
    name. *)
Definition two_spellings_text_map : gmap string string :=
  {[ "x-instana-t" := "ff"; "X-Instana-T" := "ee" ]}.

(** A text map that holds the trace id under a capitalised header name. *)
Definition cased_text_map : gmap string string := {[ "X-Instana-T" := "ff" ]}.

(** Pairs that carry the level twice and the other fields in mixed case. *)
Definition pairs_level_twice : list (string * string) :=
  [("X-Instana-L", "0"); ("x-instana-t", "1a"); ("X-INSTANA-S", "63");
   ("x-instana-l", "1"); ("X-Instana-B-User", "bob")].

End Inputs.


(** A world to run the code on: the options at their default (correlation
    enabled), a random source that returns 7, 8, 9, ... and an empty heap. *)
Definition demo_world : World :=
  {| sensor_options := {| disableW3CTraceCorrelation := false |};
     entropy := λ n, Z.of_nat n + 7; drawn := 0; heap := ∅ |}.

(** A world whose random source returns 0, 1, 2, ... *)
Definition zero_draw_world : World :=
  {| sensor_options := {| disableW3CTraceCorrelation := false |};
     entropy := λ n, Z.of_nat n; drawn := 0; heap := ∅ |}.

(** The world [w] with the options [o]. *)
Definition set_options (w : World) (o : Options) : World :=
  {| sensor_options := o; entropy := entropy w; drawn := drawn w; heap := heap w |}.

(** The same world with correlation administratively disabled. *)
Definition demo_world_disabled : World :=
  set_options demo_world {| disableW3CTraceCorrelation := true |}.


(** * Properties *)

(** Unfolding of the state monad. *)
Ltac run_go :=
  unfold mbind, M_bind, bind, mret, M_ret, ret, get_options, randomID in *;
  cbn [fst snd] in *.

(** ** Cloning and baggage *)

Module Cloning.
Import w3ctrace SpanCtx.

Lemma set_heap_id (w : World) : set_heap w (heap w) = w.
Proof. by destruct w. Qed.

(** Storing the entries of a map one by one into an empty map rebuilds the
    map, in whatever order [range] visits them. *)
Lemma foldl_store_entries (m : gmap string string) (order : list (string * string)) :
  order ≡ₚ map_to_list m →
  foldl (λ acc kv, <[kv.1 := kv.2]> acc) ∅ order = m.
Proof.
  intros Hp.
  assert (∀ l : list (string * string),
            foldl (λ acc kv, <[kv.1 := kv.2]> acc) (∅ : gmap string string) l
            = list_to_map (reverse l)) as Hrev.
  { induction l as [|x l IH] using rev_ind; [done|].
    rewrite foldl_snoc, reverse_snoc, IH. by destruct x. }
  rewrite Hrev, <- (list_to_map_to_list m).
  apply list_to_map_proper.
  - rewrite reverse_Permutation, Hp. apply NoDup_fst_map_to_list.
  - by rewrite reverse_Permutation.
Qed.

(** The world after [range_over order (map_store l)]. *)
Lemma range_over_store (order : list (string * string)) (l : loc)
    (w : World) (m0 : gmap string string) :
  heap w !! l = Some m0 →
  (range_over order (map_store l) w).2 =
  set_heap w (<[l := foldl (λ acc kv, <[kv.1 := kv.2]> acc) m0 order]> (heap w)).
Proof.
  revert w m0. induction order as [|[k v] rest IH]; intros w m0 Hl; cbn.
  - rewrite insert_id by done. by rewrite set_heap_id.
  - run_go. unfold map_store at 1. cbn.
    rewrite (IH _ (<[k:=v]> m0)).
    + unfold set_heap. cbn. by rewrite insert_alter_eq.
    + cbn. by rewrite lookup_alter_eq, Hl.
Qed.

(** The result of [Clone_along] on a context that has a baggage map. *)
Lemma Clone_along_some (order : list (string * string)) (c : SpanContext)
    (w : World) (l : loc) :
  Baggage c = Some l →
  let l' := fresh (dom (heap w)) in
  Clone_along order c w =
  ({| TraceIDHi := TraceIDHi c; TraceID := TraceID c; SpanID := SpanID c;
      ParentID := ParentID c; Links := []; Sampled := Sampled c;
      Suppressed := Suppressed c; Baggage := Some l';
      W3CContext := W3CContext c; ForeignTrace := false;
      Correlation := zeroCorrelation |},
   set_heap w (<[l' := foldl (λ acc kv, <[kv.1 := kv.2]> acc) ∅ order]> (heap w))).
Proof.
  intros Hb l'. unfold Clone_along. rewrite Hb. run_go. unfold make_map. cbn.
  fold l'.
  pose proof (range_over_store order l' (set_heap w (<[l':=∅]> (heap w))) ∅) as Hr.
  destruct (range_over order (map_store l') _) as [u w2]. cbn in *.
  rewrite Hr by apply lookup_insert_eq.
  unfold set_heap. cbn. by rewrite insert_insert_eq.
Qed.

(** Every visiting order of the copy loop gives the result of [Clone]. *)
Lemma Clone_along_order (order : list (string * string)) (c : SpanContext) (w : World) :
  (∀ l, Baggage c = Some l → order ≡ₚ map_to_list (map_contents w l)) →
  Clone_along order c w = Clone c w.
Proof.
  intros Ho. unfold Clone. destruct (Baggage c) as [l|] eqn:Hb.
  - rewrite !(Clone_along_some _ c w l Hb).
    rewrite (foldl_store_entries (map_contents w l) order) by auto.
    by rewrite (foldl_store_entries (map_contents w l) (map_to_list _)).
  - unfold Clone_along. by rewrite Hb.
Qed.

(** [Clone] in closed form. *)
Lemma Clone_some (c : SpanContext) (w : World) (l : loc) :
  Baggage c = Some l →
  let l' := fresh (dom (heap w)) in
  Clone c w =
  ({| TraceIDHi := TraceIDHi c; TraceID := TraceID c; SpanID := SpanID c;
      ParentID := ParentID c; Links := []; Sampled := Sampled c;
      Suppressed := Suppressed c; Baggage := Some l';
      W3CContext := W3CContext c; ForeignTrace := false;
      Correlation := zeroCorrelation |},
   set_heap w (<[l' := map_contents w l]> (heap w))).
Proof.
  intros Hb l'. unfold Clone. rewrite Hb.
  rewrite (Clone_along_some _ c w l Hb).
  by rewrite (foldl_store_entries (map_contents w l) (map_to_list _)).
Qed.

Lemma Clone_none (c : SpanContext) (w : World) :
  Baggage c = None →
  Clone c w =
  ({| TraceIDHi := TraceIDHi c; TraceID := TraceID c; SpanID := SpanID c;
      ParentID := ParentID c; Links := []; Sampled := Sampled c;
      Suppressed := Suppressed c; Baggage := None;
      W3CContext := W3CContext c; ForeignTrace := false;
      Correlation := zeroCorrelation |}, w).
Proof. intros Hb. unfold Clone, Clone_along. by rewrite Hb. Qed.

Lemma fresh_not_allocated (w : World) : heap w !! fresh (dom (heap w)) = None.
Proof. apply not_elem_of_dom, is_fresh. Qed.

(** C10.  [Clone], and [WithBaggageItem] which starts from a clone, return
    a context whose [Links], [ForeignTrace] and [Correlation] are the zero
    values whatever they are in [c]; the identifiers, the flags and the
    foreign context are those of [c]; the baggage is a new map with the
    entries of [c]'s map: its address is not [c]'s nor any allocated one,
    no other map of the heap changes, and a later store into it leaves
    [c]'s map as it was. *)
Theorem Clone_deep_copy (c : SpanContext) (w : World) :
  (∀ l, Baggage c = Some l → is_Some (heap w !! l)) →
  let r := (Clone c w).1 in
  let w' := (Clone c w).2 in
  (Links r = [] ∧ ForeignTrace r = false ∧ Correlation r = zeroCorrelation) ∧
  (TraceIDHi r = TraceIDHi c ∧ TraceID r = TraceID c ∧ SpanID r = SpanID c ∧
   ParentID r = ParentID c ∧ Sampled r = Sampled c ∧
   Suppressed r = Suppressed c ∧ W3CContext r = W3CContext c) ∧
  (Baggage c = None → Baggage r = None ∧ w' = w) ∧
  (∀ l, Baggage c = Some l →
     ∃ l', Baggage r = Some l' ∧ l' ≠ l ∧ heap w !! l' = None ∧
           heap w' !! l' = heap w !! l ∧
           (∀ l0, l0 ≠ l' → heap w' !! l0 = heap w !! l0) ∧
           (∀ k v, heap (map_store l' k v w').2 !! l = heap w !! l)) ∧
  (∀ key val,
     let r2 := (WithBaggageItem c key val w).1 in
     let w2 := (WithBaggageItem c key val w).2 in
     (Links r2 = [] ∧ ForeignTrace r2 = false ∧ Correlation r2 = zeroCorrelation) ∧
     (TraceIDHi r2 = TraceIDHi c ∧ TraceID r2 = TraceID c ∧ SpanID r2 = SpanID c ∧
      ParentID r2 = ParentID c ∧ Sampled r2 = Sampled c ∧
      Suppressed r2 = Suppressed c ∧ W3CContext r2 = W3CContext c) ∧
     ∃ l', Baggage r2 = Some l' ∧ Baggage c ≠ Some l' ∧ heap w !! l' = None ∧
           heap w2 !! l' =
             Some (<[key := val]> (match Baggage c with
                                   | Some l => map_contents w l
                                   | None => ∅
                                   end)) ∧
           (∀ l0, l0 ≠ l' → heap w2 !! l0 = heap w !! l0)).
Proof.
  intros Hwf r w'. subst r w'.
  pose proof (fresh_not_allocated w) as Hfresh.
  destruct (Baggage c) as [l|] eqn:Hb.
  - destruct (Hwf l eq_refl) as [m Hm].
    assert (fresh (dom (heap w)) ≠ l) as Hne by (intros E; congruence).
    assert (map_contents w l = m) as Hmc by (unfold map_contents; by rewrite Hm).
    unfold WithBaggageItem. run_go.
    rewrite (Clone_some c w l Hb). cbn. rewrite Hmc.
    split; [done|]. split; [done|]. split; [done|]. split.
    + intros l0 [= <-]. exists (fresh (dom (heap w))).
      split; [done|]. split; [done|]. split; [done|]. split.
      { by rewrite lookup_insert_eq. }
      split.
      { intros l1 Hl1. by rewrite lookup_insert_ne. }
      intros k v. rewrite lookup_alter_ne by done. by rewrite lookup_insert_ne.
    + intros key val. split; [done|]. split; [done|].
      exists (fresh (dom (heap w))).
      split; [done|]. split; [congruence|]. split; [done|]. split.
      { by rewrite lookup_alter_eq, lookup_insert_eq. }
      intros l1 Hl1. rewrite lookup_alter_ne by done. by rewrite lookup_insert_ne.
  - unfold WithBaggageItem. run_go. rewrite (Clone_none c w Hb). cbn.
    split; [done|]. split; [done|]. split; [done|]. split; [done|].
    intros key val. unfold make_map. cbn. split; [done|]. split; [done|].
    exists (fresh (dom (heap w))).
    split; [done|]. split; [done|]. split; [done|]. split.
    { by rewrite lookup_alter_eq, lookup_insert_eq. }
    intros l1 Hl1. rewrite lookup_alter_ne by done. by rewrite lookup_insert_ne.
Qed.

Lemma Clone_deep_copy_witness :
  let c := Inputs.full_context in
  let w := Inputs.world_with_baggage in
  let r := (Clone c w).1 in
  (∀ l, Baggage c = Some l → is_Some (heap w !! l)) ∧
  Links r = [] ∧ ForeignTrace r = false ∧ Correlation r = zeroCorrelation ∧
  TraceID r = 26 ∧ W3CContext r = Inputs.foreign_ctx.
Proof.
  intros c w r.
  assert (∀ l, Baggage c = Some l → is_Some (heap w !! l)) as Hwf.
  { intros l [= <-]. eexists. reflexivity. }
  split; [exact Hwf|].
  destruct (Clone_deep_copy c w Hwf) as ((F1 & F2 & F3) & (_ & F4 & _ & _ & _ & _ & F5) & _).
  repeat split; assumption.
Defined.

End Cloning.

(** ** Derivation of span contexts *)

Module Derivation.
Import w3ctrace SpanCtx.

Section Facts.
Context `{!IDCodec, !Ops}.

Lemma no_native_ids_true (c : SpanContext) :
  no_native_ids c = true ↔ TraceIDHi c = 0 ∧ TraceID c = 0 ∧ SpanID c = 0.
Proof.
  unfold no_native_ids. rewrite !andb_true_iff, !Z.eqb_eq. tauto.
Qed.

Lemma no_native_ids_false (c : SpanContext) :
  no_native_ids c = false ↔ ¬ (TraceIDHi c = 0 ∧ TraceID c = 0 ∧ SpanID c = 0).
Proof.
  rewrite <- no_native_ids_true. destruct (no_native_ids c); split; congruence.
Qed.

(** [range_over] with [map_store l] changes the heap only, and only at [l]. *)
Lemma range_over_store_frame (order : list (string * string)) (l : loc) (w : World) :
  let w' := (range_over order (map_store l) w).2 in
  sensor_options w' = sensor_options w ∧ entropy w' = entropy w ∧
  drawn w' = drawn w ∧ ∀ l', l' ≠ l → heap w' !! l' = heap w !! l'.
Proof.
  revert w. induction order as [|[k v] rest IH]; intros w; cbn.
  - auto.
  - run_go. unfold map_store at 1. cbn.
    destruct (IH (set_heap w (alter (λ m, <[k:=v]> m) l (heap w))))
      as (Ho & He & Hd & Hh).
    cbn in *. repeat split; try assumption.
    intros l' Hne. rewrite (Hh l' Hne). by rewrite lookup_alter_ne.
Qed.

(** [Clone] draws no random identifier and leaves the options alone. *)
Lemma Clone_world (c : SpanContext) (w : World) :
  let w' := (Clone c w).2 in
  sensor_options w' = sensor_options w ∧ entropy w' = entropy w ∧
  drawn w' = drawn w.
Proof.
  unfold Clone, Clone_along. destruct (Baggage c) as [l|]; [|by cbn].
  run_go. unfold make_map. cbn.
  set (w1 := set_heap _ _).
  destruct (range_over_store_frame (map_to_list (map_contents w l))
              (fresh (dom (heap w))) w1) as (Ho & He & Hd & _).
  destruct (range_over _ _ w1) as [u w2]. cbn in *. auto.
Qed.

(** The fields [Clone] copies and the fields it resets. *)
Lemma Clone_fields (c : SpanContext) (w : World) :
  let r := (Clone c w).1 in
  TraceIDHi r = TraceIDHi c ∧ TraceID r = TraceID c ∧ SpanID r = SpanID c ∧
  ParentID r = ParentID c ∧ Sampled r = Sampled c ∧
  Suppressed r = Suppressed c ∧ W3CContext r = W3CContext c ∧
  Links r = [] ∧ ForeignTrace r = false ∧ Correlation r = zeroCorrelation.
Proof.
  unfold Clone, Clone_along. destruct (Baggage c) as [l|]; [|by cbn].
  run_go. unfold make_map. cbn.
  destruct (range_over _ _ _) as [u w2]. by cbn.
Qed.

(** C9.  Every context returned by [NewRootSpanContext] has one freshly
    drawn identifier in both [TraceID] and [SpanID], [ParentID = 0], and a
    synthesized foreign context made from the parent whose trace id is the
    long-format hex of [(TraceIDHi, TraceID)], whose parent id is the hex of
    [SpanID] and whose sampled flag is the negation of [Suppressed]. *)
Theorem NewRootSpanContext_spec (w : World) :
  let c := (NewRootSpanContext w).1 in
  let w' := (NewRootSpanContext w).2 in
  TraceID c = entropy w (drawn w) ∧
  SpanID c = TraceID c ∧
  drawn w' = S (drawn w) ∧
  ParentID c = 0 ∧
  W3CContext c =
    New {| Version := Version_Max;
           w3ctrace.TraceID := FormatLongID (TraceIDHi c) (TraceID c);
           w3ctrace.ParentID := FormatID (SpanID c);
           PFlags := {| w3ctrace.Sampled := negb (Suppressed c) |} |}.
Proof.
  unfold NewRootSpanContext. run_go. cbn. repeat split.
Qed.

(** With native identifiers in the parent the derivation is the clone
    path with [foreignTrace = false], whatever the options are. *)
Lemma NewSpanContext_native (parent : SpanContext) (w : World) :
  no_native_ids parent = false →
  let c := (NewSpanContext parent w).1 in
  let w' := (NewSpanContext parent w).2 in
  ParentID c = SpanID parent ∧
  SpanID c = entropy w (drawn w) ∧
  drawn w' = S (drawn w) ∧
  TraceIDHi c = TraceIDHi parent ∧
  TraceID c = TraceID parent ∧
  ForeignTrace c = false ∧
  Links c = [].
Proof.
  intros Hn. unfold NewSpanContext. rewrite Hn. run_go. rewrite Hn.
  pose proof (Clone_world parent w) as (Ho & He & Hd).
  pose proof (Clone_fields parent w) as (F1 & F2 & F3 & F4 & F5 & F6 & F7 & F8 & F9 & F10).
  destruct (Clone parent w) as [c0 w0]. cbn in *.
  destruct (IsZero (W3CContext c0)); cbn; rewrite ?He, ?Hd; repeat split; auto.
Qed.

(** The context [Clone] returns: the copied fields, and a fresh map
    address when the original has a map. *)
Lemma Clone_result (c : SpanContext) (w : World) :
  (Clone c w).1 =
  {| TraceIDHi := TraceIDHi c; TraceID := TraceID c; SpanID := SpanID c;
     ParentID := ParentID c; Links := []; Sampled := Sampled c;
     Suppressed := Suppressed c;
     Baggage := match Baggage c with
                | Some _ => Some (fresh (dom (heap w)))
                | None => None
                end;
     W3CContext := W3CContext c; ForeignTrace := false;
     Correlation := zeroCorrelation |}.
Proof.
  unfold Clone, Clone_along. destruct (Baggage c) as [l|]; [|by cbn].
  run_go. unfold make_map. cbn.
  destruct (range_over _ _ _) as [u w2]. by cbn.
Qed.

(** Restoration only reads the world. *)
Lemma restoreFromW3CTraceContext_world (trCtx : Context) (w : World) :
  (restoreFromW3CTraceContext trCtx w).2 = w.
Proof.
  unfold restoreFromW3CTraceContext. destruct (IsZero trCtx); [done|].
  run_go. destruct (disableW3CTraceCorrelation _); [done|].
  destruct (ParseLongID _) as [[hi lo]|]; [|done].
  by destruct (ParseID _).
Qed.

Lemma NewSpanContext_restored (parent : SpanContext) (w : World) :
  no_native_ids parent = true →
  let restored := (restoreFromW3CTraceContext (W3CContext parent) w).1 in
  no_native_ids restored = false →
  let c := (NewSpanContext parent w).1 in
  let x := with_RawParent (W3CContext restored)
             (Parent_String
                (with_ParentID (Context_Parent (W3CContext restored))
                   (FormatID (entropy w (drawn w))))) in
  TraceIDHi c = TraceIDHi restored ∧
  TraceID c = TraceID restored ∧
  ParentID c = SpanID restored ∧
  Suppressed c = Suppressed restored ∧
  ForeignTrace c = negb (disableW3CTraceCorrelation (sensor_options w)) ∧
  (IsZero (W3CContext restored) = false →
   W3CContext c = x ∧
   Links c = if ForeignTrace c then links_from_state x else []).
Proof.
  intros Hz restored Hn. unfold NewSpanContext. rewrite Hz. run_go.
  pose proof (restoreFromW3CTraceContext_world (W3CContext parent) w) as Hw.
  fold restored.
  destruct (restoreFromW3CTraceContext (W3CContext parent) w) as [r w1] eqn:Hr.
  cbn in Hw, restored. subst w1 restored. cbn. rewrite Hn.
  pose proof (Clone_result r w) as Hc.
  pose proof (Clone_world r w) as (Ho & He & Hd).
  destruct (Clone r w) as [c0 w0]. cbn in Hc, Ho, He, Hd. subst c0. cbn.
  rewrite He, Hd.
  set (x := with_RawParent _ _).
  destruct (IsZero (W3CContext r)); cbn; [by repeat split|].
  destruct (disableW3CTraceCorrelation (sensor_options w)); cbn;
    [by repeat split|].
  unfold links_from_state.
  destruct (State_Fetch (Context_State x) VendorInstana) as [v|]; cbn;
    [|by repeat split].
  destruct (parseW3CInstanaState v) as [ref [|]]; cbn; by repeat split.
Qed.

(** With correlation disabled, restoration from a non-zero foreign context
    is [restoreFromW3CTraceState], which always returns that context. *)
Lemma restore_disabled_keeps_context (trCtx : Context) (w : World) :
  IsZero trCtx = false →
  disableW3CTraceCorrelation (sensor_options w) = true →
  (restoreFromW3CTraceContext trCtx w).1 = restoreFromW3CTraceState trCtx ∧
  W3CContext (restoreFromW3CTraceState trCtx) = trCtx.
Proof.
  intros Hz Hd. unfold restoreFromW3CTraceContext. rewrite Hz. run_go.
  rewrite Hd. split; [done|]. unfold restoreFromW3CTraceState. rewrite Hz.
  destruct (State_Fetch _ _) as [v|]; [|done].
  destruct (parseW3CInstanaState v) as [ref [|]]; [|done].
  destruct (ParseLongID _) as [[hi lo]|]; [|done].
  by destruct (ParseID _).
Qed.

(** C5.  With all-zero native identifiers, a non-zero foreign context and
    the correlation-disable configuration on, restoration does not depend on
    how the foreign parent fields read ([f] is any other reading); it looks
    up the vendor key in the foreign state.  When the key is absent, or its
    value has no semicolon, or the part before the first semicolon does not
    parse as a trace id or the part after it as a span id, the result holds
    the foreign context and every other field is zero.  When both parts
    parse, [TraceIDHi], [TraceID] and [SpanID] are the identifiers parsed
    from the vendor value, beside the foreign context, and every other field
    is zero. *)
Theorem restore_with_correlation_disabled (parent : SpanContext) (w : World) :
  no_native_ids parent = true →
  IsZero (W3CContext parent) = false →
  disableW3CTraceCorrelation (sensor_options w) = true →
  let trCtx := W3CContext parent in
  let r := (restoreFromW3CTraceContext trCtx w).1 in
  let fetched := State_Fetch (Context_State trCtx) VendorInstana in
  let before v := strings.slice_to v (Z.to_nat (strings.IndexByte v ";")) in
  let after v := strings.slice_from v (Z.to_nat (strings.IndexByte v ";") + 1) in
  let with_ids hi lo span :=
    {| TraceIDHi := hi; TraceID := lo; SpanID := span; ParentID := 0;
       Links := []; Sampled := false; Suppressed := false; Baggage := None;
       W3CContext := trCtx; ForeignTrace := false;
       Correlation := {| Type_ := ""; ID := "" |} |} in
  (∀ f : Context → Parent,
     (@restoreFromW3CTraceContext _ (override_Context_Parent _ f) trCtx w).1 = r) ∧
  W3CContext r = trCtx ∧
  (fetched = None → r = with_ids 0 0 0) ∧
  (∀ v, fetched = Some v → (strings.IndexByte v ";" < 0)%Z → r = with_ids 0 0 0) ∧
  (∀ v, fetched = Some v → (0 <= strings.IndexByte v ";")%Z →
        ParseLongID (before v) = None ∨ ParseID (after v) = None →
        r = with_ids 0 0 0) ∧
  (∀ v hi lo span,
     fetched = Some v → (0 <= strings.IndexByte v ";")%Z →
     ParseLongID (before v) = Some (hi, lo) →
     ParseID (after v) = Some span →
     r = with_ids hi lo span ∧
     TraceIDHi r = hi ∧ TraceID r = lo ∧ SpanID r = span).
Proof.
  intros _ Hz Hd trCtx r fetched before after with_ids.
  subst trCtx r fetched before after with_ids.
  unfold restoreFromW3CTraceContext. cbn [IsZero override_Context_Parent].
  rewrite Hz. run_go. rewrite Hd. cbn.
  unfold restoreFromW3CTraceState. cbn [IsZero override_Context_Parent].
  rewrite Hz.
  split; [done|]. split.
  { destruct (State_Fetch _ _) as [v|]; [|done].
    destruct (parseW3CInstanaState v) as [ref [|]]; [|done].
    destruct (ParseLongID _) as [[hi lo]|]; [|done].
    by destruct (ParseID _). }
  split; [by intros ->|].
  assert (∀ v, (0 <= strings.IndexByte v ";")%Z →
            parseW3CInstanaState v =
            ({| RefTraceID := strings.slice_to v (Z.to_nat (strings.IndexByte v ";"));
                RefSpanID :=
                  strings.slice_from v (Z.to_nat (strings.IndexByte v ";") + 1) |},
             true)) as Hsplit.
  { intros v Hi. unfold parseW3CInstanaState.
    destruct (Z.ltb_spec (strings.IndexByte v ";") 0); [lia|].
    do 2 f_equal. f_equal. lia. }
  split; [|split].
  - intros v -> Hi. unfold parseW3CInstanaState.
    destruct (Z.ltb_spec (strings.IndexByte v ";") 0); [done|lia].
  - intros v -> Hi Hfail. rewrite (Hsplit v Hi). cbn [RefTraceID RefSpanID].
    destruct Hfail as [-> | Hs]; [done|].
    destruct (ParseLongID _) as [[hi lo]|]; [|done]. by rewrite Hs.
  - intros v hi lo span -> Hi Hl Hp. rewrite (Hsplit v Hi). cbn [RefTraceID RefSpanID].
    by rewrite Hl, Hp.
Qed.

(** Restoration returns the empty context or a context that holds the
    foreign context it was given. *)
Lemma restore_context_cases (trCtx : Context) (w : World) :
  (restoreFromW3CTraceContext trCtx w).1 = zeroSpanContext ∨
  W3CContext (restoreFromW3CTraceContext trCtx w).1 = trCtx.
Proof.
  unfold restoreFromW3CTraceContext. destruct (IsZero trCtx) eqn:Hz; [by left|].
  run_go. destruct (disableW3CTraceCorrelation (sensor_options w)); cbn.
  - right. unfold restoreFromW3CTraceState. rewrite Hz.
    destruct (State_Fetch _ _) as [v|]; [|done].
    destruct (parseW3CInstanaState v) as [ref [|]]; [|done].
    destruct (ParseLongID _) as [[hi lo]|]; [|done].
    by destruct (ParseID _).
  - destruct (ParseLongID _) as [[hi lo]|]; [|by left].
    destruct (ParseID _); [by right|by left].
Qed.

(** C6.  Whenever the derived context is marked [ForeignTrace = true], its
    foreign context has the vendor state of the parent's foreign context,
    and: if that state holds the vendor key and the value splits at its
    first semicolon, the links are exactly the one reference made of the two
    parts; if the key is absent or the value has no semicolon, the links are
    empty. *)
Theorem NewSpanContext_foreign_links (parent : SpanContext) (w : World) :
  let c := (NewSpanContext parent w).1 in
  ForeignTrace c = true →
  let fetched := State_Fetch (Context_State (W3CContext c)) VendorInstana in
  RawState (W3CContext c) = RawState (W3CContext parent) ∧
  (∀ v, fetched = Some v →
        (0 <= strings.IndexByte v ";")%Z →
        let ind := Z.to_nat (strings.IndexByte v ";") in
        Links c = [ {| RefTraceID := strings.slice_to v ind;
                       RefSpanID := strings.slice_from v (ind + 1) |} ]) ∧
  (fetched = None → Links c = []) ∧
  (∀ v, fetched = Some v → (strings.IndexByte v ";" < 0)%Z → Links c = []).
Proof.
  intros c Hf.
  destruct (no_native_ids parent) eqn:Hz.
  2: { destruct (NewSpanContext_native parent w Hz) as (_ & _ & _ & _ & _ & F & _).
       fold c in F. congruence. }
  pose proof (restoreFromW3CTraceContext_world (W3CContext parent) w) as Hw.
  destruct (no_native_ids (restoreFromW3CTraceContext (W3CContext parent) w).1) eqn:Hn.
  { (* the root path never sets the flag *)
    exfalso. revert Hf. subst c. unfold NewSpanContext. rewrite Hz. run_go.
    destruct (restoreFromW3CTraceContext (W3CContext parent) w) as [r w1].
    cbn in *. rewrite Hn. unfold NewRootSpanContext. run_go.
    by destruct (negb (IsZero (W3CContext r))). }
  destruct (NewSpanContext_restored parent w Hz Hn) as (_ & _ & _ & _ & Hft & Hx).
  fold c in Hft, Hx.
  assert (IsZero (W3CContext (restoreFromW3CTraceContext (W3CContext parent) w).1) = false) as Hnz.
  { destruct (IsZero _) eqn:E; [|done]. exfalso.
    revert Hn E Hft. rewrite Hf.
    unfold restoreFromW3CTraceContext. destruct (IsZero (W3CContext parent)) eqn:Ep.
    - cbn. discriminate.
    - run_go. destruct (disableW3CTraceCorrelation (sensor_options w)); [discriminate|].
      destruct (ParseLongID _) as [[hi lo]|]; [|cbn; discriminate].
      destruct (ParseID _); cbn; [|discriminate]. congruence. }
  destruct (Hx Hnz) as [Hc Hl]. rewrite Hf in Hl. rewrite <- Hc in Hl.
  unfold links_from_state in Hl. cbn zeta.
  split.
  { rewrite Hc. cbn.
    destruct (restore_context_cases (W3CContext parent) w) as [E|E]; [|by rewrite E].
    rewrite E in Hn. discriminate Hn. }
  repeat split.
  - intros v Hv Hi. rewrite Hv in Hl. rewrite Hl.
    unfold parseW3CInstanaState.
    destruct (Z.ltb_spec (strings.IndexByte v ";") 0); [lia|].
    do 2 f_equal. f_equal. lia.
  - intros Hv. by rewrite Hv in Hl.
  - intros v Hv Hi. rewrite Hv in Hl. rewrite Hl.
    unfold parseW3CInstanaState.
    destruct (Z.ltb_spec (strings.IndexByte v ";") 0); [done|lia].
Qed.

(** Restoration with correlation enabled and a parseable foreign parent. *)
Lemma restore_enabled_parsed (trCtx : Context) (w : World) (hi lo span : Z) :
  IsZero trCtx = false →
  disableW3CTraceCorrelation (sensor_options w) = false →
  ParseLongID (w3ctrace.TraceID (Context_Parent trCtx)) = Some (hi, lo) →
  ParseID (w3ctrace.ParentID (Context_Parent trCtx)) = Some span →
  (restoreFromW3CTraceContext trCtx w).1 =
  {| TraceIDHi := hi; TraceID := lo; SpanID := span; ParentID := 0;
     Links := []; Sampled := false;
     Suppressed := negb (w3ctrace.Sampled (PFlags (Context_Parent trCtx)));
     Baggage := None; W3CContext := trCtx; ForeignTrace := false;
     Correlation := zeroCorrelation |}.
Proof.
  intros Hz Hd Ht Hp. unfold restoreFromW3CTraceContext.
  rewrite Hz. run_go. by rewrite Hd, Ht, Hp.
Qed.

(** Restoration with correlation enabled and a foreign parent field that
    does not parse: the empty context, without the foreign context. *)
Lemma restore_enabled_parse_failure (trCtx : Context) (w : World) :
  disableW3CTraceCorrelation (sensor_options w) = false →
  ParseLongID (w3ctrace.TraceID (Context_Parent trCtx)) = None ∨
  ParseID (w3ctrace.ParentID (Context_Parent trCtx)) = None →
  (restoreFromW3CTraceContext trCtx w).1 = zeroSpanContext.
Proof.
  intros Hd Hf. unfold restoreFromW3CTraceContext.
  destruct (IsZero trCtx); [done|]. run_go. rewrite Hd.
  destruct Hf as [-> | Hp]; [done|].
  destruct (ParseLongID _) as [[hi lo]|]; [|done]. by rewrite Hp.
Qed.

(** C3, amended.  With all-zero native identifiers in the parent, a
    non-zero foreign context whose parent fields parse, correlation enabled,
    and parsed identifiers that are not all zero, the derived context has
    [TraceIDHi] and [TraceID] equal to [ParseLongID] of the foreign trace id,
    [ParentID] equal to [ParseID] of the foreign parent id, [Suppressed]
    equal to the negation of the foreign sampled flag, and is marked
    [ForeignTrace = true]. *)
Theorem NewSpanContext_from_foreign_parent
    (parent : SpanContext) (w : World) (hi lo span : Z) :
  no_native_ids parent = true →
  IsZero (W3CContext parent) = false →
  disableW3CTraceCorrelation (sensor_options w) = false →
  let foreign := Context_Parent (W3CContext parent) in
  ParseLongID (w3ctrace.TraceID foreign) = Some (hi, lo) →
  ParseID (w3ctrace.ParentID foreign) = Some span →
  ¬ (hi = 0 ∧ lo = 0 ∧ span = 0) →
  let c := (NewSpanContext parent w).1 in
  TraceIDHi c = hi ∧ TraceID c = lo ∧ ParentID c = span ∧
  Suppressed c = negb (w3ctrace.Sampled (PFlags foreign)) ∧
  ForeignTrace c = true.
Proof.
  intros Hz Hnz Hd foreign Ht Hp Hids c.
  pose proof (restore_enabled_parsed _ w hi lo span Hnz Hd Ht Hp) as Hr.
  assert (no_native_ids (restoreFromW3CTraceContext (W3CContext parent) w).1 = false) as Hn.
  { rewrite Hr. apply no_native_ids_false. cbn. exact Hids. }
  destruct (NewSpanContext_restored parent w Hz Hn) as (F1 & F2 & F3 & F4 & F5 & _).
  fold c in F1, F2, F3, F4, F5. rewrite Hr in F1, F2, F3, F4. cbn in F1, F2, F3, F4.
  rewrite Hd in F5. by repeat split.
Qed.

(** When restoration leaves no native identifiers the derivation is a new
    root; the root takes the foreign context that restoration returned, if
    that one is not zero. *)
Lemma NewSpanContext_root_path (parent : SpanContext) (w : World) :
  no_native_ids parent = true →
  let restored := (restoreFromW3CTraceContext (W3CContext parent) w).1 in
  no_native_ids restored = true →
  let root := (NewRootSpanContext w).1 in
  (NewSpanContext parent w).1 =
  if IsZero (W3CContext restored) then root
  else set_W3CContext root (W3CContext restored).
Proof.
  intros Hz restored Hn root. unfold NewSpanContext. rewrite Hz. run_go.
  pose proof (restoreFromW3CTraceContext_world (W3CContext parent) w) as Hw.
  subst restored root.
  destruct (restoreFromW3CTraceContext (W3CContext parent) w) as [r w1].
  cbn in *. subst w1. rewrite Hn. unfold NewRootSpanContext. run_go.
  by destruct (IsZero (W3CContext r)).
Qed.

(** C4, amended.  When the parent has a non-zero native identifier, the
    derived context has [ParentID] equal to the parent's [SpanID], a freshly
    drawn [SpanID], the parent's trace id, [ForeignTrace = false] and no
    link, and it is the same whatever the correlation options are:
    restoration is not consulted.  In particular the child of a new root
    whose drawn identifier is not zero has the root's [SpanID] as [ParentID]
    and the root's [TraceID]. *)
Theorem NewSpanContext_native_parent :
  (∀ (parent : SpanContext) (w : World),
     no_native_ids parent = false →
     let c := (NewSpanContext parent w).1 in
     let w' := (NewSpanContext parent w).2 in
     ParentID c = SpanID parent ∧
     SpanID c = entropy w (drawn w) ∧ drawn w' = S (drawn w) ∧
     TraceIDHi c = TraceIDHi parent ∧ TraceID c = TraceID parent ∧
     ForeignTrace c = false ∧ Links c = [] ∧
     ∀ o : Options, (NewSpanContext parent (set_options w o)).1 = c) ∧
  (∀ w : World,
     entropy w (drawn w) ≠ 0 →
     let root := (NewRootSpanContext w).1 in
     let w1 := (NewRootSpanContext w).2 in
     let c := (NewSpanContext root w1).1 in
     ParentID c = SpanID root ∧ TraceID c = TraceID root ∧
     SpanID c = entropy w (S (drawn w))).
Proof.
  split.
  - intros parent w Hn c w'.
    destruct (NewSpanContext_native parent w Hn) as (F1 & F2 & F3 & F4 & F5 & F6 & F7).
    repeat split; try assumption.
    intros o. subst c. unfold NewSpanContext. rewrite Hn. run_go. rewrite Hn.
    pose proof (Clone_result parent w) as Hc.
    pose proof (Clone_world parent w) as (_ & He & Hd).
    pose proof (Clone_result parent (set_options w o)) as Hc'.
    pose proof (Clone_world parent (set_options w o)) as (_ & He' & Hd').
    destruct (Clone parent w) as [c0 w0].
    destruct (Clone parent (set_options w o)) as [c1 w2].
    cbn in *. subst c0 c1. rewrite He, Hd, He', Hd'. cbn.
    by destruct (IsZero (W3CContext parent)).
  - intros w Hid root w1 c.
    assert (no_native_ids root = false) as Hn.
    { apply no_native_ids_false. subst root. unfold NewRootSpanContext.
      run_go. cbn. tauto. }
    destruct (NewSpanContext_native root w1 Hn) as (F1 & F2 & _ & _ & F5 & _).
    subst c. split; [exact F1|]. split; [exact F5|].
    rewrite F2. subst w1. unfold NewRootSpanContext. run_go. done.
Qed.

(** With correlation disabled restoration always returns the foreign
    context, so a derivation that ends in a new root keeps it. *)
Lemma NewSpanContext_disabled_root_keeps_foreign (parent : SpanContext) (w : World) :
  no_native_ids parent = true →
  IsZero (W3CContext parent) = false →
  disableW3CTraceCorrelation (sensor_options w) = true →
  no_native_ids (restoreFromW3CTraceContext (W3CContext parent) w).1 = true →
  (NewSpanContext parent w).1 =
  set_W3CContext (NewRootSpanContext w).1 (W3CContext parent).
Proof.
  intros Hz Hnz Hd Hn.
  rewrite (NewSpanContext_root_path parent w Hz Hn).
  destruct (restore_disabled_keeps_context (W3CContext parent) w Hnz Hd) as [-> ->].
  by rewrite Hnz.
Qed.

(** With correlation enabled and a foreign parent field that does not
    parse, the derivation is a plain new root: the parent's foreign context
    is not on it. *)
Lemma NewSpanContext_parse_failure_plain_root (parent : SpanContext) (w : World) :
  IsZero zeroContext = true →
  no_native_ids parent = true →
  disableW3CTraceCorrelation (sensor_options w) = false →
  ParseLongID (w3ctrace.TraceID (Context_Parent (W3CContext parent))) = None ∨
  ParseID (w3ctrace.ParentID (Context_Parent (W3CContext parent))) = None →
  (NewSpanContext parent w).1 = (NewRootSpanContext w).1.
Proof.
  intros Hzero Hz Hd Hf.
  pose proof (restore_enabled_parse_failure (W3CContext parent) w Hd Hf) as Hr.
  assert (no_native_ids (restoreFromW3CTraceContext (W3CContext parent) w).1 = true) as Hn
    by by rewrite Hr.
  rewrite (NewSpanContext_root_path parent w Hz Hn), Hr. cbn. by rewrite Hzero.
Qed.

End Facts.

#[local] Existing Instance SpecCodec.codec.
#[local] Existing Instance SpecW3C.ops.

(** C3, as stated, fails on a foreign parent that parses to all-zero
    identifiers: the derivation falls through to a new root, which is not
    marked as a foreign trace and has a fresh trace id. *)
Lemma NewSpanContext_zero_foreign_ids_is_root :
  let parent := Inputs.parent_foreign_zero_ids in
  let foreign := Context_Parent (W3CContext parent) in
  let c := (NewSpanContext parent demo_world).1 in
  no_native_ids parent = true ∧
  IsZero (W3CContext parent) = false ∧
  disableW3CTraceCorrelation (sensor_options demo_world) = false ∧
  ParseLongID (w3ctrace.TraceID foreign) = Some (0, 0) ∧
  ParseID (w3ctrace.ParentID foreign) = Some 0 ∧
  ForeignTrace c = false ∧ TraceID c = 7.
Proof. vm_compute. repeat split. Qed.

(** C4, as stated, fails on its instance, the child of a new root, when
    the root draws the identifier 0: the root then has no native identifier,
    and its child is derived as a new root with a trace id of its own. *)
Lemma NewSpanContext_child_of_zero_root :
  let root := (NewRootSpanContext zero_draw_world).1 in
  let w1 := (NewRootSpanContext zero_draw_world).2 in
  let c := (NewSpanContext root w1).1 in
  TraceID root = 0 ∧ SpanID root = 0 ∧
  TraceID c = 1 ∧ TraceID c ≠ TraceID root.
Proof. vm_compute. repeat split. discriminate. Qed.

(** C2, on the code.  A parent with a non-zero foreign context whose trace
    id does not parse, correlation enabled: restoration returns the empty
    context, and the new root carries a synthesized foreign context in place
    of the parent's. *)
Theorem NewSpanContext_discards_unparsed_foreign_context :
  let parent := Inputs.parent_foreign_garbled in
  let c := (NewSpanContext parent demo_world).1 in
  no_native_ids parent = true ∧
  IsZero (W3CContext parent) = false ∧
  ParseLongID (w3ctrace.TraceID (Context_Parent (W3CContext parent))) = None ∧
  (restoreFromW3CTraceContext (W3CContext parent) demo_world).1 = zeroSpanContext ∧
  c = (NewRootSpanContext demo_world).1 ∧
  W3CContext c =
    {| RawParent := "00-00000000000000000000000000000007-0000000000000007-01";
       RawState := "" |} ∧
  W3CContext c ≠ W3CContext parent.
Proof. vm_compute. repeat split. discriminate. Qed.

Lemma NewSpanContext_from_foreign_parent_witness :
  let parent := Inputs.parent_foreign in
  let c := (NewSpanContext parent demo_world).1 in
  TraceIDHi c = 0 ∧ TraceID c = 26 ∧ ParentID c = 99 ∧
  Suppressed c = false ∧ ForeignTrace c = true.
Proof.
  refine (NewSpanContext_from_foreign_parent
            Inputs.parent_foreign demo_world 0 26 99 _ _ _ _ _ _);
    try reflexivity.
  intros (_ & H & _). discriminate H.
Defined.

Lemma restore_with_correlation_disabled_witness :
  let r := (restoreFromW3CTraceContext Inputs.foreign_ctx demo_world_disabled).1 in
  TraceIDHi r = 0 ∧ TraceID r = 43 ∧ SpanID r = 77.
Proof.
  refine (proj2 (proj2 (proj2 (proj2 (proj2 (proj2
    (restore_with_correlation_disabled Inputs.parent_foreign demo_world_disabled
       _ _ _))))) "2b;4d" 0 43 77 _ _ _ _));
    try reflexivity.
  vm_compute. discriminate.
Defined.

Lemma NewSpanContext_foreign_links_witness :
  Links (NewSpanContext Inputs.parent_foreign demo_world).1 =
  [ {| RefTraceID := "2b"; RefSpanID := "4d" |} ].
Proof.
  refine (proj1 (proj2 (NewSpanContext_foreign_links Inputs.parent_foreign demo_world _))
            "2b;4d" _ _).
  - reflexivity.
  - reflexivity.
  - vm_compute. discriminate.
Defined.

Lemma NewSpanContext_native_parent_witness :
  let c := (NewSpanContext Inputs.parent_native demo_world).1 in
  ParentID c = 99 ∧ SpanID c = 7 ∧ TraceID c = 26 ∧
  ForeignTrace c = false ∧ Links c = [].
Proof.
  destruct (proj1 NewSpanContext_native_parent Inputs.parent_native demo_world)
    as (F1 & F2 & _ & _ & F5 & F6 & F7 & _); [reflexivity|].
  repeat split; assumption.
Defined.

End Derivation.

(** ** Byte strings *)

Module StringFacts.

Lemma app_nil (t : string) : "" +:+ t = t.
Proof. reflexivity. Qed.

Lemma app_cons (c : ascii) (s t : string) : String c s +:+ t = String c (s +:+ t).
Proof. reflexivity. Qed.

Lemma app_length (s t : string) :
  String.length (s +:+ t) = (String.length s + String.length t)%nat.
Proof.
  induction s as [|c s IH]; [by rewrite app_nil|].
  rewrite app_cons. cbn [String.length]. by rewrite IH.
Qed.

Lemma ToLower_app (s t : string) :
  strings.ToLower (s +:+ t) = strings.ToLower s +:+ strings.ToLower t.
Proof.
  induction s as [|c s IH]; [by rewrite app_nil|].
  rewrite app_cons. cbn [strings.ToLower]. by rewrite IH, app_cons.
Qed.

Lemma HasPrefix_app (p s : string) : strings.HasPrefix (p +:+ s) p = true.
Proof.
  unfold strings.HasPrefix. induction p as [|c p IH].
  - by destruct s.
  - rewrite app_cons. cbn [String.prefix].
    destruct (ascii_dec c c); [exact IH|done].
Qed.

Lemma slice_from_app (p s : string) :
  strings.slice_from (p +:+ s) (String.length p) = s.
Proof.
  induction p as [|c p IH]; [by destruct s|].
  rewrite app_cons. cbn [String.length strings.slice_from]. exact IH.
Qed.

Lemma app_inv_head (p s t : string) : p +:+ s = p +:+ t → s = t.
Proof. apply String.app_inj. Qed.

End StringFacts.

(** ** The identifier codec modelled from the spec *)

Module CodecFacts.

Lemma all_hex_of_pos (p : positive) (rest : string) :
  SpecCodec.all_hex (HexString.Raw.of_pos p rest) = SpecCodec.all_hex rest.
Proof.
  revert p rest. fix IH 1. intros p rest.
  do 4 try destruct p as [p|p|]; try reflexivity; cbn; rewrite IH; reflexivity.
Qed.

Lemma of_pos_nonempty (p : positive) (rest : string) :
  HexString.Raw.of_pos p rest ≠ "".
Proof.
  revert p rest. fix IH 1. intros p rest.
  do 4 try destruct p as [p|p|]; try discriminate; cbn; apply IH.
Qed.

(** §8 of the spec: [ParseID (FormatID n) = n] for every 64-bit integer. *)
Lemma ParseID_FormatID (n : Z) :
  is_int64 n → SpecCodec.ParseID (SpecCodec.FormatID n) = Some n.
Proof.
  unfold is_int64. intros Hn.
  unfold SpecCodec.FormatID, SpecCodec.hex.
  assert (0 <= n mod 2 ^ 64 < 2 ^ 64)%Z as Hu by (apply Z.mod_pos_bound; lia).
  destruct (Z.to_N (n mod 2 ^ 64)) as [|p] eqn:Hp.
  - assert ((n mod 2 ^ 64) = 0)%Z as Hz by lia.
    assert (n = 0)%Z as ->.
    { destruct (Z.le_gt_cases 0 n).
      - rewrite Z.mod_small in Hz by lia. done.
      - rewrite <- (Z.mod_add n 1) in Hz by lia. rewrite Z.mod_small in Hz by lia. lia. }
    reflexivity.
  - unfold SpecCodec.ParseID.
    pose proof (of_pos_nonempty p "") as Hne.
    destruct (HexString.Raw.of_pos p "") as [|c s] eqn:Hs; [done|].
    rewrite <- Hs, all_hex_of_pos. cbn [SpecCodec.all_hex].
    rewrite (HexString.Raw.to_N_of_pos p "" 0). cbn [HexString.Raw.to_N].
    assert (Z.of_N (N.pos p) = n mod 2 ^ 64)%Z as -> by lia.
    destruct (Z.ltb_spec (n mod 2 ^ 64) (2 ^ 64)); [|lia].
    f_equal. unfold SpecCodec.to_int64.
    destruct (Z.le_gt_cases 0 n).
    + rewrite Z.mod_small by lia. destruct (Z.ltb_spec n (2 ^ 63)); lia.
    + rewrite <- (Z.mod_add n 1) by lia. rewrite Z.mod_small by lia.
      destruct (Z.ltb_spec (n + 1 * 2 ^ 64) (2 ^ 63)); lia.
Qed.

End CodecFacts.

(** ** Header propagation *)

Module Codec.
Import w3ctrace Propagation.

Section Facts.
Context `{!IDCodec, !Ops}.

Lemma ForeachKey_cons {S : Type} (k v : string) (rest : list (string * string))
    (handler : S → string → string → S * option error) (s : S) :
  ForeachKey ((k, v) :: rest) handler s =
  match handler s k v with
  | (s', Some err) => (s', Some err)
  | (s', None) => ForeachKey rest handler s'
  end.
Proof. reflexivity. Qed.

(** The handler of [extractTraceContext] on one pair. *)
Lemma extract_handler_count (sc : SpanContext) (n : Z) (k v : string) :
  let r := extract_handler (sc, n) k v in
  r.1.2 = (n + if is_native_field k then 1 else 0)%Z ∧
  (r.2 = None ∨ r.2 = Some ErrSpanContextCorrupted) ∧
  (r.2 = Some ErrSpanContextCorrupted ↔ is_native_field k = true ∧ ParseID v = None).
Proof.
  unfold extract_handler, is_native_field, is_trace_field, is_span_field. cbn.
  repeat case_bool_decide; cbn;
    try (destruct (ParseID v); cbn);
    try (destruct (strings.HasPrefix _ _); cbn);
    (split; [lia|]); (split; [tauto|]); split; intros; try tauto; try done;
    try (destruct_and?; discriminate).
Qed.

(** When every value under a trace or span key parses, the scan ends
    without error and has counted every such pair. *)
Lemma ForeachKey_extract_ok (pairs : list (string * string)) (sc : SpanContext) (n : Z) :
  (∀ k v, (k, v) ∈ pairs → is_native_field k = true → is_Some (ParseID v)) →
  ∃ sc', ForeachKey pairs extract_handler (sc, n)
         = ((sc', (n + Z.of_nat (native_count pairs))%Z), None).
Proof.
  revert sc n. induction pairs as [|[k v] rest IH]; intros sc n Hok.
  - exists sc. cbn. do 2 f_equal. unfold native_count. cbn. lia.
  - rewrite ForeachKey_cons. pose proof (extract_handler_count sc n k v) as (Hc & Hcases & Hbad).
    destruct (extract_handler (sc, n) k v) as [[sc1 n1] [e|]] eqn:Hh; cbn in *.
    + exfalso. destruct Hcases as [|He]; [done|]. apply Hbad in He as [Hk Hv].
      destruct (Hok k v) as [x Hx]; [left|done|congruence].
    + destruct (IH sc1 n1) as [sc' Hsc'].
      { intros k' v' Hin. apply Hok. by right. }
      exists sc'. rewrite Hsc'. do 2 f_equal. subst n1.
      unfold native_count. cbn. destruct (is_native_field k); cbn; lia.
Qed.

(** When some value under a trace or span key does not parse, the scan
    ends with [ErrSpanContextCorrupted]. *)
Lemma ForeachKey_extract_bad (pairs : list (string * string)) (sc : SpanContext) (n : Z) :
  (∃ k v, (k, v) ∈ pairs ∧ is_native_field k = true ∧ ParseID v = None) →
  (ForeachKey pairs extract_handler (sc, n)).2 = Some ErrSpanContextCorrupted.
Proof.
  revert sc n. induction pairs as [|[k v] rest IH]; intros sc n (k0 & v0 & Hin & Hk & Hv).
  - by apply elem_of_nil in Hin.
  - rewrite ForeachKey_cons.
    pose proof (extract_handler_count sc n k v) as (_ & Hcases & Hbad).
    destruct (extract_handler (sc, n) k v) as [[sc1 n1] [e|]] eqn:Hh; cbn in *.
    + destruct Hcases as [|He]; [done|]. done.
    + apply elem_of_cons in Hin as [[= -> ->]|Hin].
      * exfalso. assert (@None error = Some ErrSpanContextCorrupted) by (apply Hbad; done).
        done.
      * apply IH. eauto.
Qed.

(** What [extractTraceContext] returns, by the number of delivered pairs
    whose key is the trace or the span field. *)
Lemma extractTraceContext_outcomes (pairs : list (string * string)) (carrier : Carrier) :
  carrier ≠ OpaqueCarrier →
  let err := (extractTraceContext pairs carrier).2 in
  ((∃ k v, (k, v) ∈ pairs ∧ is_native_field k = true ∧ ParseID v = None) →
   err = Some ErrSpanContextCorrupted) ∧
  ((∀ k v, (k, v) ∈ pairs → is_native_field k = true → is_Some (ParseID v)) →
   (native_count pairs = 0%nat → err = Some ErrSpanContextNotFound) ∧
   (native_count pairs = 1%nat → err = Some ErrSpanContextCorrupted) ∧
   ((2 ≤ native_count pairs)%nat → err = None)).
Proof.
  intros Hc err. subst err. unfold extractTraceContext.
  set (sc0 := {| TraceID := 0; SpanID := 0; Suppressed := false;
                 Baggage := Some ∅; ForeignParent := None |}).
  split.
  - intros Hbad. pose proof (ForeachKey_extract_bad pairs sc0 0 Hbad) as He.
    destruct (ForeachKey pairs extract_handler (sc0, 0)) as [[sc1 n1] e].
    cbn in He. subst e. by destruct carrier.
  - intros Hok. destruct (ForeachKey_extract_ok pairs sc0 0 Hok) as [sc' ->].
    destruct carrier as [m|h|]; [| |done]; cbn.
    + repeat split; intros Hn.
      * by rewrite Hn.
      * by rewrite Hn.
      * rewrite Z.add_0_l.
        destruct (Z.eqb_spec (Z.of_nat (native_count pairs)) 0); [lia|].
        destruct (Z.ltb_spec (Z.of_nat (native_count pairs)) 2); [lia|]. done.
    + repeat split; intros Hn.
      * by rewrite Hn.
      * by rewrite Hn.
      * rewrite Z.add_0_l.
        destruct (Z.eqb_spec (Z.of_nat (native_count pairs)) 0); [lia|].
        destruct (Z.ltb_spec (Z.of_nat (native_count pairs)) 2); [lia|].
        by destruct (Extract h).
Qed.

Lemma existsb_filter_length {A : Type} (f : A → bool) (l : list A) :
  existsb f l = (0 <? length (List.filter f l))%nat.
Proof.
  induction l as [|x l IH]; [done|]. cbn [existsb List.filter].
  destruct (f x); [done|]. exact IH.
Qed.

(** When neither field is delivered more than once, the count of the scan
    is the number of fields found, and the outcomes above are those by the
    number of fields found. *)
Lemma native_count_without_repeats (pairs : list (string * string)) :
  (length (List.filter (λ kv, is_trace_field kv.1) pairs) ≤ 1)%nat →
  (length (List.filter (λ kv, is_span_field kv.1) pairs) ≤ 1)%nat →
  native_count pairs = fields_found pairs.
Proof.
  unfold native_count, fields_found, is_native_field.
  rewrite !existsb_filter_length.
  induction pairs as [|[k v] rest IH]; intros Ht Hs; [done|].
  cbn [List.filter fst length] in *.
  destruct (is_trace_field k) eqn:Ek.
  - assert (is_span_field k = false) as Es.
    { unfold is_trace_field, is_span_field in *.
      apply bool_decide_eq_true in Ek. by rewrite Ek. }
    rewrite Es in *. cbn [orb length] in *.
    rewrite IH by lia.
    destruct (List.filter (λ kv : string * string, is_trace_field kv.1) rest);
      [done|cbn in Ht; lia].
  - destruct (is_span_field k) eqn:Es; cbn [orb length] in *; [|by apply IH].
    rewrite IH by lia.
    destruct (List.filter (λ kv : string * string, is_span_field kv.1) rest);
      [cbn; lia|cbn in Hs; lia].
Qed.

(** *** Round trip through a text map *)

(** The four kinds of keys exclude each other. *)
Lemma trace_field_excl (k : string) :
  is_trace_field k = true →
  is_span_field k = false ∧ is_level_field k = false ∧ is_baggage_field k = false.
Proof.
  unfold is_trace_field, is_span_field, is_level_field, is_baggage_field.
  intros Hk%bool_decide_eq_true. by rewrite Hk.
Qed.

Lemma span_field_excl (k : string) :
  is_span_field k = true →
  is_trace_field k = false ∧ is_level_field k = false ∧ is_baggage_field k = false.
Proof.
  unfold is_trace_field, is_span_field, is_level_field, is_baggage_field.
  intros Hk%bool_decide_eq_true. by rewrite Hk.
Qed.

Lemma level_field_excl (k : string) :
  is_level_field k = true →
  is_trace_field k = false ∧ is_span_field k = false ∧ is_baggage_field k = false.
Proof.
  unfold is_trace_field, is_span_field, is_level_field, is_baggage_field.
  intros Hk%bool_decide_eq_true. by rewrite Hk.
Qed.

(** A baggage header made by injection is a baggage field, and stripping
    the prefix gives the baggage key back. *)
Lemma baggage_header_field (k0 : string) :
  is_baggage_field (FieldB +:+ k0) = true ∧
  is_trace_field (FieldB +:+ k0) = false ∧
  is_span_field (FieldB +:+ k0) = false ∧
  is_level_field (FieldB +:+ k0) = false ∧
  strings.slice_from (FieldB +:+ k0) (String.length FieldB) = k0.
Proof.
  assert (is_baggage_field (FieldB +:+ k0) = true) as Hb.
  { unfold is_baggage_field. rewrite StringFacts.ToLower_app.
    apply StringFacts.HasPrefix_app. }
  split; [done|].
  destruct (is_trace_field (FieldB +:+ k0)) eqn:Ht.
  { apply trace_field_excl in Ht as (_ & _ & Ht). congruence. }
  destruct (is_span_field (FieldB +:+ k0)) eqn:Hs.
  { apply span_field_excl in Hs as (_ & _ & Hs). congruence. }
  destruct (is_level_field (FieldB +:+ k0)) eqn:Hl.
  { apply level_field_excl in Hl as (_ & _ & Hl). congruence. }
  repeat split. apply StringFacts.slice_from_app.
Qed.

(** On a carrier without Instana headers the scan of [injectTraceContext]
    keeps the canonical names. *)
Lemma inject_scan_clean (pairs : list (string * string)) (e : Existing) :
  (∀ k v, (k, v) ∈ pairs → is_instana_field k = false) →
  ForeachKey pairs inject_handler e = (e, None).
Proof.
  induction pairs as [|[k v] rest IH]; intros Hclean; [done|].
  rewrite ForeachKey_cons.
  assert (is_instana_field k = false) as Hk by (apply (Hclean k v); left).
  unfold is_instana_field, is_trace_field, is_span_field, is_level_field,
    is_baggage_field in Hk.
  apply orb_false_iff in Hk as [Hk Hb]. apply orb_false_iff in Hk as [Hk Hl].
  apply orb_false_iff in Hk as [Ht Hs].
  unfold inject_handler. rewrite Ht, Hs, Hl, Hb.
  apply IH. intros k' v' Hin. apply (Hclean k' v'). by right.
Qed.

(** The baggage loop on a text map. *)
Lemma baggage_loop_text (pre : string) (order : list (string * string))
    (m : gmap string string) :
  foldl (λ c kv, Carrier_Set c (pre +:+ kv.1) kv.2) (TextMapCarrier m) order =
  TextMapCarrier (foldl (λ m kv, <[pre +:+ kv.1 := kv.2]> m) m order).
Proof. revert m. induction order as [|kv rest IH]; intros m; cbn; [done|]. apply IH. Qed.

(** The entries of a text map after the baggage loop. *)
Lemma baggage_loop_other (order : list (string * string)) (base : gmap string string)
    (key : string) :
  (∀ k0 v, (k0, v) ∈ order → key ≠ FieldB +:+ k0) →
  foldl (λ m kv, <[FieldB +:+ kv.1 := kv.2]> m) base order !! key = base !! key.
Proof.
  revert base. induction order as [|[k v] rest IH]; intros base Hne; cbn; [done|].
  rewrite IH.
  - apply lookup_insert_ne. intros E. apply (Hne k v); [left|done].
  - intros k0 v0 Hin. apply (Hne k0 v0). by right.
Qed.

Lemma baggage_loop_origin (order : list (string * string)) (base : gmap string string)
    (key v : string) :
  foldl (λ m kv, <[FieldB +:+ kv.1 := kv.2]> m) base order !! key = Some v →
  (∃ k0, key = FieldB +:+ k0 ∧ (k0, v) ∈ order) ∨ base !! key = Some v.
Proof.
  revert base. induction order as [|[k w] rest IH]; intros base Hl; cbn in Hl; [by right|].
  apply IH in Hl as [(k0 & -> & Hin)|Hl].
  - left. exists k0. split; [done|by right].
  - cbn in Hl. destruct (decide (FieldB +:+ k = key)) as [<-|Hne].
    + rewrite lookup_insert_eq in Hl. injection Hl as ->.
      left. exists k. split; [done|left].
    + rewrite lookup_insert_ne in Hl by done. by right.
Qed.

Lemma baggage_loop_stored (order : list (string * string)) (base : gmap string string)
    (k0 v : string) :
  NoDup (order.*1) → (k0, v) ∈ order →
  foldl (λ m kv, <[FieldB +:+ kv.1 := kv.2]> m) base order !! (FieldB +:+ k0) = Some v.
Proof.
  revert base. induction order as [|[k w] rest IH]; intros base Hnd Hin.
  - by apply elem_of_nil in Hin.
  - cbn in Hnd. apply NoDup_cons in Hnd as [Hk Hnd]. cbn.
    apply elem_of_cons in Hin as [[= -> ->]|Hin].
    + rewrite baggage_loop_other.
      * apply lookup_insert_eq.
      * intros k1 v1 Hin1 E. apply StringFacts.app_inv_head in E as ->.
        apply Hk. apply list_elem_of_fmap. by exists (k1, v1).
    + by apply IH.
Qed.

Lemma scan_result_eq (a a' : SpanContext) (b b' : Z) :
  a = a' → b = b' → (a, b, @None error) = (a', b', None).
Proof. by intros -> ->. Qed.

Lemma store_baggage_entry_skip (b : gmap string string) (k v : string)
    (rest : list (string * string)) :
  is_baggage_field k = false →
  foldl store_baggage_entry b ((k, v) :: rest) = foldl store_baggage_entry b rest.
Proof.
  intros Hk. cbn [foldl]. f_equal. unfold store_baggage_entry. cbn [fst]. by rewrite Hk.
Qed.

Lemma store_baggage_entry_keep (b : gmap string string) (k v : string)
    (rest : list (string * string)) :
  is_baggage_field k = true →
  foldl store_baggage_entry b ((k, v) :: rest) =
  foldl store_baggage_entry (<[strings.slice_from k (String.length FieldB) := v]> b) rest.
Proof.
  intros Hk. cbn [foldl]. f_equal. unfold store_baggage_entry. cbn [fst snd].
  by rewrite Hk.
Qed.

(** The scan of [extractTraceContext] in closed form, when all trace
    headers carry one parseable value, all span headers one parseable value
    and all level headers one level. *)
Lemma extract_scan (pairs : list (string * string)) (sc : SpanContext) (n : Z)
    (t sp : Z) (lvl : bool) :
  (∀ k v, (k, v) ∈ pairs → is_trace_field k = true → ParseID v = Some t) →
  (∀ k v, (k, v) ∈ pairs → is_span_field k = true → ParseID v = Some sp) →
  (∀ k v, (k, v) ∈ pairs → is_level_field k = true → parseLevel v = lvl) →
  ForeachKey pairs extract_handler (sc, n) =
  (({| TraceID := if existsb (λ kv, is_trace_field kv.1) pairs then t else TraceID sc;
       SpanID := if existsb (λ kv, is_span_field kv.1) pairs then sp else SpanID sc;
       Suppressed := if existsb (λ kv, is_level_field kv.1) pairs then lvl
                     else Suppressed sc;
       Baggage := (λ b, foldl store_baggage_entry b pairs) <$> Baggage sc;
       ForeignParent := ForeignParent sc |},
    (n + Z.of_nat (native_count pairs))%Z), None).
Proof.
  revert sc n. induction pairs as [|[k v] rest IH]; intros sc n Ht Hs Hl.
  - cbn. destruct sc as [? ? ? [b|] ?]; cbn; do 2 f_equal; unfold native_count; cbn; lia.
  - rewrite ForeachKey_cons.
    pose proof (λ sc1 n1, IH sc1 n1
      (λ k' v' Hin, Ht k' v' (list_elem_of_further _ _ _ Hin))
      (λ k' v' Hin, Hs k' v' (list_elem_of_further _ _ _ Hin))
      (λ k' v' Hin, Hl k' v' (list_elem_of_further _ _ _ Hin))) as IH'.
    clear IH.
    unfold native_count, is_native_field. cbn [List.filter existsb fst length].
    unfold extract_handler.
    fold (is_trace_field k) (is_span_field k) (is_level_field k) (is_baggage_field k).
    destruct sc as [tid sid sup bag fp].
    destruct (is_trace_field k) eqn:Ek.
    { destruct (trace_field_excl k Ek) as (Es & El & Eb).
      rewrite (Ht k v) by (done || left). rewrite IH', Es, El.
      cbn [set_TraceID TraceID SpanID Suppressed Baggage ForeignParent orb length].
      unfold native_count, is_native_field.
      apply scan_result_eq; [|lia]. f_equal;
        try (match goal with |- context [existsb ?f rest] => by destruct (existsb f rest) end).
      destruct bag; cbn [fmap option_fmap option_map]; [|done].
      by rewrite store_baggage_entry_skip. }
    destruct (is_span_field k) eqn:Ek2.
    { destruct (span_field_excl k Ek2) as (_ & El & Eb).
      rewrite (Hs k v) by (done || left). rewrite IH', El.
      cbn [set_SpanID TraceID SpanID Suppressed Baggage ForeignParent orb length].
      unfold native_count, is_native_field.
      apply scan_result_eq; [|lia]. f_equal;
        try (match goal with |- context [existsb ?f rest] => by destruct (existsb f rest) end).
      destruct bag; cbn [fmap option_fmap option_map]; [|done].
      by rewrite store_baggage_entry_skip. }
    destruct (is_level_field k) eqn:Ek3.
    { destruct (level_field_excl k Ek3) as (_ & _ & Eb).
      rewrite IH'. rewrite (Hl k v) by (done || left).
      cbn [set_Suppressed TraceID SpanID Suppressed Baggage ForeignParent orb length].
      unfold native_count, is_native_field.
      apply scan_result_eq; [|lia]. f_equal;
        try (match goal with |- context [existsb ?f rest] => by destruct (existsb f rest) end).
      destruct bag; cbn [fmap option_fmap option_map]; [|done].
      by rewrite store_baggage_entry_skip. }
    destruct (is_baggage_field k) eqn:Ek4.
    { rewrite IH'.
      cbn [store_Baggage TraceID SpanID Suppressed Baggage ForeignParent orb length].
      unfold native_count, is_native_field.
      apply scan_result_eq; [|lia]. f_equal.
      destruct bag; cbn [fmap option_fmap option_map]; [|done].
      by rewrite store_baggage_entry_keep. }
    rewrite IH'.
    cbn [TraceID SpanID Suppressed Baggage ForeignParent orb length].
    unfold native_count, is_native_field.
    apply scan_result_eq; [|lia]. f_equal.
    destruct bag; cbn [fmap option_fmap option_map]; [|done].
      by rewrite store_baggage_entry_skip.
Qed.

(** The baggage map the scan builds: where an entry comes from, and that
    the entry of a baggage header is there when header names are distinct. *)
Lemma extracted_baggage_origin (pairs : list (string * string))
    (b : gmap string string) (k0 v : string) :
  foldl store_baggage_entry b pairs !! k0 = Some v →
  (∃ k, (k, v) ∈ pairs ∧ is_baggage_field k = true ∧
        strings.slice_from k (String.length FieldB) = k0) ∨
  b !! k0 = Some v.
Proof.
  revert b. induction pairs as [|[k w] rest IH]; intros b Hl; [by right|].
  cbn [foldl] in Hl. apply IH in Hl as [(k' & Hin & Hb & Hs)|Hl].
  - left. exists k'. split; [by right|done].
  - unfold store_baggage_entry in Hl. cbn [fst snd] in Hl.
    destruct (is_baggage_field k) eqn:Hk; [|by right].
    destruct (decide (strings.slice_from k (String.length FieldB) = k0)) as [E|Hne].
    + rewrite E, lookup_insert_eq in Hl. injection Hl as ->.
      left. exists k. split; [left|done].
    + rewrite lookup_insert_ne in Hl by done. by right.
Qed.

Lemma extracted_baggage_other (pairs : list (string * string))
    (b : gmap string string) (k0 : string) :
  (∀ k v, (k, v) ∈ pairs → is_baggage_field k = true →
          strings.slice_from k (String.length FieldB) ≠ k0) →
  foldl store_baggage_entry b pairs !! k0 = b !! k0.
Proof.
  revert b. induction pairs as [|[k w] rest IH]; intros b Hne; [done|].
  cbn [foldl]. rewrite IH.
  - unfold store_baggage_entry. cbn [fst snd].
    destruct (is_baggage_field k) eqn:Hk; [|done].
    apply lookup_insert_ne. apply (Hne k w); [left|done].
  - intros k' v' Hin. apply (Hne k' v'). by right.
Qed.

Lemma extracted_baggage_stored (pairs : list (string * string))
    (b : gmap string string) (k0 v : string) :
  NoDup (pairs.*1) →
  (∀ k w, (k, w) ∈ pairs → is_baggage_field k = true →
          k = FieldB +:+ strings.slice_from k (String.length FieldB)) →
  (FieldB +:+ k0, v) ∈ pairs →
  foldl store_baggage_entry b pairs !! k0 = Some v.
Proof.
  revert b. induction pairs as [|[k w] rest IH]; intros b Hnd Hwf Hin.
  - by apply elem_of_nil in Hin.
  - cbn in Hnd. apply NoDup_cons in Hnd as [Hk Hnd]. cbn [foldl].
    apply elem_of_cons in Hin as [[= <- <-]|Hin].
    + destruct (baggage_header_field k0) as (Hb & _ & _ & _ & Hs).
      rewrite extracted_baggage_other.
      * unfold store_baggage_entry. cbn [fst snd]. rewrite Hb, Hs.
        apply lookup_insert_eq.
      * intros k' v' Hin' Hb' E. apply Hk.
        apply list_elem_of_fmap. exists (k', v'). split; [|done]. cbn.
        rewrite (Hwf k' v') by (done || by right). by rewrite E.
    + apply IH; [done| |done]. intros k' w' Hin'. apply (Hwf k' w'). by right.
Qed.

(** Two delivered pairs with different native keys are both counted. *)
Lemma native_count_member (pairs : list (string * string)) (k v : string) :
  (k, v) ∈ pairs → is_native_field k = true → (1 ≤ native_count pairs)%nat.
Proof.
  induction pairs as [|[k' v'] rest IH]; intros Hin Hk.
  - by apply elem_of_nil in Hin.
  - unfold native_count in *. cbn [List.filter fst].
    apply elem_of_cons in Hin as [[= <- <-]|Hin].
    + rewrite Hk. cbn. lia.
    + specialize (IH Hin Hk). destruct (is_native_field k'); cbn; lia.
Qed.

Lemma native_count_two (pairs : list (string * string)) (k1 v1 k2 v2 : string) :
  (k1, v1) ∈ pairs → (k2, v2) ∈ pairs → k1 ≠ k2 →
  is_native_field k1 = true → is_native_field k2 = true →
  (2 ≤ native_count pairs)%nat.
Proof.
  induction pairs as [|[k' v'] rest IH]; intros Hin1 Hin2 Hne Hk1 Hk2.
  - by apply elem_of_nil in Hin1.
  - apply elem_of_cons in Hin1 as [[= <- <-]|Hin1];
      apply elem_of_cons in Hin2 as [[= <- <-]|Hin2]; try done.
    + pose proof (native_count_member rest k2 v2 Hin2 Hk2).
      unfold native_count in *. cbn [List.filter fst]. rewrite Hk1. cbn. lia.
    + pose proof (native_count_member rest k1 v1 Hin1 Hk1).
      unfold native_count in *. cbn [List.filter fst]. rewrite Hk2. cbn. lia.
    + specialize (IH Hin1 Hin2 Hne Hk1 Hk2).
      unfold native_count in *. cbn [List.filter fst].
      destruct (is_native_field k'); cbn; lia.
Qed.

(** The native headers written by injection are found again after the
    baggage loop. *)
Lemma baggage_loop_native (order : list (string * string)) (base : gmap string string)
    (key : string) :
  is_baggage_field key = false →
  foldl (λ m kv, <[FieldB +:+ kv.1 := kv.2]> m) base order !! key = base !! key.
Proof.
  intros Hk. apply baggage_loop_other. intros k0 v _ ->.
  destruct (baggage_header_field k0) as (Hb & _). congruence.
Qed.

End Facts.

#[local] Existing Instance SpecCodec.codec.
#[local] Existing Instance SpecW3C.ops.

(** C7, as stated, fails.  On a text map that already holds a baggage
    header, injecting a context without baggage and extracting again yields
    a context with that stale entry as baggage.  And through an empty header
    map the baggage key [user] comes back as [User], the canonical form the
    header map stores it under. *)
Lemma inject_extract_baggage_differs :
  (let sc := Inputs.sc_plain in
   let carrier := TextMapCarrier Inputs.stale_text_map in
   let pairs := [("x-instana-b-old", "v")] in
   visits carrier pairs ∧
   ∃ m' sc',
     injectTraceContext pairs [] sc carrier = (TextMapCarrier m', None) ∧
     visits (TextMapCarrier m') (map_to_list m') ∧
     extractTraceContext (map_to_list m') (TextMapCarrier m') = (sc', None) ∧
     baggage_items sc = ∅ ∧
     baggage_items sc' = {[ "old" := "v" ]}) ∧
  (let sc := Inputs.sc_baggage in
   let carrier := HTTPHeadersCarrier ∅ in
   visits carrier [] ∧
   ∃ h sc',
     injectTraceContext [] [("user", "alice")] sc carrier = (HTTPHeadersCarrier h, None) ∧
     visits (HTTPHeadersCarrier h) (header_pairs (map_to_list h)) ∧
     extractTraceContext (header_pairs (map_to_list h)) (HTTPHeadersCarrier h)
       = (sc', None) ∧
     baggage_items sc = {[ "user" := "alice" ]} ∧
     baggage_items sc' = {[ "User" := "alice" ]}).
Proof.
  split.
  - split.
    { cbn. unfold Inputs.stale_text_map. by rewrite map_to_list_singleton. }
    eexists _, _. split; [vm_compute; reflexivity|].
    split; [cbn [visits]; reflexivity|].
    split; [vm_compute; reflexivity|]. split; by vm_compute.
  - split.
    { exists []. split; [|done]. by rewrite map_to_list_empty. }
    eexists _, _. split; [vm_compute; reflexivity|].
    split; [eexists; split; reflexivity|].
    split; [vm_compute; reflexivity|]. split; by vm_compute.
Qed.

(** C7, as stated, fails as well on a text map that holds the trace id
    under two spellings of the header name: injection overwrites the one it
    saw last, and extraction reads the other one when it is delivered
    last. *)
Lemma inject_extract_two_spellings :
  let sc := Inputs.sc_plain in
  let carrier := TextMapCarrier Inputs.two_spellings_text_map in
  let pairs := [("X-Instana-T", "ee"); ("x-instana-t", "ff")] in
  visits carrier pairs ∧
  ∃ m' sc',
    injectTraceContext pairs [] sc carrier = (TextMapCarrier m', None) ∧
    visits (TextMapCarrier m') (map_to_list m') ∧
    extractTraceContext (map_to_list m') (TextMapCarrier m') = (sc', None) ∧
    TraceID sc = 26 ∧ TraceID sc' = 238.
Proof.
  cbn zeta. split.
  { cbn [visits].
    assert (map_to_list Inputs.two_spellings_text_map
            = [("x-instana-t", "ff"); ("X-Instana-T", "ee")]) as -> by by vm_compute.
    apply perm_swap. }
  eexists _, _. split; [vm_compute; reflexivity|].
  split; [cbn [visits]; reflexivity|].
  split; [vm_compute; reflexivity|]. split; by vm_compute.
Qed.

(** Canonicalisation keeps the length of a header name. *)
Lemma canonicalize_length (upper : bool) (s : string) :
  String.length (http.canonicalize upper s) = String.length s.
Proof.
  revert upper. induction s as [|c s IH]; intros upper; cbn; [done|].
  by rewrite IH.
Qed.

Lemma CanonicalMIMEHeaderKey_length (s : string) :
  String.length (http.CanonicalMIMEHeaderKey s) = String.length s.
Proof.
  unfold http.CanonicalMIMEHeaderKey.
  destruct (http.all_valid s); [apply canonicalize_length|done].
Qed.

(** The baggage loop on a header map. *)
Lemma baggage_loop_http (pre : string) (order : list (string * string)) (h : http.Header) :
  foldl (λ c kv, Carrier_Set c (pre +:+ kv.1) kv.2) (HTTPHeadersCarrier h) order =
  HTTPHeadersCarrier (foldl (λ h kv, http.Set_ h (pre +:+ kv.1) kv.2) h order).
Proof. revert h. induction order as [|kv rest IH]; intros h; cbn; [done|]. apply IH. Qed.

(** Baggage headers are longer than the native and the foreign header
    names, so the baggage loop leaves those alone. *)
Lemma baggage_loop_short_key (order : list (string * string)) (h : http.Header)
    (key : string) :
  (String.length key < String.length FieldB)%nat →
  foldl (λ h kv, http.Set_ h (FieldB +:+ kv.1) kv.2) h order !! key = h !! key.
Proof.
  intros Hlen. revert h. induction order as [|kv rest IH]; intros h; cbn; [done|].
  rewrite IH. unfold http.Set_. apply lookup_insert_ne.
  intros E. rewrite <- E, CanonicalMIMEHeaderKey_length, StringFacts.app_length in Hlen. lia.
Qed.

Lemma formatParent_nonempty (p : Parent) : SpecW3C.formatParent p ≠ "".
Proof.
  unfold SpecW3C.formatParent.
  destruct (strings.pad0 2 (SpecCodec.hex (Version p))); cbn; discriminate.
Qed.

(** The five headers of an injection into an empty header map. *)
Lemma injected_headers_lookup (t sp lvl state parent : string) :
  let h : http.Header :=
    <["X-Instana-L" := [lvl]]>
      (<["X-Instana-S" := [sp]]>
         (<["X-Instana-T" := [t]]>
            (<["Tracestate" := [state]]> (<["Traceparent" := [parent]]> ∅)))) in
  h !! "X-Instana-T" = Some [t] ∧ h !! "X-Instana-S" = Some [sp] ∧
  h !! "X-Instana-L" = Some [lvl] ∧ h !! "Traceparent" = Some [parent] ∧
  h !! "Tracestate" = Some [state].
Proof. vm_compute. repeat split. Qed.

(** C8.  Injecting a context with [TraceID = 26], [SpanID = 99] and
    [Suppressed = false] (any baggage [bag], any foreign parent [fp]) into an
    empty header map sets [x-instana-t] to [1a], [x-instana-s] to [63] and
    [x-instana-l] to [1], and writes non-empty [traceparent] and
    [tracestate] headers; [tracestate] is the context's vendor state with
    the entry [in=1a;63] upserted: it is the printed list made of that one
    entry followed by the entries of the context's state under the other
    vendor keys, in their order, so that no earlier [in] entry is left.
    Without a foreign parent the two headers are the synthesized ones. *)
Theorem inject_into_empty_headers
    (bag : option (gmap string string)) (fp : option Context)
    (order : list (string * string)) :
  let sc := {| TraceID := 26; SpanID := 99; Suppressed := false;
               Baggage := bag; ForeignParent := fp |} in
  let st := match fp with
            | Some c => SpecW3C.parseState (RawState c)
            | None => []
            end in
  let others := List.filter (λ e : string * string, negb (bool_decide (e.1 = "in"))) in
  ∃ h,
    injectTraceContext [] order sc (HTTPHeadersCarrier ∅) = (HTTPHeadersCarrier h, None) ∧
    http.Get h "x-instana-t" = "1a" ∧
    http.Get h "x-instana-s" = "63" ∧
    http.Get h "x-instana-l" = "1" ∧
    http.Get h "traceparent" ≠ "" ∧
    http.Get h "tracestate" ≠ "" ∧
    http.Get h "tracestate" = SpecW3C.formatState (("in", "1a;63") :: others st) ∧
    String.prefix "in=1a;63" (http.Get h "tracestate") = true ∧
    (fp = None →
     http.Get h "traceparent"
     = "00-0000000000000000000000000000001a-0000000000000063-01" ∧
     http.Get h "tracestate" = "in=1a;63").
Proof.
  intros sc st others.
  set (trCtx := match fp with
                | Some c => c
                | None => New {| Version := Version_Max; w3ctrace.TraceID := "1a";
                                 ParentID := "63";
                                 PFlags := {| Sampled := true |} |}
                end).
  assert (SpecW3C.parseState (RawState trCtx) = st) as Hst.
  { subst trCtx st. by destruct fp. }
  eexists.
  split.
  { unfold injectTraceContext.
    cbn [ForeachKey fst exstfieldT exstfieldS exstfieldL exstfieldB Carrier_Set].
    rewrite baggage_loop_http. reflexivity. }
  unfold http.Get.
  rewrite !baggage_loop_short_key by (vm_compute; lia).
  unfold addW3CTraceContext, Carrier_Set. cbn [TraceID SpanID Suppressed ForeignParent sc].
  change (FormatID 26) with "1a". change (FormatID 99) with "63".
  change (negb false) with true. fold trCtx.
  cbn [Inject SpecW3C.ops SpecW3C.Inject Context_State State_Add State_String
       Parent_String Context_Parent VendorInstana with_RawState with_RawParent
       RawParent RawState].
  rewrite !delete_empty, map_filter_empty. rewrite Hst.
  assert (fp = None →
          trCtx = SpecW3C.New {| Version := 0; w3ctrace.TraceID := "1a";
                                 ParentID := "63"; PFlags := {| Sampled := true |} |} ∧
          st = []) as Hnone.
  { intros ->. by subst trCtx st. }
  clearbody st trCtx.
  unfold SpecW3C.Inject, http.Set_, formatLevel. cbn [Suppressed sc].
  rewrite map_filter_empty. cbn [RawParent RawState with_RawState with_RawParent].
  change (http.CanonicalMIMEHeaderKey FieldT) with "X-Instana-T".
  change (http.CanonicalMIMEHeaderKey FieldS) with "X-Instana-S".
  change (http.CanonicalMIMEHeaderKey FieldL) with "X-Instana-L".
  change (http.CanonicalMIMEHeaderKey "x-instana-t") with "X-Instana-T".
  change (http.CanonicalMIMEHeaderKey "x-instana-s") with "X-Instana-S".
  change (http.CanonicalMIMEHeaderKey "x-instana-l") with "X-Instana-L".
  change (http.CanonicalMIMEHeaderKey "traceparent") with "Traceparent".
  change (http.CanonicalMIMEHeaderKey "tracestate") with "Tracestate".
  change ("1a" +:+ ";" +:+ "63") with "1a;63".
  match goal with
  | |- context [ <["Tracestate" := [?x]]> (<["Traceparent" := [?y]]> ∅) ] =>
      destruct (injected_headers_lookup "1a" "63" "1" x y) as (-> & -> & -> & -> & ->)
  end.
  assert (String.prefix "in=1a;63"
            (SpecW3C.formatState (SpecW3C.Add st "in" "1a;63")) = true) as Hpre.
  { unfold SpecW3C.Add, SpecW3C.formatState. cbn.
    by destruct (_ <$> List.filter _ st). }
  split; [done|]. split; [done|]. split; [done|].
  split; [apply formatParent_nonempty|].
  split; [intros E; rewrite E in Hpre; discriminate Hpre|].
  split; [done|]. split; [exact Hpre|].
  intros E. destruct (Hnone E) as [-> ->]. by vm_compute.
Qed.

Lemma inject_into_empty_headers_witness :
  ∃ h,
    injectTraceContext [] [] Inputs.sc_plain (HTTPHeadersCarrier ∅)
    = (HTTPHeadersCarrier h, None) ∧
    http.Get h "traceparent"
    = "00-0000000000000000000000000000001a-0000000000000063-01" ∧
    http.Get h "tracestate" = "in=1a;63".
Proof.
  destruct (inject_into_empty_headers None None [])
    as (h & Hinj & _ & _ & _ & _ & _ & _ & _ & Hnone).
  exists h. split; [exact Hinj|]. by apply Hnone.
Defined.

(** C1, on the code.  A header map that carries the trace id header twice
    and no span id header: one of the two fields is found, the scan counts
    two, and extraction succeeds with a zero span id. *)
Theorem extractTraceContext_trace_field_twice :
  let carrier := HTTPHeadersCarrier Inputs.headers_trace_twice in
  let pairs := Inputs.pairs_trace_twice in
  visits carrier pairs ∧
  fields_found pairs = 1%nat ∧
  native_count pairs = 2%nat ∧
  extractTraceContext pairs carrier =
    ({| TraceID := 26; SpanID := 0; Suppressed := false;
        Baggage := Some ∅; ForeignParent := None |}, None).
Proof.
  cbn zeta. split; [|by vm_compute].
  exists [("X-Instana-T", ["1a"; "1a"])]. split; [|done].
  unfold Inputs.headers_trace_twice. by rewrite map_to_list_singleton.
Qed.

End Codec.

(** ** More on the derivation of span contexts *)

Module DerivationMore.
Import w3ctrace SpanCtx.

Section Facts.
Context `{!IDCodec, !Ops}.

(** What restoration never sets. *)
Lemma restore_unset_fields (trCtx : Context) (w : World) :
  let r := (restoreFromW3CTraceContext trCtx w).1 in
  Baggage r = None ∧ Sampled r = false ∧ Correlation r = zeroCorrelation ∧
  Links r = [] ∧ ParentID r = 0 ∧ ForeignTrace r = false.
Proof.
  unfold restoreFromW3CTraceContext. destruct (IsZero trCtx) eqn:Hz; [done|].
  run_go. destruct (disableW3CTraceCorrelation (sensor_options w)); cbn.
  - unfold restoreFromW3CTraceState. rewrite Hz.
    destruct (State_Fetch _ _) as [v|]; [|done].
    destruct (parseW3CInstanaState v) as [ref [|]]; [|done].
    destruct (ParseLongID _) as [[hi lo]|]; [|done].
    by destruct (ParseID _).
  - destruct (ParseLongID _) as [[hi lo]|]; [|done].
    by destruct (ParseID _).
Qed.

(** [NewSpanContext] split along its two tests: with [p] the parent after
    the first test, it is the new root or the clone of [p]. *)
Lemma NewSpanContext_paths (parent : SpanContext) (w : World) :
  let p := if no_native_ids parent
           then (restoreFromW3CTraceContext (W3CContext parent) w).1
           else parent in
  let foreignTrace :=
    no_native_ids parent && negb (disableW3CTraceCorrelation (sensor_options w)) in
  let id := entropy w (drawn w) in
  if no_native_ids p then
    NewSpanContext parent w =
    (let root := (NewRootSpanContext w).1 in
     if IsZero (W3CContext p) then root else set_W3CContext root (W3CContext p),
     (NewRootSpanContext w).2)
  else
    let c0 := set_ForeignTrace
                (set_SpanID_ParentID (Clone p w).1 id (SpanID p)) foreignTrace in
    let x := with_RawParent (W3CContext p)
               (Parent_String
                  (with_ParentID (Context_Parent (W3CContext p)) (FormatID id))) in
    (NewSpanContext parent w).1 =
    (if IsZero (W3CContext p) then set_W3CContext c0 (newW3CTraceContext c0)
     else set_Links (set_W3CContext c0 x)
            (if foreignTrace then links_from_state x else [])) ∧
    (NewSpanContext parent w).2 = (randomID (Clone p w).2).2.
Proof.
  intros p foreignTrace id. subst p foreignTrace id.
  pose proof (Derivation.restoreFromW3CTraceContext_world (W3CContext parent) w) as Hw.
  unfold NewSpanContext. run_go.
  destruct (no_native_ids parent) eqn:Hz.
  - destruct (restoreFromW3CTraceContext (W3CContext parent) w) as [r w1].
    cbn in Hw. subst w1. cbn [fst snd andb].
    destruct (no_native_ids r) eqn:Hn.
    + unfold NewRootSpanContext. run_go. by destruct (IsZero (W3CContext r)).
    + pose proof (Derivation.Clone_world r w) as (_ & He & Hd).
      pose proof (Derivation.Clone_fields r w) as (_ & _ & F3 & _ & _ & _ & F7 & F8 & _).
      destruct (Clone r w) as [c0 w0]. cbn [fst snd] in *.
      rewrite He, Hd. cbn. rewrite F7.
      destruct (IsZero (W3CContext r)); [done|].
      destruct (disableW3CTraceCorrelation (sensor_options w)); cbn.
      * split; [|done].
        unfold set_Links, set_W3CContext, set_ForeignTrace, set_SpanID_ParentID.
        cbn. by rewrite F8.
      * unfold links_from_state.
        destruct (State_Fetch _ _) as [v|]; cbn.
        -- destruct (parseW3CInstanaState v) as [ref [|]]; cbn; (split; [|done]);
             unfold set_Links, set_W3CContext, set_ForeignTrace, set_SpanID_ParentID;
             cbn; by rewrite F8.
        -- split; [|done].
           unfold set_Links, set_W3CContext, set_ForeignTrace, set_SpanID_ParentID.
           cbn. by rewrite F8.
  - cbn [fst snd andb]. rewrite Hz.
    pose proof (Derivation.Clone_world parent w) as (_ & He & Hd).
    pose proof (Derivation.Clone_fields parent w) as (_ & _ & F3 & _ & _ & _ & F7 & F8 & _).
    destruct (Clone parent w) as [c0 w0]. cbn [fst snd] in *.
    rewrite He, Hd. cbn. rewrite F7.
    destruct (IsZero (W3CContext parent)); [done|].
    split; [|done].
    unfold set_Links, set_W3CContext, set_ForeignTrace, set_SpanID_ParentID.
    cbn. by rewrite F8.
Qed.

(** [Clone] keeps every map that is already allocated. *)
Lemma Clone_heap_frame (c : SpanContext) (w : World) (l : loc) :
  is_Some (heap w !! l) → heap (Clone c w).2 !! l = heap w !! l.
Proof.
  intros Hl. destruct (Baggage c) as [l0|] eqn:Hb.
  - rewrite (Cloning.Clone_some c w l0 Hb). cbn.
    apply lookup_insert_ne. intros E. rewrite <- E in Hl.
    rewrite Cloning.fresh_not_allocated in Hl. by destruct Hl.
  - by rewrite (Cloning.Clone_none c w Hb).
Qed.

(** X1.  A parent with neither native identifiers nor a foreign context is
    ignored: the derivation is exactly [NewRootSpanContext], whatever the
    other fields of the parent (baggage, links, flags, correlation) hold. *)
Theorem NewSpanContext_ignores_empty_parent (parent : SpanContext) (w : World) :
  IsZero zeroContext = true →
  no_native_ids parent = true →
  IsZero (W3CContext parent) = true →
  NewSpanContext parent w = NewRootSpanContext w.
Proof.
  intros Hzero Hz Hctx.
  pose proof (NewSpanContext_paths parent w) as Hp. cbn zeta in Hp.
  rewrite Hz in Hp.
  assert ((restoreFromW3CTraceContext (W3CContext parent) w).1 = zeroSpanContext) as Hr.
  { unfold restoreFromW3CTraceContext. by rewrite Hctx. }
  rewrite Hr in Hp. cbn in Hp. rewrite Hzero in Hp. rewrite Hp.
  by destruct (NewRootSpanContext w).
Qed.

(** X2.  Whatever the parent, the derived context has the freshly drawn
    identifier as [SpanID]; the derivation draws exactly one identifier,
    leaves the sensor options and the random source as they are and changes
    no map that is already on the heap. *)
Theorem NewSpanContext_draws_one_id (parent : SpanContext) (w : World) :
  let c := (NewSpanContext parent w).1 in
  let w' := (NewSpanContext parent w).2 in
  SpanID c = entropy w (drawn w) ∧
  drawn w' = S (drawn w) ∧
  entropy w' = entropy w ∧
  sensor_options w' = sensor_options w ∧
  ∀ l, is_Some (heap w !! l) → heap w' !! l = heap w !! l.
Proof.
  pose proof (NewSpanContext_paths parent w) as Hp. cbn zeta in Hp. cbn zeta.
  set (p := if no_native_ids parent
            then (restoreFromW3CTraceContext (W3CContext parent) w).1
            else parent) in *.
  destruct (no_native_ids p).
  - rewrite Hp. unfold NewRootSpanContext. run_go. cbn [fst snd].
    split; [by destruct (IsZero (W3CContext p))|]. by repeat split.
  - destruct Hp as [Hc Hw]. rewrite Hc, Hw.
    pose proof (Derivation.Clone_world p w) as (Ho & He & Hd).
    pose proof (Clone_heap_frame p w) as Hh.
    destruct (Clone p w) as [c0 w0]. cbn [fst snd] in *.
    split; [by destruct (IsZero (W3CContext p))|].
    unfold randomID. cbn. rewrite Hd. by repeat split.
Qed.

(** X3.  A child of a parent with native identifiers always carries a
    foreign context that names the child's own [SpanID] as parent id: when
    the parent has none it is synthesized from the parent's trace id, the
    new [SpanID] and the suppression flag; otherwise it is the parent's
    foreign context with the same vendor state and with the parent id of its
    parent fields replaced by the hex of the new [SpanID]. *)
Theorem NewSpanContext_native_foreign_context (parent : SpanContext) (w : World) :
  no_native_ids parent = false →
  let c := (NewSpanContext parent w).1 in
  (IsZero (W3CContext parent) = true →
   W3CContext c =
     New {| Version := Version_Max;
            w3ctrace.TraceID := FormatLongID (TraceIDHi parent) (TraceID parent);
            w3ctrace.ParentID := FormatID (SpanID c);
            PFlags := {| w3ctrace.Sampled := negb (Suppressed parent) |} |}) ∧
  (IsZero (W3CContext parent) = false →
   RawState (W3CContext c) = RawState (W3CContext parent) ∧
   RawParent (W3CContext c) =
     Parent_String
       (with_ParentID (Context_Parent (W3CContext parent)) (FormatID (SpanID c)))).
Proof.
  intros Hn c. subst c.
  pose proof (NewSpanContext_paths parent w) as Hp. cbn zeta in Hp.
  rewrite Hn in Hp. cbv beta iota in Hp. rewrite Hn in Hp. cbn [andb] in Hp.
  destruct Hp as [Hc _]. rewrite Hc.
  rewrite (Derivation.Clone_result parent w).
  split; intros Hz; rewrite Hz; by cbn.
Qed.

(** X4.  A child of a parent with native identifiers inherits [Sampled] and
    [Suppressed], never the correlation data, and gets a baggage map of its
    own: [nil] when the parent's is [nil], otherwise a newly allocated map
    with the parent's entries, the parent's map staying as it was. *)
Theorem NewSpanContext_native_inherits (parent : SpanContext) (w : World) :
  no_native_ids parent = false →
  (∀ l, Baggage parent = Some l → is_Some (heap w !! l)) →
  let c := (NewSpanContext parent w).1 in
  let w' := (NewSpanContext parent w).2 in
  Sampled c = Sampled parent ∧ Suppressed c = Suppressed parent ∧
  Correlation c = zeroCorrelation ∧
  baggage_of w' c = baggage_of w parent ∧
  baggage_of w' parent = baggage_of w parent ∧
  (Baggage parent = None → Baggage c = None) ∧
  (∀ l, Baggage parent = Some l →
        ∃ l', Baggage c = Some l' ∧ l' ≠ l ∧ heap w !! l' = None).
Proof.
  intros Hn Hwf c w'. subst c w'.
  pose proof (NewSpanContext_paths parent w) as Hp. cbn zeta in Hp.
  rewrite Hn in Hp. cbv beta iota in Hp. rewrite Hn in Hp. cbn [andb] in Hp.
  destruct Hp as [Hc Hw]. rewrite Hc, Hw.
  pose proof (Cloning.fresh_not_allocated w) as Hfresh.
  destruct (Baggage parent) as [l|] eqn:Hb.
  - destruct (Hwf l eq_refl) as [m Hm].
    assert (fresh (dom (heap w)) ≠ l) as Hne by (intros E; congruence).
    rewrite (Cloning.Clone_some parent w l Hb). unfold baggage_of. rewrite Hb. cbn.
    destruct (IsZero (W3CContext parent)); cbn; unfold map_contents; cbn;
      rewrite lookup_insert_eq, lookup_insert_ne by done; rewrite Hm; cbn;
      (repeat split; try done); intros l0 [= <-]; by eexists.
  - rewrite (Cloning.Clone_none parent w Hb). unfold baggage_of. rewrite Hb. cbn.
    destruct (IsZero (W3CContext parent)); cbn; by repeat split.
Qed.

(** X5.  A parent without native identifiers hands nothing but its foreign
    context to the derivation: the derived context has no baggage, is not
    sampled, has no correlation data, at most one link, and no map is
    allocated, whatever baggage, links, flags and correlation the parent
    has. *)
Theorem NewSpanContext_foreign_parent_drops (parent : SpanContext) (w : World) :
  no_native_ids parent = true →
  let c := (NewSpanContext parent w).1 in
  let w' := (NewSpanContext parent w).2 in
  Baggage c = None ∧ Sampled c = false ∧ Correlation c = zeroCorrelation ∧
  (length (Links c) ≤ 1)%nat ∧ heap w' = heap w.
Proof.
  intros Hz c w'. subst c w'.
  pose proof (NewSpanContext_paths parent w) as Hp. cbn zeta in Hp.
  rewrite Hz in Hp.
  pose proof (restore_unset_fields (W3CContext parent) w) as (Rb & Rs & Rc & _).
  set (r := (restoreFromW3CTraceContext (W3CContext parent) w).1) in *.
  destruct (no_native_ids r).
  - rewrite Hp. unfold NewRootSpanContext. run_go. cbn [fst snd].
    destruct (IsZero (W3CContext r)); cbn;
      (split; [done|]); (split; [done|]); (split; [done|]); (split; [lia|done]).
  - destruct Hp as [Hc Hw]. rewrite Hc, Hw.
    rewrite (Cloning.Clone_none r w Rb). cbn. rewrite Rs.
    destruct (IsZero (W3CContext r)); cbn;
      (split; [done|]); (split; [done|]); (split; [done|]); (split; [|done]);
      [lia|].
    destruct (negb _); [|cbn; lia].
    unfold links_from_state. destruct (State_Fetch _ _) as [v|]; [|cbn; lia].
    destruct (parseW3CInstanaState v) as [ref [|]]; cbn; lia.
Qed.

(** X6.  With the correlation-disable configuration on, no derivation marks
    its result as a foreign trace or gives it a link.  When the parent has
    no native identifiers and the vendor entry of its foreign state parses:
    if the parsed identifiers are not all zero, the derived context continues
    that trace (its trace id and parent id are those of the vendor entry) and
    is not suppressed, whatever the sampled flag of the foreign parent; if
    they are all zero, the derived context is a new root with the freshly
    drawn identifier as trace id, which carries the parent's foreign
    context. *)
Theorem NewSpanContext_correlation_disabled (parent : SpanContext) (w : World) :
  disableW3CTraceCorrelation (sensor_options w) = true →
  let c := (NewSpanContext parent w).1 in
  ForeignTrace c = false ∧ Links c = [] ∧
  ∀ v ref hi lo span,
    no_native_ids parent = true →
    IsZero (W3CContext parent) = false →
    State_Fetch (Context_State (W3CContext parent)) VendorInstana = Some v →
    parseW3CInstanaState v = (ref, true) →
    ParseLongID (RefTraceID ref) = Some (hi, lo) →
    ParseID (RefSpanID ref) = Some span →
    (¬ (hi = 0 ∧ lo = 0 ∧ span = 0) →
     TraceIDHi c = hi ∧ TraceID c = lo ∧ ParentID c = span ∧ Suppressed c = false) ∧
    (hi = 0 ∧ lo = 0 ∧ span = 0 →
     TraceIDHi c = 0 ∧ TraceID c = entropy w (drawn w) ∧
     SpanID c = entropy w (drawn w) ∧ ParentID c = 0 ∧
     W3CContext c = W3CContext parent).
Proof.
  intros Hd c. subst c.
  pose proof (NewSpanContext_paths parent w) as Hp. cbn zeta in Hp.
  rewrite Hd in Hp. cbn [negb] in Hp. rewrite andb_false_r in Hp.
  set (p := if no_native_ids parent
            then (restoreFromW3CTraceContext (W3CContext parent) w).1
            else parent) in *.
  assert (ForeignTrace (NewSpanContext parent w).1 = false ∧
          Links (NewSpanContext parent w).1 = []) as [Hft Hl].
  { destruct (no_native_ids p).
    - rewrite Hp. unfold NewRootSpanContext. run_go. cbn [fst snd].
      by destruct (IsZero (W3CContext p)).
    - destruct Hp as [Hc _]. rewrite Hc. rewrite (Derivation.Clone_result p w).
      by destruct (IsZero (W3CContext p)). }
  split; [done|]. split; [done|].
  intros v ref hi lo span Hz Hnz Hv Href Hlong Hid.
  subst p. rewrite Hz in Hp.
  destruct (Derivation.restore_disabled_keeps_context (W3CContext parent) w Hnz Hd)
    as [Hr _].
  assert ((restoreFromW3CTraceContext (W3CContext parent) w).1 =
          set_ids (set_W3CContext zeroSpanContext (W3CContext parent)) hi lo span) as Hr'.
  { rewrite Hr. unfold restoreFromW3CTraceState. by rewrite Hnz, Hv, Href, Hlong, Hid. }
  rewrite Hr' in Hp. split.
  - intros Hids.
    assert (no_native_ids
              (set_ids (set_W3CContext zeroSpanContext (W3CContext parent)) hi lo span)
            = false) as Hn by (apply Derivation.no_native_ids_false; cbn; exact Hids).
    rewrite Hn in Hp. destruct Hp as [Hc _]. rewrite Hc.
    rewrite Derivation.Clone_result. cbn. rewrite Hnz. by cbn.
  - intros (-> & -> & ->). cbn in Hp. rewrite Hnz in Hp. rewrite Hp.
    unfold NewRootSpanContext. run_go. by cbn.
Qed.

End Facts.

#[local] Existing Instance SpecCodec.codec.
#[local] Existing Instance SpecW3C.ops.

Lemma NewSpanContext_ignores_empty_parent_witness :
  NewSpanContext Inputs.parent_flags_only demo_world = NewRootSpanContext demo_world.
Proof.
  apply NewSpanContext_ignores_empty_parent; reflexivity.
Defined.

Lemma NewSpanContext_native_foreign_context_witness :
  let c := (NewSpanContext Inputs.full_context Inputs.world_with_baggage).1 in
  RawState (W3CContext c) = "in=2b;4d,foo=bar" ∧
  RawParent (W3CContext c) =
    "00-0000000000000000000000000000001a-0000000000000007-01".
Proof.
  refine (proj2 (NewSpanContext_native_foreign_context
                   Inputs.full_context Inputs.world_with_baggage _) _);
    reflexivity.
Defined.

Lemma NewSpanContext_native_inherits_witness :
  let c := (NewSpanContext Inputs.full_context Inputs.world_with_baggage).1 in
  let w' := (NewSpanContext Inputs.full_context Inputs.world_with_baggage).2 in
  Sampled c = true ∧ Suppressed c = true ∧ Correlation c = zeroCorrelation ∧
  baggage_of w' c = {[ "user" := "alice" ]}.
Proof.
  destruct (NewSpanContext_native_inherits Inputs.full_context Inputs.world_with_baggage)
    as (F1 & F2 & F3 & F4 & _).
  - reflexivity.
  - intros l [= <-]. eexists. reflexivity.
  - repeat split; assumption.
Defined.

Lemma NewSpanContext_foreign_parent_drops_witness :
  let c := (NewSpanContext Inputs.parent_foreign demo_world).1 in
  Baggage c = None ∧ Sampled c = false ∧ Correlation c = zeroCorrelation.
Proof.
  destruct (NewSpanContext_foreign_parent_drops Inputs.parent_foreign demo_world)
    as (F1 & F2 & F3 & _); [reflexivity|].
  repeat split; assumption.
Defined.

Lemma NewSpanContext_correlation_disabled_witness :
  let c := (NewSpanContext Inputs.parent_foreign demo_world_disabled).1 in
  ForeignTrace c = false ∧ Links c = [] ∧
  TraceIDHi c = 0 ∧ TraceID c = 43 ∧ ParentID c = 77 ∧ Suppressed c = false.
Proof.
  destruct (NewSpanContext_correlation_disabled Inputs.parent_foreign demo_world_disabled)
    as (F1 & F2 & F3); [reflexivity|].
  split; [exact F1|]. split; [exact F2|].
  refine (proj1 (F3 "2b;4d" {| RefTraceID := "2b"; RefSpanID := "4d" |} 0 43 77
                   _ _ _ _ _ _) _);
    try reflexivity.
  intros (_ & E & _). discriminate E.
Defined.

End DerivationMore.

(** ** More on baggage and the vendor state entry *)

Module BaggageMore.
Import w3ctrace SpanCtx.

Lemma IndexByte_range (s : string) (c : ascii) :
  strings.IndexByte s c = (-1)%Z ∨
  (0 <= strings.IndexByte s c < Z.of_nat (String.length s))%Z.
Proof.
  induction s as [|a s IH]; [by left|]. cbn [strings.IndexByte String.length].
  destruct (Ascii.eqb a c); [right; lia|]. cbn zeta.
  destruct (Z.ltb_spec (strings.IndexByte s c) 0); [by left|right; lia].
Qed.

(** A string with the byte [c] at index [i], and none before, splits
    there. *)
Lemma IndexByte_split (s : string) (c : ascii) :
  (0 <= strings.IndexByte s c)%Z →
  let i := Z.to_nat (strings.IndexByte s c) in
  s = strings.slice_to s i +:+ String c (strings.slice_from s (i + 1)) ∧
  (strings.IndexByte (strings.slice_to s i) c < 0)%Z.
Proof.
  induction s as [|a s IH]; [cbn; lia|]. cbn [strings.IndexByte].
  destruct (Ascii.eqb_spec a c) as [->|Hne].
  - intros _. change (Z.to_nat 0) with 0%nat. cbn. rewrite StringFacts.app_nil.
    split; [by destruct s|lia].
  - cbn zeta. destruct (Z.ltb_spec (strings.IndexByte s c) 0) as [|Hi]; [lia|].
    intros _. specialize (IH Hi). cbn zeta in IH. destruct IH as [IH1 IH2].
    replace (Z.to_nat (strings.IndexByte s c + 1))
      with (S (Z.to_nat (strings.IndexByte s c))) by lia.
    cbn [strings.slice_to strings.slice_from Nat.add].
    rewrite StringFacts.app_cons. split; [by rewrite <- IH1|].
    cbn [strings.IndexByte]. destruct (Ascii.eqb_spec a c); [done|].
    cbn zeta.
    destruct (Z.ltb_spec
                (strings.IndexByte
                   (strings.slice_to s (Z.to_nat (strings.IndexByte s c))) c) 0); lia.
Qed.

(** The index of [c] in [t ++ c ++ s] when [t] is free of [c]. *)
Lemma IndexByte_app (t s : string) (c : ascii) :
  (strings.IndexByte t c < 0)%Z →
  strings.IndexByte (t +:+ String c s) c = Z.of_nat (String.length t).
Proof.
  induction t as [|a t IH]; intros Ht.
  - rewrite StringFacts.app_nil. cbn. by rewrite Ascii.eqb_refl.
  - rewrite StringFacts.app_cons. cbn [strings.IndexByte String.length] in *.
    destruct (Ascii.eqb a c); [lia|]. cbn zeta in *.
    destruct (Z.ltb_spec (strings.IndexByte t c) 0) as [Hlt|]; [|lia].
    rewrite (IH Hlt). destruct (Z.ltb_spec (Z.of_nat (String.length t)) 0); lia.
Qed.

(** Any string that holds [c] has an index for it. *)
Lemma IndexByte_found (t s : string) (c : ascii) :
  (0 <= strings.IndexByte (t +:+ String c s) c)%Z.
Proof.
  induction t as [|a t IH].
  - rewrite StringFacts.app_nil. cbn. by rewrite Ascii.eqb_refl.
  - rewrite StringFacts.app_cons. cbn [strings.IndexByte].
    destruct (Ascii.eqb a c); [done|]. cbn zeta.
    destruct (Z.ltb_spec (strings.IndexByte (t +:+ String c s) c) 0); lia.
Qed.

Lemma slice_to_app (t s : string) :
  strings.slice_to (t +:+ s) (String.length t) = t.
Proof.
  induction t as [|a t IH]; [by destruct s|].
  rewrite StringFacts.app_cons. cbn [String.length strings.slice_to]. by rewrite IH.
Qed.

(** X7.  [parseW3CInstanaState] splits at the first semicolon: it reads
    back [t] and [s] from [t;s] whenever [t] holds no semicolon; a
    successful parse gives the two parts of the input around its first
    semicolon; and it fails, with the empty reference, exactly on the
    strings without a semicolon. *)
Theorem parseW3CInstanaState_first_semicolon :
  (∀ t s, (strings.IndexByte t ";" < 0)%Z →
     parseW3CInstanaState (t +:+ ";" +:+ s)
     = ({| RefTraceID := t; RefSpanID := s |}, true)) ∧
  (∀ v ref, parseW3CInstanaState v = (ref, true) →
     v = RefTraceID ref +:+ ";" +:+ RefSpanID ref ∧
     (strings.IndexByte (RefTraceID ref) ";" < 0)%Z) ∧
  (∀ v ref, parseW3CInstanaState v = (ref, false) →
     ref = zeroReference ∧ ∀ t s, v ≠ t +:+ ";" +:+ s).
Proof.
  split; [|split].
  - intros t s Ht. unfold parseW3CInstanaState.
    change (t +:+ ";" +:+ s) with (t +:+ String ";" s).
    rewrite (IndexByte_app t s ";" Ht).
    destruct (Z.ltb_spec (Z.of_nat (String.length t)) 0); [lia|].
    rewrite Nat2Z.id. rewrite slice_to_app.
    replace (Z.to_nat (Z.of_nat (String.length t) + 1))
      with (String.length t + 1)%nat by lia.
    pose proof (IndexByte_split (t +:+ String ";" s) ";") as Hs.
    rewrite (IndexByte_app t s ";" Ht) in Hs. cbn zeta in Hs.
    rewrite Nat2Z.id, slice_to_app in Hs.
    destruct Hs as [Hs _]; [lia|].
    apply StringFacts.app_inv_head in Hs. injection Hs as Hs. by rewrite <- Hs.
  - intros v ref. unfold parseW3CInstanaState.
    destruct (Z.ltb_spec (strings.IndexByte v ";") 0) as [|Hi]; [done|].
    intros [= <-]. cbn [RefTraceID RefSpanID].
    destruct (IndexByte_split v ";" Hi) as [Hs Hfree].
    split; [|done].
    replace (Z.to_nat (strings.IndexByte v ";" + 1))
      with (Z.to_nat (strings.IndexByte v ";") + 1)%nat by lia.
    exact Hs.
  - intros v ref. unfold parseW3CInstanaState.
    destruct (Z.ltb_spec (strings.IndexByte v ";") 0) as [Hi|]; [|done].
    intros [= <-]. split; [done|]. intros t s ->.
    pose proof (IndexByte_found t s ";"). 
    change (t +:+ ";" +:+ s) with (t +:+ String ";" s) in Hi. lia.
Qed.

Lemma parseW3CInstanaState_first_semicolon_witness :
  parseW3CInstanaState ("1a" +:+ ";" +:+ "63;7")
  = ({| RefTraceID := "1a"; RefSpanID := "63;7" |}, true).
Proof.
  apply (proj1 parseW3CInstanaState_first_semicolon "1a" "63;7"). reflexivity.
Defined.

(** [WithBaggageItem] in closed form: the result refers to a newly
    allocated map that holds the receiver's entries and the new one. *)
Lemma WithBaggageItem_result (c : SpanContext) (key val : string) (w : World) :
  (∀ l, Baggage c = Some l → is_Some (heap w !! l)) →
  let l' := fresh (dom (heap w)) in
  WithBaggageItem c key val w =
  ({| TraceIDHi := TraceIDHi c; TraceID := TraceID c; SpanID := SpanID c;
      ParentID := ParentID c; Links := []; Sampled := Sampled c;
      Suppressed := Suppressed c; Baggage := Some l';
      W3CContext := W3CContext c; ForeignTrace := false;
      Correlation := zeroCorrelation |},
   set_heap w (<[l' := <[key := val]> (baggage_of w c)]> (heap w))).
Proof.
  intros Hwf l'. unfold WithBaggageItem, baggage_of. run_go.
  destruct (Baggage c) as [l|] eqn:Hb.
  - rewrite (Cloning.Clone_some c w l Hb). cbn. fold l'.
    unfold set_heap. cbn. f_equal. f_equal.
    apply map_eq. intros i. destruct (decide (i = l')) as [->|Hne].
    + by rewrite lookup_alter_eq, !lookup_insert_eq.
    + by rewrite lookup_alter_ne, !lookup_insert_ne.
  - rewrite (Cloning.Clone_none c w Hb). unfold make_map. cbn. fold l'.
    unfold set_heap. cbn. f_equal. f_equal.
    apply map_eq. intros i. destruct (decide (i = l')) as [->|Hne].
    + by rewrite lookup_alter_eq, !lookup_insert_eq.
    + by rewrite lookup_alter_ne, !lookup_insert_ne.
Qed.

(** X8.  [WithBaggageItem] reads back what it stores and composes as
    updates of an immutable value: after two calls in a row the last context
    holds both entries over the receiver's baggage (the second wins on the
    same key), while the first result and the receiver still hold what they
    held before. *)
Theorem WithBaggageItem_chain (c : SpanContext) (w : World) (k1 v1 k2 v2 : string) :
  (∀ l, Baggage c = Some l → is_Some (heap w !! l)) →
  let r1 := (WithBaggageItem c k1 v1 w).1 in
  let w1 := (WithBaggageItem c k1 v1 w).2 in
  let r2 := (WithBaggageItem r1 k2 v2 w1).1 in
  let w2 := (WithBaggageItem r1 k2 v2 w1).2 in
  baggage_of w1 r1 !! k1 = Some v1 ∧
  baggage_of w2 r2 = <[k2 := v2]> (<[k1 := v1]> (baggage_of w c)) ∧
  baggage_of w2 r1 = <[k1 := v1]> (baggage_of w c) ∧
  baggage_of w2 c = baggage_of w c.
Proof.
  intros Hwf r1 w1 r2 w2. subst r1 w1 r2 w2.
  rewrite (WithBaggageItem_result c k1 v1 w Hwf). cbn [fst snd].
  set (l1 := fresh (dom (heap w))).
  set (w1 := set_heap w _).
  set (r1 := {| TraceIDHi := TraceIDHi c; Baggage := Some l1 |}).
  assert (heap w !! l1 = None) as Hl1 by apply Cloning.fresh_not_allocated.
  assert (baggage_of w1 r1 = <[k1 := v1]> (baggage_of w c)) as Hb1.
  { unfold baggage_of at 1, map_contents. cbn. by rewrite lookup_insert_eq. }
  rewrite (WithBaggageItem_result r1 k2 v2 w1).
  2:{ intros l [= <-]. cbn. rewrite lookup_insert_eq. by eexists. }
  cbn [fst snd]. set (l2 := fresh (dom (heap w1))).
  assert (heap w1 !! l2 = None) as Hl2 by apply Cloning.fresh_not_allocated.
  assert (l2 ≠ l1) as Hne.
  { intros E. rewrite E in Hl2. cbn in Hl2. by rewrite lookup_insert_eq in Hl2. }
  split; [by rewrite Hb1, lookup_insert_eq|].
  rewrite Hb1. split.
  { unfold baggage_of at 1, map_contents. cbn. by rewrite lookup_insert_eq. }
  split.
  { unfold baggage_of at 1, map_contents. cbn.
    by rewrite lookup_insert_ne, lookup_insert_eq. }
  unfold baggage_of, map_contents. destruct (Baggage c) as [l|] eqn:Hb; [|done].
  destruct (Hwf l eq_refl) as [m Hm]. cbn.
  assert (l1 ≠ l) as Hne1 by (intros E; congruence).
  assert (l2 ≠ l) as Hne2.
  { intros E. rewrite E in Hl2. cbn in Hl2.
    rewrite lookup_insert_ne in Hl2 by done. congruence. }
  by rewrite !lookup_insert_ne.
Qed.

Lemma WithBaggageItem_chain_witness :
  let c := Inputs.full_context in
  let w := Inputs.world_with_baggage in
  let r1 := (WithBaggageItem c "user" "bob" w).1 in
  let w1 := (WithBaggageItem c "user" "bob" w).2 in
  let r2 := (WithBaggageItem r1 "role" "admin" w1).1 in
  let w2 := (WithBaggageItem r1 "role" "admin" w1).2 in
  baggage_of w2 r2 = <["role" := "admin"]> (<["user" := "bob"]> (baggage_of w c)) ∧
  baggage_of w2 c = baggage_of w c.
Proof.
  destruct (WithBaggageItem_chain Inputs.full_context Inputs.world_with_baggage
              "user" "bob" "role" "admin") as (_ & F2 & _ & F4).
  - intros l [= <-]. eexists. reflexivity.
  - split; assumption.
Defined.

(** The loop of [ForeachBaggageItem] with a recording handler, from any
    log: it appends a prefix of the order. *)
Lemma ForeachBaggageItem_recording (keep : string → string → bool)
    (order log : list (string * string)) :
  ∃ visited rest,
    ForeachBaggageItem order (recording keep) log = (log ++ visited)%list ∧
    order = (visited ++ rest)%list ∧
    (∀ pre kv, visited = (pre ++ [kv])%list →
               Forall (λ x, keep x.1 x.2 = true) pre) ∧
    (rest ≠ [] → ∃ pre kv, visited = (pre ++ [kv])%list ∧ keep kv.1 kv.2 = false) ∧
    (Forall (λ x, keep x.1 x.2 = true) order → rest = []).
Proof.
  revert log. induction order as [|[k v] order IH]; intros log.
  - exists [], []. cbn. rewrite app_nil_r. repeat split; try done.
    intros pre kv E. by destruct pre.
  - cbn [ForeachBaggageItem]. unfold recording at 1. cbn [fst snd].
    destruct (keep k v) eqn:Hk.
    + destruct (IH (log ++ [(k, v)])%list) as (visited & rest & E1 & E2 & H1 & H2 & H3).
      exists ((k, v) :: visited), rest.
      split; [by rewrite E1, <- app_assoc|]. split; [by rewrite E2|]. split; [|split].
      * intros pre kv E. destruct pre as [|x pre]; [constructor|].
        injection E as <- E. constructor; [done|]. by apply (H1 pre kv).
      * intros Hr. destruct (H2 Hr) as (pre & kv & -> & Hkv).
        by exists ((k, v) :: pre), kv.
      * intros Hall. apply H3. by inversion Hall.
    + exists [(k, v)], order. split; [done|]. split; [done|]. split; [|split].
      * intros pre kv E. destruct pre as [|x pre]; [constructor|].
        destruct pre; discriminate E.
      * intros _. by exists [], (k, v).
      * intros Hall. inversion Hall as [|? ? Hkv]; subst. cbn in Hkv. congruence.
Qed.

(** X9.  [ForeachBaggageItem] calls the handler on the entries in
    iteration order and stops at the first one the handler rejects: the
    calls are a prefix of the order, every call but the last was accepted,
    entries are left unvisited only after a rejected call; a handler that
    accepts everything sees every entry of the baggage exactly once, and on a
    [nil] baggage the handler is never called. *)
Theorem ForeachBaggageItem_stops_at_first_rejection
    (c : SpanContext) (w : World) (keep : string → string → bool)
    (order : list (string * string)) :
  order ≡ₚ map_to_list (baggage_of w c) →
  let calls := ForeachBaggageItem order (recording keep) [] in
  (∃ rest, order = (calls ++ rest)%list ∧
           (rest ≠ [] → ∃ pre kv, calls = (pre ++ [kv])%list ∧
                                  keep kv.1 kv.2 = false)) ∧
  (∀ pre kv, calls = (pre ++ [kv])%list → Forall (λ x, keep x.1 x.2 = true) pre) ∧
  ((∀ k v, baggage_of w c !! k = Some v → keep k v = true) →
   calls ≡ₚ map_to_list (baggage_of w c)) ∧
  (Baggage c = None → calls = []).
Proof.
  intros Hord calls. subst calls.
  destruct (ForeachBaggageItem_recording keep order [])
    as (visited & rest & -> & E2 & H1 & H2 & H3). cbn [app].
  split; [by exists rest|]. split; [done|]. split.
  - intros Hall. rewrite <- Hord, E2. rewrite H3; [by rewrite app_nil_r|].
    apply Forall_forall. intros [k v] Hin. cbn. apply Hall.
    apply elem_of_map_to_list. by rewrite <- Hord.
  - intros Hb. unfold baggage_of in Hord. rewrite Hb, map_to_list_empty in Hord.
    apply Permutation_nil_r in Hord. subst order. by destruct visited.
Qed.

Lemma ForeachBaggageItem_stops_at_first_rejection_witness :
  ForeachBaggageItem [("user", "alice")] (recording (λ _ _, true)) []
  ≡ₚ map_to_list (baggage_of Inputs.world_with_baggage Inputs.full_context).
Proof.
  refine (proj1 (proj2 (proj2
    (ForeachBaggageItem_stops_at_first_rejection
       Inputs.full_context Inputs.world_with_baggage (λ _ _, true)
       [("user", "alice")] _))) _).
  - cbn. unfold map_contents. cbn. rewrite lookup_singleton_eq. cbn.
    by rewrite map_to_list_singleton.
  - reflexivity.
Defined.

End BaggageMore.


(** ** More on the propagation codec *)

Module CodecMore.
Import w3ctrace Propagation.

Section Facts.
Context `{!IDCodec, !Ops}.

Lemma ForeachKey_app {S : Type} (l1 l2 : list (string * string))
    (handler : S → string → string → S * option error) (s : S) :
  ForeachKey (l1 ++ l2)%list handler s =
  match ForeachKey l1 handler s with
  | (s', Some err) => (s', Some err)
  | (s', None) => ForeachKey l2 handler s'
  end.
Proof.
  revert s. induction l1 as [|[k v] l1 IH]; intros s; [done|].
  rewrite <- app_comm_cons, !Codec.ForeachKey_cons.
  destruct (handler s k v) as [s' [err|]]; [done|]. apply IH.
Qed.

(** Either some pair holds a trace or span id that does not parse, or all
    of them parse. *)
Lemma malformed_dec (pairs : list (string * string)) :
  (∃ k v, (k, v) ∈ pairs ∧ is_native_field k = true ∧ ParseID v = None) ∨
  (∀ k v, (k, v) ∈ pairs → is_native_field k = true → is_Some (ParseID v)).
Proof.
  induction pairs as [|[k v] pairs IH].
  - right. intros k v Hin. by apply elem_of_nil in Hin.
  - destruct IH as [(k' & v' & Hin & Hn & Hp)|Hall].
    { left. exists k', v'. split; [by apply elem_of_cons; right|done]. }
    destruct (is_native_field k) eqn:Hk.
    + destruct (ParseID v) as [x|] eqn:Hp.
      * right. intros k' v' Hin Hn. apply elem_of_cons in Hin as [[= -> ->]|Hin].
        -- rewrite Hp. by eexists.
        -- by apply (Hall k' v').
      * left. exists k, v. split; [apply elem_of_cons; by left|done].
    + right. intros k' v' Hin Hn. apply elem_of_cons in Hin as [[= -> ->]|Hin].
      * congruence.
      * by apply (Hall k' v').
Qed.

(** One successful step of the extraction handler, field by field. *)
Lemma extract_handler_ok (sc sc1 : SpanContext) (n n1 : Z) (k v : string) :
  extract_handler (sc, n) k v = ((sc1, n1), None) →
  (if is_trace_field k then ParseID v = Some (TraceID sc1)
   else TraceID sc1 = TraceID sc) ∧
  (if is_span_field k then ParseID v = Some (SpanID sc1)
   else SpanID sc1 = SpanID sc) ∧
  Suppressed sc1 = (if is_level_field k then parseLevel v else Suppressed sc) ∧
  Baggage sc1 =
    (if is_baggage_field k
     then (λ b, <[strings.slice_from k (String.length FieldB) := v]> b) <$> Baggage sc
     else Baggage sc) ∧
  ForeignParent sc1 = ForeignParent sc.
Proof.
  unfold extract_handler.
  destruct (is_trace_field k) eqn:HT.
  { destruct (Codec.trace_field_excl k HT) as (-> & -> & ->).
    unfold is_trace_field in HT. rewrite HT.
    destruct (ParseID v) as [t|]; [|done]. by intros [= <- <-]. }
  destruct (is_span_field k) eqn:HS.
  { destruct (Codec.span_field_excl k HS) as (_ & -> & ->).
    unfold is_trace_field in HT. unfold is_span_field in HS. rewrite HT, HS.
    destruct (ParseID v) as [t|]; [|done]. by intros [= <- <-]. }
  destruct (is_level_field k) eqn:HL.
  { destruct (Codec.level_field_excl k HL) as (_ & _ & ->).
    unfold is_trace_field in HT. unfold is_span_field in HS.
    unfold is_level_field in HL. rewrite HT, HS, HL. by intros [= <- <-]. }
  unfold is_trace_field in HT. unfold is_span_field in HS.
  unfold is_level_field in HL. rewrite HT, HS, HL.
  unfold is_baggage_field. destruct (strings.HasPrefix _ _); by intros [= <- <-].
Qed.

(** A successful scan of a list [pre ++ (k, v) :: post] in three parts. *)
Lemma extract_scan_split (pre post : list (string * string)) (k v : string)
    (sc sc' : SpanContext) (n n' : Z) :
  ForeachKey (pre ++ (k, v) :: post)%list extract_handler (sc, n) = ((sc', n'), None) →
  ∃ sc0 n0 sc1 n1,
    ForeachKey pre extract_handler (sc, n) = ((sc0, n0), None) ∧
    extract_handler (sc0, n0) k v = ((sc1, n1), None) ∧
    ForeachKey post extract_handler (sc1, n1) = ((sc', n'), None).
Proof.
  rewrite ForeachKey_app.
  destruct (ForeachKey pre extract_handler (sc, n)) as [[sc0 n0] [err|]]; [done|].
  rewrite Codec.ForeachKey_cons.
  destruct (extract_handler (sc0, n0) k v) as [[sc1 n1] [err|]] eqn:Hh; [done|].
  intros Hpost. by exists sc0, n0, sc1, n1.
Qed.

(** What a successful scan leaves alone. *)
Lemma extract_scan_frame (post : list (string * string)) (sc sc' : SpanContext)
    (n n' : Z) :
  ForeachKey post extract_handler (sc, n) = ((sc', n'), None) →
  ((∀ kv, kv ∈ post → is_trace_field kv.1 = false) → TraceID sc' = TraceID sc) ∧
  ((∀ kv, kv ∈ post → is_span_field kv.1 = false) → SpanID sc' = SpanID sc) ∧
  ((∀ kv, kv ∈ post → is_level_field kv.1 = false) → Suppressed sc' = Suppressed sc) ∧
  Baggage sc' = (λ b, foldl store_baggage_entry b post) <$> Baggage sc ∧
  ForeignParent sc' = ForeignParent sc.
Proof.
  revert sc n. induction post as [|[k v] post IH]; intros sc n.
  - intros [= <- <-]. repeat split; try done. by destruct (Baggage sc).
  - rewrite Codec.ForeachKey_cons.
    destruct (extract_handler (sc, n) k v) as [[sc1 n1] [err|]] eqn:Hh; [done|].
    intros Hpost. destruct (IH sc1 n1 Hpost) as (IT & IS & IL & IB & IF).
    destruct (extract_handler_ok sc sc1 n n1 k v Hh) as (HT & HS & HL & HB & HF).
    split; [|split; [|split; [|split]]].
    + intros Hno. rewrite IT by (intros kv Hin; apply Hno, elem_of_cons; by right).
      assert (E := Hno (k, v) ltac:(apply elem_of_cons; by left)).
      cbn [fst] in E. by rewrite E in HT.
    + intros Hno. rewrite IS by (intros kv Hin; apply Hno, elem_of_cons; by right).
      assert (E := Hno (k, v) ltac:(apply elem_of_cons; by left)).
      cbn [fst] in E. by rewrite E in HS.
    + intros Hno. rewrite IL by (intros kv Hin; apply Hno, elem_of_cons; by right).
      assert (E := Hno (k, v) ltac:(apply elem_of_cons; by left)).
      cbn [fst] in E. by rewrite E in HL.
    + rewrite IB, HB. destruct (Baggage sc) as [b|]; cbn [foldl].
      * unfold store_baggage_entry at 3. cbn [fst snd].
        by destruct (is_baggage_field k).
      * by destruct (is_baggage_field k).
    + by rewrite IF.
Qed.

(** A successful extraction is a successful scan from the empty context;
    only the foreign parent is set afterwards. *)
Lemma extractTraceContext_ok (pairs : list (string * string)) (carrier : Carrier)
    (sc : SpanContext) :
  extractTraceContext pairs carrier = (sc, None) →
  ∃ sc0 n,
    ForeachKey pairs extract_handler
      ({| TraceID := 0; SpanID := 0; Suppressed := false;
          Baggage := Some ∅; ForeignParent := None |}, 0%Z) = ((sc0, n), None) ∧
    TraceID sc = TraceID sc0 ∧ SpanID sc = SpanID sc0 ∧
    Suppressed sc = Suppressed sc0 ∧ Baggage sc = Baggage sc0.
Proof.
  unfold extractTraceContext. destruct carrier as [m|h|]; [| |done].
  - destruct (ForeachKey pairs extract_handler _) as [[sc0 n] [err|]]; [done|].
    destruct (n =? 0)%Z; [done|]. destruct (n <? 2)%Z; [done|].
    intros [= <-]. by exists sc0, n.
  - destruct (ForeachKey pairs extract_handler _) as [[sc0 n] [err|]]; [done|].
    destruct (n =? 0)%Z; [done|]. destruct (n <? 2)%Z; [done|].
    destruct (Extract h); intros [= <-]; by exists sc0, n.
Qed.

(** X10.  The error of [extractTraceContext] on a carrier that can be read,
    in full: it is never [ErrInvalidCarrier]; it is
    [ErrSpanContextCorrupted] exactly when some trace or span id does not
    parse or exactly one of the pairs carries one; it is
    [ErrSpanContextNotFound] exactly when every id parses and no pair carries
    one; and there is no error exactly when every id parses and at least two
    pairs carry one. *)
Theorem extractTraceContext_error_cases
    (pairs : list (string * string)) (carrier : Carrier) :
  carrier ≠ OpaqueCarrier →
  ascii_keys pairs = true →
  let err := (extractTraceContext pairs carrier).2 in
  let malformed :=
    ∃ k v, (k, v) ∈ pairs ∧ is_native_field k = true ∧ ParseID v = None in
  err ≠ Some ErrInvalidCarrier ∧
  (err = Some ErrSpanContextCorrupted ↔ malformed ∨ native_count pairs = 1%nat) ∧
  (err = Some ErrSpanContextNotFound ↔ ¬ malformed ∧ native_count pairs = 0%nat) ∧
  (err = None ↔ ¬ malformed ∧ (2 ≤ native_count pairs)%nat).
Proof.
  intros Hc _ err malformed.
  destruct (Codec.extractTraceContext_outcomes pairs carrier Hc) as [Hbad Hgood].
  fold err in Hbad, Hgood.
  destruct (malformed_dec pairs) as [Hm|Hall].
  - specialize (Hbad Hm). rewrite Hbad.
    split; [done|]. split; [split; [by left|done]|].
    split; (split; [done|by intros [Hn _]]).
  - destruct (Hgood Hall) as (Hc0 & Hc1 & Hc2).
    assert (¬ malformed) as Hn.
    { intros (k & v & Hin & Hk & Hp). destruct (Hall k v Hin Hk) as [x Hx]. congruence. }
    destruct (native_count pairs) as [|[|c]] eqn:Hcount.
    + rewrite (Hc0 eq_refl). split; [done|]. split; [|split].
      * split; [done|]. intros [?|?]; done.
      * done.
      * split; [done|]. intros [_ ?]. lia.
    + rewrite (Hc1 eq_refl). split; [done|]. split; [|split].
      * split; [by right|done].
      * split; [done|]. by intros [_ ?].
      * split; [done|]. intros [_ ?]. lia.
    + rewrite Hc2 by lia. split; [done|]. split; [|split].
      * split; [done|]. intros [?|?]; [done|lia].
      * split; [done|]. by intros [_ ?].
      * split; [intros _; split; [done|lia]|done].
Qed.

(** X11.  The W3C trace context is optional to the extraction: headers and
    a text map that deliver the same pairs give the same error, ids, level
    and baggage.  The foreign parent is the only difference: never set from a
    text map, and from headers whatever [w3ctrace.Extract] finds, when the
    extraction succeeds and [w3ctrace.Extract] does.  A value that is not a
    carrier gives [ErrInvalidCarrier].  In every case the returned baggage
    is a map, not [nil]. *)
Theorem extractTraceContext_w3c_context_is_optional
    (pairs : list (string * string)) (m : gmap string string) (h : http.Header) :
  let text := extractTraceContext pairs (TextMapCarrier m) in
  let hdrs := extractTraceContext pairs (HTTPHeadersCarrier h) in
  let none := extractTraceContext pairs OpaqueCarrier in
  hdrs.2 = text.2 ∧
  set_ForeignParent hdrs.1 None = text.1 ∧
  ForeignParent text.1 = None ∧
  ForeignParent hdrs.1 = (if hdrs.2 is None then Extract h else None) ∧
  none.2 = Some ErrInvalidCarrier ∧
  is_Some (Baggage text.1) ∧ is_Some (Baggage none.1).
Proof.
  cbn zeta. unfold extractTraceContext.
  set (init := {| TraceID := 0; SpanID := 0; Suppressed := false;
                  Baggage := Some ∅; ForeignParent := None |}).
  assert (∀ l sc n, ForeignParent sc = None → is_Some (Baggage sc) →
            ForeignParent (ForeachKey l extract_handler (sc, n)).1.1 = None ∧
            is_Some (Baggage (ForeachKey l extract_handler (sc, n)).1.1)) as Hinv.
  { induction l as [|[k v] l IH]; intros sc n HF HB; [done|].
    rewrite Codec.ForeachKey_cons.
    destruct (extract_handler (sc, n) k v) as [[sc1 n1] [err|]] eqn:Hh.
    - cbn. unfold extract_handler in Hh.
      destruct (bool_decide (strings.ToLower k = FieldT)).
      { destruct (ParseID v); [done|]. by injection Hh as <- _ _. }
      destruct (bool_decide (strings.ToLower k = FieldS)).
      { destruct (ParseID v); [done|]. by injection Hh as <- _ _. }
      destruct (bool_decide (strings.ToLower k = FieldL)); [done|].
      by destruct (strings.HasPrefix (strings.ToLower k) FieldB).
    - destruct (extract_handler_ok sc sc1 n n1 k v Hh) as (_ & _ & _ & HB1 & HF1).
      apply IH; [congruence|]. rewrite HB1.
      destruct (is_baggage_field k); [|done]. destruct HB as [b ->]. by eexists. }
  destruct (Hinv pairs init 0%Z eq_refl (mk_is_Some _ _ eq_refl)) as [HF HB].
  destruct (ForeachKey pairs extract_handler (init, 0%Z)) as [[sc n] [err|]];
    cbn [fst snd] in *.
  { repeat split; try done. by destruct sc; cbn in *; subst. }
  destruct (n =? 0)%Z; cbn [fst snd].
  { repeat split; try done. by destruct sc; cbn in *; subst. }
  destruct (n <? 2)%Z; cbn [fst snd].
  { repeat split; try done. by destruct sc; cbn in *; subst. }
  destruct (Extract h); cbn [fst snd]; repeat split; try done;
    by destruct sc; cbn in *; subst.
Qed.

(** X12.  When several pairs carry the same field, the one delivered last
    wins: after a successful extraction the trace id, span id and level are
    those of the last pair with that field name, whatever its casing; the
    level is read as suppressed only from the value ["0"], and tracing is not
    suppressed when no pair carries a level; a baggage entry is stored under
    the key as cased in the carrier, with the value of the last pair for that
    key. *)
Theorem extractTraceContext_last_value_wins
    (pairs : list (string * string)) (carrier : Carrier) (sc : SpanContext) :
  ascii_keys pairs = true →
  extractTraceContext pairs carrier = (sc, None) →
  (∀ pre k v post, pairs = (pre ++ (k, v) :: post)%list →
     (is_trace_field k = true →
      (∀ kv, kv ∈ post → is_trace_field kv.1 = false) →
      ParseID v = Some (TraceID sc)) ∧
     (is_span_field k = true →
      (∀ kv, kv ∈ post → is_span_field kv.1 = false) →
      ParseID v = Some (SpanID sc)) ∧
     (is_level_field k = true →
      (∀ kv, kv ∈ post → is_level_field kv.1 = false) →
      Suppressed sc = bool_decide (v = "0")) ∧
     (is_baggage_field k = true →
      (∀ kv, kv ∈ post → is_baggage_field kv.1 = true →
             strings.slice_from kv.1 (String.length FieldB)
             ≠ strings.slice_from k (String.length FieldB)) →
      baggage_items sc !! strings.slice_from k (String.length FieldB) = Some v)) ∧
  ((∀ kv, kv ∈ pairs → is_level_field kv.1 = false) → Suppressed sc = false) ∧
  (∀ k0 v, baggage_items sc !! k0 = Some v →
     ∃ k, (k, v) ∈ pairs ∧ is_baggage_field k = true ∧
          strings.slice_from k (String.length FieldB) = k0).
Proof.
  intros _ Hex.
  destruct (extractTraceContext_ok pairs carrier sc Hex)
    as (sc0 & n & Hscan & -> & -> & -> & HB).
  unfold baggage_items. rewrite HB. clear HB Hex.
  split; [|split].
  - intros pre k v post ->.
    destruct (extract_scan_split pre post k v _ sc0 _ n Hscan)
      as (sa & na & sb & nb & Hpre & Hstep & Hpost).
    destruct (extract_handler_ok sa sb na nb k v Hstep) as (HT & HS & HL & HBg & _).
    destruct (extract_scan_frame post sb sc0 nb n Hpost) as (FT & FS & FL & FB & _).
    destruct (extract_scan_frame pre _ sa _ na Hpre) as (_ & _ & _ & PB & _).
    split; [|split; [|split]].
    + intros Hk Hno. rewrite Hk in HT. by rewrite (FT Hno).
    + intros Hk Hno. rewrite Hk in HS. by rewrite (FS Hno).
    + intros Hk Hno. rewrite Hk in HL. by rewrite (FL Hno).
    + intros Hk Hno. rewrite Hk in HBg. rewrite FB, HBg, PB. cbn.
      rewrite Codec.extracted_baggage_other.
      * by rewrite lookup_insert_eq.
      * intros k' v' Hin Hbf. by apply (Hno (k', v')).
  - intros Hno.
    destruct (extract_scan_frame pairs _ sc0 _ n Hscan) as (_ & _ & FL & _).
    by rewrite (FL Hno).
  - intros k0 v Hl.
    destruct (extract_scan_frame pairs _ sc0 _ n Hscan) as (_ & _ & _ & FB & _).
    rewrite FB in Hl. cbn in Hl.
    destruct (Codec.extracted_baggage_origin pairs ∅ k0 v Hl) as [Hfound|Hempty];
      [done|]. by rewrite lookup_empty in Hempty.
Qed.

(** X13.  The level survives formatting and parsing. *)
Theorem parseLevel_formatLevel (sc : SpanContext) :
  parseLevel (formatLevel sc) = Suppressed sc.
Proof. unfold parseLevel, formatLevel. by destruct (Suppressed sc). Qed.

(** One step of the scan of [injectTraceContext], field by field. *)
Lemma inject_handler_step (e : Existing) (k v : string) :
  inject_handler e k v =
  ({| exstfieldT := if is_trace_field k then k else exstfieldT e;
      exstfieldS := if is_span_field k then k else exstfieldS e;
      exstfieldL := if is_level_field k then k else exstfieldL e;
      exstfieldB := if is_baggage_field k
                    then strings.slice_to k (String.length FieldB)
                    else exstfieldB e |}, None).
Proof.
  unfold inject_handler.
  destruct (is_trace_field k) eqn:HT.
  { destruct (Codec.trace_field_excl k HT) as (-> & -> & ->).
    unfold is_trace_field in HT. by rewrite HT. }
  destruct (is_span_field k) eqn:HS.
  { destruct (Codec.span_field_excl k HS) as (_ & -> & ->).
    unfold is_trace_field in HT. unfold is_span_field in HS. by rewrite HT, HS. }
  destruct (is_level_field k) eqn:HL.
  { destruct (Codec.level_field_excl k HL) as (_ & _ & ->).
    unfold is_trace_field in HT. unfold is_span_field in HS.
    unfold is_level_field in HL. by rewrite HT, HS, HL. }
  unfold is_trace_field in HT. unfold is_span_field in HS.
  unfold is_level_field in HL. rewrite HT, HS, HL.
  unfold is_baggage_field. destruct (strings.HasPrefix _ _); [done|by destruct e].
Qed.

(** The scan in closed form: each name is the one seen last. *)
Lemma inject_scan (pairs : list (string * string)) (e : Existing) :
  ForeachKey pairs inject_handler e =
  ({| exstfieldT :=
        foldl (λ acc kv, if is_trace_field kv.1 then kv.1 else acc) (exstfieldT e) pairs;
      exstfieldS :=
        foldl (λ acc kv, if is_span_field kv.1 then kv.1 else acc) (exstfieldS e) pairs;
      exstfieldL :=
        foldl (λ acc kv, if is_level_field kv.1 then kv.1 else acc) (exstfieldL e) pairs;
      exstfieldB :=
        foldl (λ acc kv, if is_baggage_field kv.1
                         then strings.slice_to kv.1 (String.length FieldB) else acc)
              (exstfieldB e) pairs |}, None).
Proof.
  revert e. induction pairs as [|[k v] pairs IH]; intros e; [by destruct e|].
  rewrite Codec.ForeachKey_cons, inject_handler_step, IH. done.
Qed.

Lemma foldl_last {A : Type} (f : string → bool) (g : string → A)
    (pairs : list (string * string)) (d : A) :
  let r := foldl (λ acc kv, if f kv.1 then g kv.1 else acc) d pairs in
  (r = d ∧ ∀ kv, kv ∈ pairs → f kv.1 = false) ∨
  (∃ k v, (k, v) ∈ pairs ∧ f k = true ∧ r = g k).
Proof.
  revert d. induction pairs as [|[k v] pairs IH]; intros d.
  - left. split; [done|]. intros kv Hin. by apply elem_of_nil in Hin.
  - cbn [foldl fst]. destruct (IH (if f k then g k else d)) as [[E Hno]|(k' & v' & Hin & Hf & E)].
    + destruct (f k) eqn:Hk.
      * right. exists k, v. split; [apply elem_of_cons; by left|done].
      * left. split; [done|]. intros kv Hin.
        apply elem_of_cons in Hin as [->|Hin]; [done|by apply Hno].
    + right. exists k', v'. split; [apply elem_of_cons; by right|done].
Qed.

Lemma ToLower_slice_to (s : string) (n : nat) :
  strings.ToLower (strings.slice_to s n) = strings.slice_to (strings.ToLower s) n.
Proof.
  revert s. induction n as [|n IH]; intros [|c s]; try done.
  cbn. by rewrite IH.
Qed.

Lemma HasPrefix_slice_to (s p : string) :
  strings.HasPrefix s p = true → strings.slice_to s (String.length p) = p.
Proof.
  unfold strings.HasPrefix. revert s. induction p as [|c p IH]; intros s Hp.
  - by destruct s.
  - destruct s as [|a s]; [done|]. cbn in Hp.
    destruct (ascii_dec c a) as [->|]; [|done]. cbn. by rewrite IH.
Qed.

(** The baggage prefix found in a carrier is the prefix, up to case. *)
Lemma baggage_prefix_casing (k : string) :
  is_baggage_field k = true →
  strings.ToLower (strings.slice_to k (String.length FieldB)) = FieldB.
Proof.
  intros Hk. rewrite ToLower_slice_to. by apply HasPrefix_slice_to.
Qed.

Lemma prefixed_key_is_baggage (pre k0 : string) :
  strings.ToLower pre = FieldB → is_baggage_field (pre +:+ k0) = true.
Proof.
  intros Hp. unfold is_baggage_field.
  rewrite StringFacts.ToLower_app, Hp. apply StringFacts.HasPrefix_app.
Qed.

(** The baggage loop on a text map, for any prefix. *)
Lemma prefix_loop_other (pre : string) (order : list (string * string))
    (base : gmap string string) (key : string) :
  (∀ k0 v, (k0, v) ∈ order → key ≠ pre +:+ k0) →
  foldl (λ m kv, <[pre +:+ kv.1 := kv.2]> m) base order !! key = base !! key.
Proof.
  revert base. induction order as [|[k v] rest IH]; intros base Hne; cbn; [done|].
  rewrite IH.
  - apply lookup_insert_ne. intros E. apply (Hne k v); [left|done].
  - intros k0 v0 Hin. apply (Hne k0 v0). by right.
Qed.

Lemma prefix_loop_stored (pre : string) (order : list (string * string))
    (base : gmap string string) (k0 v : string) :
  NoDup (order.*1) → (k0, v) ∈ order →
  foldl (λ m kv, <[pre +:+ kv.1 := kv.2]> m) base order !! (pre +:+ k0) = Some v.
Proof.
  revert base. induction order as [|[k w] rest IH]; intros base Hnd Hin.
  - by apply elem_of_nil in Hin.
  - cbn in Hnd. apply NoDup_cons in Hnd as [Hk Hnd]. cbn.
    apply elem_of_cons in Hin as [[= -> ->]|Hin].
    + rewrite prefix_loop_other.
      * apply lookup_insert_eq.
      * intros k1 v1 Hin1 E. apply StringFacts.app_inv_head in E as ->.
        apply Hk. apply list_elem_of_fmap. by exists (k1, v1).
    + by apply IH.
Qed.

(** Injection into a text map, in closed form. *)
Lemma inject_text_map_shape (sc : SpanContext) (m : gmap string string)
    (pairs order : list (string * string)) :
  order ≡ₚ map_to_list (baggage_items sc) →
  ∃ m' kT kS kL pre,
    injectTraceContext pairs order sc (TextMapCarrier m) = (TextMapCarrier m', None) ∧
    (is_trace_field kT = true ∧ is_span_field kS = true ∧
     is_level_field kL = true ∧ strings.ToLower pre = FieldB) ∧
    ((kT = FieldT ∧ ∀ kv, kv ∈ pairs → is_trace_field kv.1 = false) ∨
     (∃ v, (kT, v) ∈ pairs)) ∧
    ((kS = FieldS ∧ ∀ kv, kv ∈ pairs → is_span_field kv.1 = false) ∨
     (∃ v, (kS, v) ∈ pairs)) ∧
    ((kL = FieldL ∧ ∀ kv, kv ∈ pairs → is_level_field kv.1 = false) ∨
     (∃ v, (kL, v) ∈ pairs)) ∧
    (pre = FieldB ∨
     (∃ k v, (k, v) ∈ pairs ∧ is_baggage_field k = true ∧
             pre = strings.slice_to k (String.length FieldB))) ∧
    (m' !! kT = Some (FormatID (TraceID sc)) ∧
     m' !! kS = Some (FormatID (SpanID sc)) ∧
     m' !! kL = Some (formatLevel sc)) ∧
    (∀ k0 v, baggage_items sc !! k0 = Some v → m' !! (pre +:+ k0) = Some v) ∧
    (∀ key, key ≠ kT → key ≠ kS → key ≠ kL →
            (∀ k0, is_Some (baggage_items sc !! k0) → key ≠ pre +:+ k0) →
            m' !! key = m !! key).
Proof.
  intros Hord. unfold injectTraceContext. rewrite inject_scan. cbn [fst exstfieldT
    exstfieldS exstfieldL exstfieldB Carrier_Set].
  rewrite Codec.baggage_loop_text.
  pose proof (foldl_last is_trace_field id pairs FieldT) as HT.
  pose proof (foldl_last is_span_field id pairs FieldS) as HS.
  pose proof (foldl_last is_level_field id pairs FieldL) as HL.
  pose proof (foldl_last is_baggage_field
                (λ k, strings.slice_to k (String.length FieldB)) pairs FieldB) as HB.
  cbv zeta in HT, HS, HL, HB. unfold id in HT, HS, HL.
  set (kT := foldl _ FieldT pairs) in *. set (kS := foldl _ FieldS pairs) in *.
  set (kL := foldl _ FieldL pairs) in *. set (pre := foldl _ FieldB pairs) in *.
  clearbody kT kS kL pre.
  destruct HT as [[ET NT]|(k1 & v1 & I1 & F1 & ET)].
  all: destruct HS as [[ES NS]|(k2 & v2 & I2 & F2 & ES)].
  all: destruct HL as [[EL NL]|(k3 & v3 & I3 & F3 & EL)].
  all: destruct HB as [[EB NB]|(k4 & v4 & I4 & F4 & EB)].
  all: assert (is_trace_field kT = true) as CT by (rewrite ET; done).
  all: assert (is_span_field kS = true) as CS by (rewrite ES; done).
  all: assert (is_level_field kL = true) as CL by (rewrite EL; done).
  all: assert (strings.ToLower pre = FieldB) as CB
         by (rewrite EB; first [reflexivity | by apply baggage_prefix_casing]).
  all: assert (NoDup (order.*1)) as Hnd
         by (rewrite Hord; apply NoDup_fst_map_to_list).
  all: assert (kS ≠ kT) as NST
         by (intros E; destruct (Codec.trace_field_excl kT CT) as (X & _); congruence).
  all: assert (kL ≠ kT) as NLT
         by (intros E; destruct (Codec.trace_field_excl kT CT) as (_ & X & _); congruence).
  all: assert (kL ≠ kS) as NLS
         by (intros E; destruct (Codec.span_field_excl kS CS) as (_ & X & _); congruence).
  all: assert (∀ key, is_baggage_field key = false →
                 ∀ k0 v, (k0, v) ∈ order → key ≠ pre +:+ k0) as NBg
         by (intros key Hk k0 v _ ->; rewrite prefixed_key_is_baggage in Hk; done).
  all: eexists _, kT, kS, kL, pre; split; [reflexivity|].
  all: split; [done|].
  all: split; [first [by left | right; eexists; rewrite ET; eassumption]|].
  all: split; [first [by left | right; eexists; rewrite ES; eassumption]|].
  all: split; [first [by left | right; eexists; rewrite EL; eassumption]|].
  all: split; [first [by left | right; by exists k4, v4]|].
  all: split; [split; [|split]|split].
  all: try (rewrite prefix_loop_other
              by (apply NBg;
                  first [by destruct (Codec.trace_field_excl kT CT) as (_ & _ & ?)
                        |by destruct (Codec.span_field_excl kS CS) as (_ & _ & ?)
                        |by destruct (Codec.level_field_excl kL CL) as (_ & _ & ?)])).
  all: try by rewrite ?lookup_insert_eq, ?lookup_insert_ne, ?lookup_insert_eq by done.
  all: try (intros k0 v Hl; apply prefix_loop_stored; [done|];
            rewrite Hord; by apply elem_of_map_to_list).
  all: intros key N1 N2 N3 N4; rewrite prefix_loop_other;
    [by rewrite !lookup_insert_ne by done|];
    intros k0 v Hin; apply N4; rewrite Hord in Hin;
    apply elem_of_map_to_list in Hin; by eexists.
Qed.

(** The keys of a text map are the keys of the pairs it delivers. *)
Lemma visits_text_map (m : gmap string string) (pairs : list (string * string))
    (k v : string) :
  visits (TextMapCarrier m) pairs → (k, v) ∈ pairs ↔ m !! k = Some v.
Proof. cbn. intros ->. apply elem_of_map_to_list. Qed.

(** X14.  Injection into a text map never fails and writes four kinds of
    keys: one trace, one span and one level field, holding the formatted ids
    and level, and one key per baggage entry, made of the baggage prefix and
    the baggage key.  Each field name is a key the carrier already holds,
    with its casing, or else the lower-case name; the prefix is cased as in
    a baggage key of the carrier, or else lower-case.  Every other key of
    the carrier keeps its value, and so does every key that is not an
    Instana field. *)
Theorem injectTraceContext_text_map_writes
    (sc : SpanContext) (m : gmap string string) (pairs order : list (string * string)) :
  visits (TextMapCarrier m) pairs →
  ascii_keys pairs = true →
  order ≡ₚ map_to_list (baggage_items sc) →
  ∃ m' kT kS kL pre,
    injectTraceContext pairs order sc (TextMapCarrier m) = (TextMapCarrier m', None) ∧
    (is_trace_field kT = true ∧ (kT = FieldT ∨ is_Some (m !! kT))) ∧
    (is_span_field kS = true ∧ (kS = FieldS ∨ is_Some (m !! kS))) ∧
    (is_level_field kL = true ∧ (kL = FieldL ∨ is_Some (m !! kL))) ∧
    (strings.ToLower pre = FieldB ∧
     (pre = FieldB ∨ ∃ k, is_Some (m !! k) ∧ is_baggage_field k = true ∧
                          pre = strings.slice_to k (String.length FieldB))) ∧
    m' !! kT = Some (FormatID (TraceID sc)) ∧
    m' !! kS = Some (FormatID (SpanID sc)) ∧
    m' !! kL = Some (formatLevel sc) ∧
    (∀ k0 v, baggage_items sc !! k0 = Some v → m' !! (pre +:+ k0) = Some v) ∧
    (∀ key, key ≠ kT → key ≠ kS → key ≠ kL →
            (∀ k0, is_Some (baggage_items sc !! k0) → key ≠ pre +:+ k0) →
            m' !! key = m !! key) ∧
    (∀ key, is_instana_field key = false → m' !! key = m !! key).
Proof.
  intros Hv _ Hord.
  destruct (inject_text_map_shape sc m pairs order Hord)
    as (m' & kT & kS & kL & pre & Hinj & (CT & CS & CL & CB) & OT & OS & OL & OB
        & (LT & LS & LL) & Hbag & Hframe).
  exists m', kT, kS, kL, pre. split; [done|].
  assert (∀ k, (∃ v, (k, v) ∈ pairs) → is_Some (m !! k)) as Hin.
  { intros k [v Hk]. exists v. by apply (visits_text_map m pairs). }
  split; [split; [done|]; destruct OT as [[? _]|?]; [by left|right; by apply Hin]|].
  split; [split; [done|]; destruct OS as [[? _]|?]; [by left|right; by apply Hin]|].
  split; [split; [done|]; destruct OL as [[? _]|?]; [by left|right; by apply Hin]|].
  split.
  { split; [done|]. destruct OB as [?|(k & v & Hk & Hb & E)]; [by left|].
    right. exists k. split; [apply Hin; by exists v|done]. }
  do 5 (split; [done|]).
  intros key Hkey. unfold is_instana_field in Hkey.
  apply orb_false_elim in Hkey as [Hkey HkB].
  apply orb_false_elim in Hkey as [Hkey HkL].
  apply orb_false_elim in Hkey as [HkT HkS].
  apply Hframe; try congruence.
  intros k0 _ ->. by rewrite prefixed_key_is_baggage in HkB.
Qed.

(** The casing of one field, from the shape of the injected map. *)
Lemma field_casing (is_f : string → bool) (m m' : gmap string string)
    (pairs : list (string * string)) (kF name vF : string) :
  visits (TextMapCarrier m) pairs →
  is_f kF = true → m' !! kF = Some vF →
  (∀ key, key ≠ kF → is_f key = true → m' !! key = m !! key) →
  ((kF = name ∧ ∀ kv, kv ∈ pairs → is_f kv.1 = false) ∨ (∃ v, (kF, v) ∈ pairs)) →
  ((∀ k, is_Some (m !! k) → is_f k = false) →
   m' !! name = Some vF ∧
   ∀ k', is_Some (m' !! k') → is_f k' = true → k' = name) ∧
  (∀ k, is_Some (m !! k) → is_f k = true →
        (∀ k', is_Some (m !! k') → is_f k' = true → k' = k) →
        m' !! k = Some vF ∧
        ∀ k', is_Some (m' !! k') → is_f k' = true → k' = k).
Proof.
  intros Hv CF LF Hframe Horigin. split.
  - intros Hnone.
    assert (kF = name) as <-.
    { destruct Horigin as [[? _]|[v Hin]]; [done|].
      apply (visits_text_map m pairs) in Hin; [|done].
      rewrite Hnone in CF; [done|by eexists]. }
    split; [done|]. intros k' Hk' Hf.
    destruct (decide (k' = kF)) as [|Hne]; [done|].
    rewrite Hframe in Hk' by done. rewrite Hnone in Hf; done.
  - intros k Hk Hf Huniq.
    assert (kF = k) as <-.
    { destruct Horigin as [[_ Hno]|[v Hin]].
      - destruct Hk as [v Hk]. apply (visits_text_map m pairs) in Hk; [|done].
        specialize (Hno _ Hk). cbn in Hno. congruence.
      - apply Huniq; [|done]. apply (visits_text_map m pairs) in Hin; [|done].
        by eexists. }
    split; [done|]. intros k' Hk' Hf'.
    destruct (decide (k' = kF)) as [|Hne]; [done|].
    rewrite Hframe in Hk' by done. by apply Huniq.
Qed.

(** X15.  Injection into a text map keeps the casing of the field names
    the carrier uses and adds no second spelling.  For each of the trace,
    span and level fields: when the carrier holds the field under exactly one
    key, that key receives the new value and is still the only key of the
    field; when the carrier does not hold the field, the lower-case name
    receives the value and is the only key of the field. *)
Theorem injectTraceContext_keeps_header_casing
    (sc : SpanContext) (m : gmap string string) (pairs order : list (string * string)) :
  visits (TextMapCarrier m) pairs →
  ascii_keys pairs = true →
  order ≡ₚ map_to_list (baggage_items sc) →
  ∃ m',
    injectTraceContext pairs order sc (TextMapCarrier m) = (TextMapCarrier m', None) ∧
    Forall (λ '(is_f, name, val),
        ((∀ k, is_Some (m !! k) → is_f k = false) →
         m' !! name = Some val ∧
         ∀ k', is_Some (m' !! k') → is_f k' = true → k' = name) ∧
        (∀ k, is_Some (m !! k) → is_f k = true →
              (∀ k', is_Some (m !! k') → is_f k' = true → k' = k) →
              m' !! k = Some val ∧
              ∀ k', is_Some (m' !! k') → is_f k' = true → k' = k))
      [(is_trace_field, FieldT, FormatID (TraceID sc));
       (is_span_field, FieldS, FormatID (SpanID sc));
       (is_level_field, FieldL, formatLevel sc)].
Proof.
  intros Hv _ Hord.
  destruct (inject_text_map_shape sc m pairs order Hord)
    as (m' & kT & kS & kL & pre & Hinj & (CT & CS & CL & CB) & OT & OS & OL & OB
        & (LT & LS & LL) & Hbag & Hframe).
  exists m'. split; [done|].
  assert (∀ key k0, is_baggage_field key = false → key ≠ pre +:+ k0) as NBg.
  { intros key k0 Hk ->. by rewrite prefixed_key_is_baggage in Hk. }
  apply List.Forall_cons; [|apply List.Forall_cons; [|apply List.Forall_cons;
    [|apply List.Forall_nil]]].
  - apply (field_casing is_trace_field m m' pairs kT); try done.
    intros key Hne Hf. destruct (Codec.trace_field_excl key Hf) as (XS & XL & XB).
    apply Hframe; [done|congruence|congruence|]. intros k0 _. by apply NBg.
  - apply (field_casing is_span_field m m' pairs kS); try done.
    intros key Hne Hf. destruct (Codec.span_field_excl key Hf) as (XT & XL & XB).
    apply Hframe; [congruence|done|congruence|]. intros k0 _. by apply NBg.
  - apply (field_casing is_level_field m m' pairs kL); try done.
    intros key Hne Hf. destruct (Codec.level_field_excl key Hf) as (XT & XS & XB).
    apply Hframe; [congruence|congruence|done|]. intros k0 _. by apply NBg.
Qed.

End Facts.

#[local] Existing Instance SpecCodec.codec.
#[local] Existing Instance SpecW3C.ops.

Lemma extractTraceContext_error_cases_witness :
  (extractTraceContext [("X-Instana-T", "1a")]
     (TextMapCarrier {[ "X-Instana-T" := "1a" ]})).2 = Some ErrSpanContextCorrupted.
Proof.
  refine (proj2 (proj1 (proj2
    (extractTraceContext_error_cases [("X-Instana-T", "1a")]
       (TextMapCarrier {[ "X-Instana-T" := "1a" ]}) _ _))) _).
  - discriminate.
  - reflexivity.
  - right. reflexivity.
Defined.

Lemma extractTraceContext_last_value_wins_witness :
  let sc := {| TraceID := 26; SpanID := 99; Suppressed := false;
               Baggage := Some {[ "User" := "bob" ]}; ForeignParent := None |} in
  extractTraceContext Inputs.pairs_level_twice (TextMapCarrier ∅) = (sc, None) ∧
  ParseID "1a" = Some (TraceID sc) ∧
  Suppressed sc = bool_decide ("1" = "0") ∧
  baggage_items sc !! "User" = Some "bob".
Proof.
  intros sc.
  destruct (extractTraceContext_last_value_wins Inputs.pairs_level_twice
              (TextMapCarrier ∅) sc) as (Hlast & _ & _).
  - reflexivity.
  - reflexivity.
  - split; [reflexivity|]. split; [|split].
    + refine (proj1 (Hlast [("X-Instana-L", "0")] "x-instana-t" "1a"
                       [("X-INSTANA-S", "63"); ("x-instana-l", "1");
                        ("X-Instana-B-User", "bob")] _) _ _).
      * reflexivity.
      * reflexivity.
      * intros kv Hin. repeat (apply elem_of_cons in Hin as [->|Hin]; [reflexivity|]).
        by apply elem_of_nil in Hin.
    + refine (proj1 (proj2 (proj2
                (Hlast [("X-Instana-L", "0"); ("x-instana-t", "1a"); ("X-INSTANA-S", "63")]
                   "x-instana-l" "1" [("X-Instana-B-User", "bob")] _))) _ _).
      * reflexivity.
      * reflexivity.
      * intros kv Hin. repeat (apply elem_of_cons in Hin as [->|Hin]; [reflexivity|]).
        by apply elem_of_nil in Hin.
    + refine (proj2 (proj2 (proj2
                (Hlast [("X-Instana-L", "0"); ("x-instana-t", "1a"); ("X-INSTANA-S", "63");
                        ("x-instana-l", "1")]
                   "X-Instana-B-User" "bob" [] _))) _ _).
      * reflexivity.
      * reflexivity.
      * intros kv Hin. by apply elem_of_nil in Hin.
Defined.

Lemma injectTraceContext_text_map_writes_witness :
  ∃ m',
    injectTraceContext [("content-type", "json")] [("user", "alice")]
      Inputs.sc_baggage (TextMapCarrier Inputs.plain_text_map)
    = (TextMapCarrier m', None) ∧
    ∀ key, is_instana_field key = false → m' !! key = Inputs.plain_text_map !! key.
Proof.
  destruct (injectTraceContext_text_map_writes Inputs.sc_baggage Inputs.plain_text_map
              [("content-type", "json")] [("user", "alice")])
    as (m' & kT & kS & kL & pre & Hinj & _ & _ & _ & _ & _ & _ & _ & _ & _ & Hframe).
  - cbn. unfold Inputs.plain_text_map. by rewrite map_to_list_singleton.
  - reflexivity.
  - cbn. by rewrite map_to_list_singleton.
  - exists m'. split; assumption.
Defined.

Lemma injectTraceContext_keeps_header_casing_witness :
  ∃ m',
    injectTraceContext [("X-Instana-T", "ff")] [("user", "alice")]
      Inputs.sc_baggage (TextMapCarrier Inputs.cased_text_map)
    = (TextMapCarrier m', None) ∧
    m' !! "X-Instana-T" = Some "1a" ∧
    ∀ k', is_Some (m' !! k') → is_trace_field k' = true → k' = "X-Instana-T".
Proof.
  destruct (injectTraceContext_keeps_header_casing Inputs.sc_baggage
              Inputs.cased_text_map [("X-Instana-T", "ff")] [("user", "alice")])
    as (m' & Hinj & Hfields).
  - cbn. unfold Inputs.cased_text_map. by rewrite map_to_list_singleton.
  - reflexivity.
  - cbn. by rewrite map_to_list_singleton.
  - exists m'. split; [assumption|].
    apply List.Forall_inv in Hfields. destruct Hfields as [_ Hone].
    apply (Hone "X-Instana-T").
    + unfold Inputs.cased_text_map. rewrite lookup_singleton_eq. by eexists.
    + reflexivity.
    + intros k' [v Hk'] _. unfold Inputs.cased_text_map in Hk'.
      by apply lookup_singleton_Some in Hk' as [<- _].
Defined.

End CodecMore.

(** ** The round trip through a carrier *)

Module RoundTrip.
Import w3ctrace Propagation.

(** Case conversion of single bytes. *)
Lemma lower_byte_idem (c : ascii) :
  strings.lower_byte (strings.lower_byte c) = strings.lower_byte c.
Proof. by destruct c as [[] [] [] [] [] [] [] []]. Qed.

Lemma lower_upper_byte (c : ascii) :
  strings.lower_byte (http.upper_byte c) = strings.lower_byte c.
Proof. by destruct c as [[] [] [] [] [] [] [] []]. Qed.

Lemma upper_lower_byte (c : ascii) :
  http.upper_byte (strings.lower_byte c) = http.upper_byte c.
Proof. by destruct c as [[] [] [] [] [] [] [] []]. Qed.

Lemma valid_lower_byte (c : ascii) :
  http.validHeaderFieldByte (strings.lower_byte c) = http.validHeaderFieldByte c.
Proof. destruct c as [[] [] [] [] [] [] [] []]; vm_compute; reflexivity. Qed.

Lemma canonicalize_ToLower (upper : bool) (s : string) :
  http.canonicalize upper (strings.ToLower s) = http.canonicalize upper s.
Proof.
  revert upper. induction s as [|c s IH]; intros upper; [done|].
  cbn [strings.ToLower http.canonicalize].
  destruct upper; rewrite ?upper_lower_byte, ?lower_byte_idem, IH; done.
Qed.

Lemma ToLower_canonicalize (upper : bool) (s : string) :
  strings.ToLower (http.canonicalize upper s) = strings.ToLower s.
Proof.
  revert upper. induction s as [|c s IH]; intros upper; [done|].
  cbn [strings.ToLower http.canonicalize]. rewrite IH.
  destruct upper; by rewrite ?lower_upper_byte, ?lower_byte_idem.
Qed.

Lemma all_valid_ToLower (s : string) :
  http.all_valid (strings.ToLower s) = http.all_valid s.
Proof.
  induction s as [|c s IH]; [done|].
  cbn [strings.ToLower http.all_valid]. by rewrite valid_lower_byte, IH.
Qed.

Lemma all_valid_app (s t : string) :
  http.all_valid (s +:+ t) = http.all_valid s && http.all_valid t.
Proof.
  induction s as [|c s IH]; [done|].
  rewrite StringFacts.app_cons. cbn [http.all_valid]. by rewrite IH, andb_assoc.
Qed.

Lemma ToLower_length (s : string) :
  String.length (strings.ToLower s) = String.length s.
Proof. induction s as [|c s IH]; [done|]. cbn. by rewrite IH. Qed.

(** The canonical form of a header name is the name up to case, and is
    fixed by the lower-case form of a name made of token bytes. *)
Lemma ToLower_CanonicalMIMEHeaderKey (s : string) :
  strings.ToLower (http.CanonicalMIMEHeaderKey s) = strings.ToLower s.
Proof.
  unfold http.CanonicalMIMEHeaderKey.
  destruct (http.all_valid s); [apply ToLower_canonicalize|done].
Qed.

Lemma CanonicalMIMEHeaderKey_of_lower (s l : string) :
  strings.ToLower s = l → http.all_valid l = true →
  http.CanonicalMIMEHeaderKey s = http.canonicalize true l.
Proof.
  intros <- Hv. unfold http.CanonicalMIMEHeaderKey.
  rewrite all_valid_ToLower in Hv. by rewrite Hv, canonicalize_ToLower.
Qed.

(** The header a baggage entry is stored under, and the baggage key read
    back from it. *)
Lemma CanonicalMIMEHeaderKey_baggage (pre k0 : string) :
  strings.ToLower pre = FieldB →
  http.CanonicalMIMEHeaderKey (pre +:+ k0) =
  if http.all_valid k0 then "X-Instana-B-" +:+ http.canonicalize true k0
  else pre +:+ k0.
Proof.
  intros Hp. unfold http.CanonicalMIMEHeaderKey.
  rewrite all_valid_app, <- (all_valid_ToLower pre), Hp.
  change (http.all_valid FieldB) with true. cbn [andb].
  destruct (http.all_valid k0); [|done].
  rewrite <- canonicalize_ToLower, StringFacts.ToLower_app, Hp.
  rewrite <- (canonicalize_ToLower true k0). reflexivity.
Qed.

Lemma baggage_key_read_back (pre k0 : string) :
  strings.ToLower pre = FieldB →
  strings.slice_from (http.CanonicalMIMEHeaderKey (pre +:+ k0)) (String.length FieldB)
  = http.CanonicalMIMEHeaderKey k0.
Proof.
  intros Hp. rewrite (CanonicalMIMEHeaderKey_baggage pre k0 Hp).
  unfold http.CanonicalMIMEHeaderKey. destruct (http.all_valid k0).
  - apply (StringFacts.slice_from_app "X-Instana-B-").
  - assert (String.length FieldB = String.length pre) as ->
      by (by rewrite <- (ToLower_length pre), Hp).
    apply StringFacts.slice_from_app.
Qed.

Lemma canonical_baggage_key_is_baggage (pre k0 : string) :
  strings.ToLower pre = FieldB →
  is_baggage_field (http.CanonicalMIMEHeaderKey (pre +:+ k0)) = true.
Proof.
  intros Hp. unfold is_baggage_field. rewrite ToLower_CanonicalMIMEHeaderKey.
  by apply CodecMore.prefixed_key_is_baggage.
Qed.


(** The pairs a carrier delivers. *)
Lemma visits_headers (h : http.Header) (pairs : list (string * string))
    (k v : string) :
  visits (HTTPHeadersCarrier h) pairs →
  (k, v) ∈ pairs ↔ ∃ vs, h !! k = Some vs ∧ v ∈ vs.
Proof.
  cbn. intros (ks & Hks & ->). unfold header_pairs. rewrite list_elem_of_bind. split.
  - intros ([k' vs] & Hin & Hkv). cbn in Hin. apply list_elem_of_fmap in Hin
      as (v' & [= -> ->] & Hv). exists vs. split; [|done].
    apply elem_of_map_to_list. by rewrite <- Hks.
  - intros (vs & Hl & Hv). exists (k, vs). split.
    + cbn. apply list_elem_of_fmap. by exists v.
    + rewrite Hks. by apply elem_of_map_to_list.
Qed.

Section Facts.
Context `{!IDCodec, !Ops}.

(** Extraction from pairs that agree on each field. *)
Lemma extract_uniform (pairs : list (string * string)) (carrier : Carrier)
    (tid sid : Z) (lvl : bool) :
  carrier ≠ OpaqueCarrier →
  (∀ k v, (k, v) ∈ pairs → is_trace_field k = true → ParseID v = Some tid) →
  (∀ k v, (k, v) ∈ pairs → is_span_field k = true → ParseID v = Some sid) →
  (∀ k v, (k, v) ∈ pairs → is_level_field k = true → parseLevel v = lvl) →
  (∃ k v, (k, v) ∈ pairs ∧ is_trace_field k = true) →
  (∃ k v, (k, v) ∈ pairs ∧ is_span_field k = true) →
  (∃ k v, (k, v) ∈ pairs ∧ is_level_field k = true) →
  ∃ sc',
    extractTraceContext pairs carrier = (sc', None) ∧
    TraceID sc' = tid ∧ SpanID sc' = sid ∧ Suppressed sc' = lvl ∧
    baggage_items sc' = foldl store_baggage_entry ∅ pairs.
Proof.
  intros Hc HT HS HL (kt & vt & It & Ft) (ks & vs & Is & Fs) (kl & vl & Il & Fl).
  unfold extractTraceContext.
  rewrite (Codec.extract_scan pairs _ 0 tid sid lvl HT HS HL).
  cbn [TraceID SpanID Suppressed Baggage ForeignParent fmap option_fmap option_map].
  assert ((2 ≤ native_count pairs)%nat) as Hcount.
  { apply (Codec.native_count_two pairs kt vt ks vs); try done.
    - intros ->. destruct (Codec.trace_field_excl ks Ft) as (E & _). congruence.
    - unfold is_native_field. by rewrite Ft.
    - unfold is_native_field. by rewrite Fs, orb_true_r. }
  rewrite Z.add_0_l.
  destruct (Z.eqb_spec (Z.of_nat (native_count pairs)) 0); [lia|].
  destruct (Z.ltb_spec (Z.of_nat (native_count pairs)) 2); [lia|].
  assert (existsb (λ kv : string * string, is_trace_field kv.1) pairs = true) as ->.
  { apply existsb_exists. exists (kt, vt). split; [by apply list_elem_of_In|done]. }
  assert (existsb (λ kv : string * string, is_span_field kv.1) pairs = true) as ->.
  { apply existsb_exists. exists (ks, vs). split; [by apply list_elem_of_In|done]. }
  assert (existsb (λ kv : string * string, is_level_field kv.1) pairs = true) as ->.
  { apply existsb_exists. exists (kl, vl). split; [by apply list_elem_of_In|done]. }
  destruct carrier as [m|h|]; [| |done].
  - eexists. split; [reflexivity|]. by cbn.
  - destruct (Extract h); eexists; (split; [reflexivity|]); by cbn.
Qed.

(** A baggage pair leaves an entry under its key. *)
Lemma extracted_baggage_kept (pairs : list (string * string))
    (b : gmap string string) (k0 : string) :
  is_Some (b !! k0) → is_Some (foldl store_baggage_entry b pairs !! k0).
Proof.
  revert b. induction pairs as [|[k v] pairs IH]; intros b Hb; [done|].
  cbn [foldl]. apply IH. unfold store_baggage_entry. cbn [fst snd].
  destruct (is_baggage_field k); [|done].
  apply lookup_insert_is_Some. destruct (decide
    (strings.slice_from k (String.length FieldB) = k0)); [by left|by right].
Qed.

Lemma extracted_baggage_some (pairs : list (string * string))
    (b : gmap string string) (k v : string) :
  (k, v) ∈ pairs → is_baggage_field k = true →
  is_Some (foldl store_baggage_entry b pairs
             !! strings.slice_from k (String.length FieldB)).
Proof.
  revert b. induction pairs as [|[k' v'] pairs IH]; intros b Hin Hk.
  - by apply elem_of_nil in Hin.
  - apply elem_of_cons in Hin as [[= <- <-]|Hin]; [|by apply IH].
    rewrite Codec.store_baggage_entry_keep by done.
    apply extracted_baggage_kept. rewrite lookup_insert_eq. by eexists.
Qed.

(** The extracted baggage is [bag] when the baggage pairs are the entries
    of [bag]. *)
Lemma extracted_baggage_eq (pairs : list (string * string))
    (bag : gmap string string) :
  (∀ k v, (k, v) ∈ pairs → is_baggage_field k = true →
          bag !! strings.slice_from k (String.length FieldB) = Some v) →
  (∀ k0 v, bag !! k0 = Some v →
           ∃ k, (k, v) ∈ pairs ∧ is_baggage_field k = true ∧
                strings.slice_from k (String.length FieldB) = k0) →
  foldl store_baggage_entry ∅ pairs = bag.
Proof.
  intros Hin Hout. apply map_eq. intros k0. apply option_eq. intros v. split.
  - intros Hl. apply Codec.extracted_baggage_origin in Hl
      as [(k & Hk & Hb & <-)|Hl]; [by apply Hin|by rewrite lookup_empty in Hl].
  - intros Hl. destruct (Hout k0 v Hl) as (k & Hk & Hb & <-).
    destruct (extracted_baggage_some pairs ∅ k v Hk Hb) as [v' Hv'].
    rewrite Hv'. f_equal.
    apply Codec.extracted_baggage_origin in Hv'
      as [(k' & Hk' & Hb' & Hs)|Hv']; [|by rewrite lookup_empty in Hv'].
    specialize (Hin k' v' Hk' Hb'). rewrite Hs in Hin. congruence.
Qed.


Lemma slice_from_prefixed (pre k0 : string) :
  strings.ToLower pre = FieldB →
  strings.slice_from (pre +:+ k0) (String.length FieldB) = k0.
Proof.
  intros Hp.
  assert (String.length FieldB = String.length pre) as ->
    by (by rewrite <- (ToLower_length pre), Hp).
  apply StringFacts.slice_from_app.
Qed.

(** A field spelled in one way in the carrier is spelled in that way only
    after the injection. *)
Lemma spelling_kept (is_f : string → bool) (m m' : gmap string string)
    (pairs : list (string * string)) (kF name : string) :
  visits (TextMapCarrier m) pairs →
  (∀ kv kv', kv ∈ pairs → kv' ∈ pairs →
             is_f kv.1 = true → is_f kv'.1 = true → kv.1 = kv'.1) →
  (∀ key, key ≠ kF → is_f key = true → m' !! key = m !! key) →
  ((kF = name ∧ ∀ kv, kv ∈ pairs → is_f kv.1 = false) ∨ (∃ v, (kF, v) ∈ pairs)) →
  is_f kF = true →
  ∀ k v, m' !! k = Some v → is_f k = true → k = kF.
Proof.
  intros Hv Hone Hframe Horigin CF k v Hl Hk.
  destruct (decide (k = kF)) as [|Hne]; [done|].
  rewrite (Hframe k Hne Hk) in Hl.
  apply (CodecMore.visits_text_map m pairs k v Hv) in Hl.
  destruct Horigin as [[_ Hno]|[v0 Hin]].
  - pose proof (Hno (k, v) Hl) as X. cbn [fst] in X. congruence.
  - apply (Hone (k, v) (kF, v0)); done.
Qed.

Lemma one_spelling_of (pairs : list (string * string)) (is_f : string → bool) :
  one_spelling pairs →
  is_f ∈ [is_trace_field; is_span_field; is_level_field] →
  ∀ kv kv', kv ∈ pairs → kv' ∈ pairs →
            is_f kv.1 = true → is_f kv'.1 = true → kv.1 = kv'.1.
Proof. intros Hone Hf. by apply Hone. Qed.

(** The round trip through a text map. *)
Lemma text_map_round_trip (sc : SpanContext) (m : gmap string string)
    (pairs order : list (string * string)) :
  ParseID (FormatID (TraceID sc)) = Some (TraceID sc) →
  ParseID (FormatID (SpanID sc)) = Some (SpanID sc) →
  visits (TextMapCarrier m) pairs →
  one_spelling pairs →
  order ≡ₚ map_to_list (baggage_items sc) →
  ∃ m',
    injectTraceContext pairs order sc (TextMapCarrier m) = (TextMapCarrier m', None) ∧
    ∀ pairs', visits (TextMapCarrier m') pairs' →
      ∃ sc',
        extractTraceContext pairs' (TextMapCarrier m') = (sc', None) ∧
        TraceID sc' = TraceID sc ∧ SpanID sc' = SpanID sc ∧
        Suppressed sc' = Suppressed sc ∧
        ((∀ kv, kv ∈ pairs → is_baggage_field kv.1 = false) →
         baggage_items sc' = baggage_items sc).
Proof.
  intros HPT HPS Hv Hone Hord.
  destruct (CodecMore.inject_text_map_shape sc m pairs order Hord)
    as (m' & kT & kS & kL & pre & Hinj & (CT & CS & CL & CB) & OT & OS & OL & OB
        & (LT & LS & LL) & Hbag & Hframe).
  exists m'. split; [done|]. intros pairs' Hv'.
  assert (∀ key k0, is_baggage_field key = false → key ≠ pre +:+ k0) as NBg.
  { intros key k0 Hk ->. by rewrite CodecMore.prefixed_key_is_baggage in Hk. }
  assert (∀ k v, m' !! k = Some v → is_trace_field k = true → k = kT) as UT.
  { apply (spelling_kept is_trace_field m m' pairs kT FieldT); try done.
    - apply one_spelling_of; [done|]. by left.
    - intros key Hne Hf. destruct (Codec.trace_field_excl key Hf) as (XS & XL & XB).
      apply Hframe; [done|congruence|congruence|]. intros k0 _. by apply NBg. }
  assert (∀ k v, m' !! k = Some v → is_span_field k = true → k = kS) as US.
  { apply (spelling_kept is_span_field m m' pairs kS FieldS); try done.
    - apply one_spelling_of; [done|]. right. by left.
    - intros key Hne Hf. destruct (Codec.span_field_excl key Hf) as (XT & XL & XB).
      apply Hframe; [congruence|done|congruence|]. intros k0 _. by apply NBg. }
  assert (∀ k v, m' !! k = Some v → is_level_field k = true → k = kL) as UL.
  { apply (spelling_kept is_level_field m m' pairs kL FieldL); try done.
    - apply one_spelling_of; [done|]. right. right. by left.
    - intros key Hne Hf. destruct (Codec.level_field_excl key Hf) as (XT & XS & XB).
      apply Hframe; [congruence|congruence|done|]. intros k0 _. by apply NBg. }
  assert (∀ k v, (k, v) ∈ pairs' ↔ m' !! k = Some v) as Hmem
    by (intros k v; by apply CodecMore.visits_text_map).
  destruct (extract_uniform pairs' (TextMapCarrier m')
              (TraceID sc) (SpanID sc) (Suppressed sc))
    as (sc' & Hex & ET & ES & EL & EB).
  - done.
  - intros k v Hin Hk. apply Hmem in Hin. rewrite (UT k v Hin Hk) in Hin. congruence.
  - intros k v Hin Hk. apply Hmem in Hin. rewrite (US k v Hin Hk) in Hin. congruence.
  - intros k v Hin Hk. apply Hmem in Hin. rewrite (UL k v Hin Hk) in Hin.
    assert (v = formatLevel sc) as -> by congruence.
    unfold parseLevel, formatLevel. by destruct (Suppressed sc).
  - exists kT, (FormatID (TraceID sc)). split; [by apply Hmem|done].
  - exists kS, (FormatID (SpanID sc)). split; [by apply Hmem|done].
  - exists kL, (formatLevel sc). split; [by apply Hmem|done].
  - exists sc'. split; [done|]. split; [done|]. split; [done|]. split; [done|].
    intros Hnob. rewrite EB. apply extracted_baggage_eq.
    + intros k v Hin Hk. apply Hmem in Hin.
      set (k0 := strings.slice_from k (String.length FieldB)).
      destruct (decide (k = pre +:+ k0)) as [Hform|Hform].
      * destruct (baggage_items sc !! k0) as [v0|] eqn:E0.
        -- rewrite Hform, (Hbag k0 v0 E0) in Hin. congruence.
        -- exfalso. rewrite Hframe in Hin.
           ++ apply (CodecMore.visits_text_map m pairs k v Hv) in Hin.
              pose proof (Hnob (k, v) Hin) as X. cbn [fst] in X. congruence.
           ++ intros ->. destruct (Codec.trace_field_excl kT CT) as (_ & _ & X). congruence.
           ++ intros ->. destruct (Codec.span_field_excl kS CS) as (_ & _ & X). congruence.
           ++ intros ->. destruct (Codec.level_field_excl kL CL) as (_ & _ & X). congruence.
           ++ intros k1 [v1 Hk1] E. subst k0. rewrite E, slice_from_prefixed in E0 by done.
              congruence.
      * exfalso. rewrite Hframe in Hin.
        -- apply (CodecMore.visits_text_map m pairs k v Hv) in Hin.
           pose proof (Hnob (k, v) Hin) as X. cbn [fst] in X. congruence.
        -- intros ->. destruct (Codec.trace_field_excl kT CT) as (_ & _ & X). congruence.
        -- intros ->. destruct (Codec.span_field_excl kS CS) as (_ & _ & X). congruence.
        -- intros ->. destruct (Codec.level_field_excl kL CL) as (_ & _ & X). congruence.
        -- intros k1 _ E. apply Hform. subst k0. by rewrite E, slice_from_prefixed.
    + intros k0 v Hl. exists (pre +:+ k0). split; [apply Hmem; by apply Hbag|].
      split; [by apply CodecMore.prefixed_key_is_baggage|by apply slice_from_prefixed].
Qed.


(** The baggage loop on a header map, for any prefix. *)
Lemma header_loop_other (pre : string) (order : list (string * string))
    (h : http.Header) (key : string) :
  (∀ k0 v, (k0, v) ∈ order → key ≠ http.CanonicalMIMEHeaderKey (pre +:+ k0)) →
  foldl (λ h kv, http.Set_ h (pre +:+ kv.1) kv.2) h order !! key = h !! key.
Proof.
  revert h. induction order as [|[k v] rest IH]; intros h Hne; cbn; [done|].
  rewrite IH.
  - unfold http.Set_. apply lookup_insert_ne. intros E. apply (Hne k v); [left|done].
  - intros k0 v0 Hin. apply (Hne k0 v0). by right.
Qed.

Lemma header_loop_origin (pre : string) (order : list (string * string))
    (h : http.Header) (key : string) (vs : list string) :
  foldl (λ h kv, http.Set_ h (pre +:+ kv.1) kv.2) h order !! key = Some vs →
  (∃ k0 v, (k0, v) ∈ order ∧ key = http.CanonicalMIMEHeaderKey (pre +:+ k0) ∧
           vs = [v]) ∨
  h !! key = Some vs.
Proof.
  revert h. induction order as [|[k w] rest IH]; intros h Hl; cbn in Hl; [by right|].
  apply IH in Hl as [(k0 & v & Hin & -> & ->)|Hl].
  - left. exists k0, v. split; [by right|done].
  - unfold http.Set_ in Hl. cbn in Hl.
    destruct (decide (http.CanonicalMIMEHeaderKey (pre +:+ k) = key)) as [<-|Hne].
    + rewrite lookup_insert_eq in Hl. injection Hl as <-.
      left. exists k, w. split; [left|done].
    + rewrite lookup_insert_ne in Hl by done. by right.
Qed.

Lemma header_loop_stored (pre : string) (order : list (string * string))
    (h : http.Header) (k0 v : string) :
  (∀ k1 v1, (k1, v1) ∈ order →
            http.CanonicalMIMEHeaderKey (pre +:+ k1)
            = http.CanonicalMIMEHeaderKey (pre +:+ k0) → k1 = k0) →
  NoDup (order.*1) → (k0, v) ∈ order →
  foldl (λ h kv, http.Set_ h (pre +:+ kv.1) kv.2) h order
    !! http.CanonicalMIMEHeaderKey (pre +:+ k0) = Some [v].
Proof.
  revert h. induction order as [|[k w] rest IH]; intros h Hinj Hnd Hin.
  - by apply elem_of_nil in Hin.
  - cbn in Hnd. apply NoDup_cons in Hnd as [Hk Hnd]. cbn.
    apply elem_of_cons in Hin as [[= -> ->]|Hin].
    + rewrite header_loop_other.
      * unfold http.Set_. apply lookup_insert_eq.
      * intros k1 v1 Hin1 E. apply Hk.
        assert (k1 = k) as <- by (apply (Hinj k1 v1); [by right|done]).
        apply list_elem_of_fmap. by exists (k1, v1).
    + apply IH; [|done|done]. intros k1 v1 Hin1. apply (Hinj k1 v1). by right.
Qed.

(** Injection into a header map, before the baggage loop: the three
    fields under their canonical names, and no other header that would be
    read as an Instana field. *)
Lemma inject_headers_shape (sc : SpanContext) (h : http.Header)
    (pairs order : list (string * string)) :
  (∀ c h, ascii_header_names h →
          ∀ k, is_instana_field k = true → Inject c h !! k = h !! k) →
  ascii_header_names h →
  visits (HTTPHeadersCarrier h) pairs →
  one_spelling pairs →
  ∃ h3 pre,
    injectTraceContext pairs order sc (HTTPHeadersCarrier h) =
    (HTTPHeadersCarrier (foldl (λ h kv, http.Set_ h (pre +:+ kv.1) kv.2) h3 order),
     None) ∧
    strings.ToLower pre = FieldB ∧
    h3 !! "X-Instana-T" = Some [FormatID (TraceID sc)] ∧
    h3 !! "X-Instana-S" = Some [FormatID (SpanID sc)] ∧
    h3 !! "X-Instana-L" = Some [formatLevel sc] ∧
    (∀ k vs, h3 !! k = Some vs → is_instana_field k = true →
             k = "X-Instana-T" ∨ k = "X-Instana-S" ∨ k = "X-Instana-L" ∨ vs = []).
Proof.
  intros Hinject Hascii Hv Hone. unfold injectTraceContext.
  rewrite CodecMore.inject_scan.
  cbn [fst exstfieldT exstfieldS exstfieldL exstfieldB Carrier_Set].
  rewrite Codec.baggage_loop_http.
  pose proof (CodecMore.foldl_last is_trace_field id pairs FieldT) as HT.
  pose proof (CodecMore.foldl_last is_span_field id pairs FieldS) as HS.
  pose proof (CodecMore.foldl_last is_level_field id pairs FieldL) as HL.
  pose proof (CodecMore.foldl_last is_baggage_field
                (λ k, strings.slice_to k (String.length FieldB)) pairs FieldB) as HB.
  cbv zeta in HT, HS, HL, HB. unfold id in HT, HS, HL.
  set (kT := foldl _ FieldT pairs) in *. set (kS := foldl _ FieldS pairs) in *.
  set (kL := foldl _ FieldL pairs) in *. set (pre := foldl _ FieldB pairs) in *.
  clearbody kT kS kL pre.
  assert (is_trace_field kT = true ∧
          ∀ k v, (k, v) ∈ pairs → is_trace_field k = true → k = kT) as [CT UT].
  { destruct HT as [[-> Hno]|(k1 & v1 & I1 & F1 & ->)].
    - split; [done|]. intros k v Hin Hk. pose proof (Hno (k, v) Hin) as X.
      cbn [fst] in X. congruence.
    - split; [done|]. intros k v Hin Hk.
      apply (Hone is_trace_field ltac:(by left) (k, v) (k1, v1)); done. }
  assert (is_span_field kS = true ∧
          ∀ k v, (k, v) ∈ pairs → is_span_field k = true → k = kS) as [CS US].
  { destruct HS as [[-> Hno]|(k1 & v1 & I1 & F1 & ->)].
    - split; [done|]. intros k v Hin Hk. pose proof (Hno (k, v) Hin) as X.
      cbn [fst] in X. congruence.
    - split; [done|]. intros k v Hin Hk.
      apply (Hone is_span_field ltac:(right; by left) (k, v) (k1, v1)); done. }
  assert (is_level_field kL = true ∧
          ∀ k v, (k, v) ∈ pairs → is_level_field k = true → k = kL) as [CL UL].
  { destruct HL as [[-> Hno]|(k1 & v1 & I1 & F1 & ->)].
    - split; [done|]. intros k v Hin Hk. pose proof (Hno (k, v) Hin) as X.
      cbn [fst] in X. congruence.
    - split; [done|]. intros k v Hin Hk.
      apply (Hone is_level_field ltac:(right; right; by left) (k, v) (k1, v1)); done. }
  assert (strings.ToLower pre = FieldB) as CB.
  { destruct HB as [[-> _]|(k1 & v1 & _ & F1 & ->)];
      [reflexivity|by apply CodecMore.baggage_prefix_casing]. }
  clear HT HS HL HB.
  assert (http.CanonicalMIMEHeaderKey kT = "X-Instana-T") as ET.
  { apply bool_decide_eq_true in CT.
    by rewrite (CanonicalMIMEHeaderKey_of_lower kT FieldT CT). }
  assert (http.CanonicalMIMEHeaderKey kS = "X-Instana-S") as ES.
  { apply bool_decide_eq_true in CS.
    by rewrite (CanonicalMIMEHeaderKey_of_lower kS FieldS CS). }
  assert (http.CanonicalMIMEHeaderKey kL = "X-Instana-L") as EL.
  { apply bool_decide_eq_true in CL.
    by rewrite (CanonicalMIMEHeaderKey_of_lower kL FieldL CL). }
  eexists _, pre. split; [reflexivity|]. split; [done|].
  unfold http.Set_. rewrite ET, ES, EL.
  split; [by rewrite !lookup_insert_ne, lookup_insert_eq by done|].
  split; [by rewrite lookup_insert_ne, lookup_insert_eq by done|].
  split; [by rewrite lookup_insert_eq|].
  intros k vs Hl Hk.
  destruct (decide (k = "X-Instana-T")) as [|NT]; [by left|].
  destruct (decide (k = "X-Instana-S")) as [|NS]; [right; by left|].
  destruct (decide (k = "X-Instana-L")) as [|NL]; [right; right; by left|].
  do 3 right. rewrite !lookup_insert_ne in Hl by done.
  unfold addW3CTraceContext in Hl. rewrite Hinject in Hl; [|clear Hl|done].
  2:{ intros k' [vs' Hk']. apply Hascii.
      apply map_lookup_filter_Some in Hk' as [Hk' _].
      apply lookup_delete_Some in Hk' as [_ Hk'].
      apply lookup_delete_Some in Hk' as [_ Hk'].
      apply lookup_delete_Some in Hk' as [_ Hk']. by eexists. }
  apply map_lookup_filter_Some in Hl as [Hl Hnb]. cbn [fst] in Hnb.
  apply lookup_delete_Some in Hl as [NkL Hl].
  apply lookup_delete_Some in Hl as [NkS Hl].
  apply lookup_delete_Some in Hl as [NkT Hl].
  destruct vs as [|v vs]; [done|]. exfalso.
  assert ((k, v) ∈ pairs) as Hin.
  { apply (visits_headers h pairs k v Hv). exists (v :: vs). split; [done|left]. }
  unfold is_instana_field in Hk. fold (is_baggage_field k) in Hnb. rewrite Hnb in Hk.
  rewrite orb_false_r in Hk.
  apply orb_true_iff in Hk as [Hk|Hk]; [apply orb_true_iff in Hk as [Hk|Hk]|].
  - by rewrite (UT k v Hin Hk) in NkT.
  - by rewrite (US k v Hin Hk) in NkS.
  - by rewrite (UL k v Hin Hk) in NkL.
Qed.

(** The round trip through a header map. *)
Lemma headers_round_trip (sc : SpanContext) (h : http.Header)
    (pairs order : list (string * string)) :
  ParseID (FormatID (TraceID sc)) = Some (TraceID sc) →
  ParseID (FormatID (SpanID sc)) = Some (SpanID sc) →
  (∀ c h, ascii_header_names h →
          ∀ k, is_instana_field k = true → Inject c h !! k = h !! k) →
  ascii_header_names h →
  visits (HTTPHeadersCarrier h) pairs →
  one_spelling pairs →
  order ≡ₚ map_to_list (baggage_items sc) →
  ∃ h',
    injectTraceContext pairs order sc (HTTPHeadersCarrier h)
    = (HTTPHeadersCarrier h', None) ∧
    ∀ pairs', visits (HTTPHeadersCarrier h') pairs' →
      ∃ sc',
        extractTraceContext pairs' (HTTPHeadersCarrier h') = (sc', None) ∧
        TraceID sc' = TraceID sc ∧ SpanID sc' = SpanID sc ∧
        Suppressed sc' = Suppressed sc ∧
        ((∀ k0, is_Some (baggage_items sc !! k0) →
                http.CanonicalMIMEHeaderKey k0 = k0) →
         baggage_items sc' = baggage_items sc).
Proof.
  intros HPT HPS Hinject Hascii Hv Hone Hord.
  destruct (inject_headers_shape sc h pairs order Hinject Hascii Hv Hone)
    as (h3 & pre & Hinj & CB & LT & LS & LL & Hclass).
  eexists. split; [exact Hinj|]. intros pairs' Hv'.
  set (h' := foldl _ h3 order) in *.
  assert (∀ k0 v, (k0, v) ∈ order ↔ baggage_items sc !! k0 = Some v) as Hbag.
  { intros k0 v. rewrite Hord. apply elem_of_map_to_list. }
  assert (NoDup (order.*1)) as Hnd by (rewrite Hord; apply NoDup_fst_map_to_list).
  assert (∀ key, is_baggage_field key = false →
            ∀ k0 v, (k0, v) ∈ order → key ≠ http.CanonicalMIMEHeaderKey (pre +:+ k0))
    as NBg.
  { intros key Hk k0 v _ ->. by rewrite canonical_baggage_key_is_baggage in Hk. }
  assert (h' !! "X-Instana-T" = Some [FormatID (TraceID sc)] ∧
          h' !! "X-Instana-S" = Some [FormatID (SpanID sc)] ∧
          h' !! "X-Instana-L" = Some [formatLevel sc]) as (MT & MS & ML).
  { subst h'. rewrite !header_loop_other by (by apply NBg). done. }
  (* the pairs of the injected headers that are read as Instana fields *)
  assert (∀ k v, (k, v) ∈ pairs' → is_instana_field k = true →
            (k = "X-Instana-T" ∧ v = FormatID (TraceID sc)) ∨
            (k = "X-Instana-S" ∧ v = FormatID (SpanID sc)) ∨
            (k = "X-Instana-L" ∧ v = formatLevel sc) ∨
            (∃ k0, (k0, v) ∈ order ∧ k = http.CanonicalMIMEHeaderKey (pre +:+ k0)))
    as Hpairs.
  { intros k v Hin Hk.
    apply (visits_headers h' pairs' k v Hv') in Hin as (vs & Hl & Hvs).
    destruct (header_loop_origin pre order h3 k vs Hl)
      as [(k0 & v0 & Hin0 & -> & ->)|Hl3].
    - do 3 right. exists k0. apply list_elem_of_singleton in Hvs as ->. done.
    - destruct (Hclass k vs Hl3 Hk) as [->|[->|[->| ->]]].
      + left. rewrite LT in Hl3. injection Hl3 as <-.
        by apply list_elem_of_singleton in Hvs as ->.
      + right. left. rewrite LS in Hl3. injection Hl3 as <-.
        by apply list_elem_of_singleton in Hvs as ->.
      + right. right. left. rewrite LL in Hl3. injection Hl3 as <-.
        by apply list_elem_of_singleton in Hvs as ->.
      + by apply elem_of_nil in Hvs. }
  assert (∀ k v, h' !! k = Some [v] → (k, v) ∈ pairs') as Hmem.
  { intros k v Hl. apply (visits_headers h' pairs' k v Hv'). exists [v].
    split; [done|left]. }
  assert (∀ is_f k, is_f k = true →
            is_f = is_trace_field ∨ is_f = is_span_field ∨ is_f = is_level_field ∨
            is_f = is_baggage_field → is_instana_field k = true) as Hinst.
  { intros is_f k Hk [->|[->|[->| ->]]]; unfold is_instana_field; rewrite Hk;
      by rewrite ?orb_true_r. }
  destruct (extract_uniform pairs' (HTTPHeadersCarrier h')
              (TraceID sc) (SpanID sc) (Suppressed sc))
    as (sc' & Hex & ET & ES & EL & EB).
  - done.
  - intros k v Hin Hk.
    destruct (Hpairs k v Hin (Hinst _ k Hk ltac:(by left)))
      as [[-> ->]|[[-> _]|[[-> _]|(k0 & _ & ->)]]];
      [done|by vm_compute in Hk|by vm_compute in Hk|].
    destruct (Codec.trace_field_excl _ Hk) as (_ & _ & X).
    by rewrite canonical_baggage_key_is_baggage in X.
  - intros k v Hin Hk.
    destruct (Hpairs k v Hin (Hinst _ k Hk ltac:(right; by left)))
      as [[-> _]|[[-> ->]|[[-> _]|(k0 & _ & ->)]]];
      [by vm_compute in Hk|done|by vm_compute in Hk|].
    destruct (Codec.span_field_excl _ Hk) as (_ & _ & X).
    by rewrite canonical_baggage_key_is_baggage in X.
  - intros k v Hin Hk.
    destruct (Hpairs k v Hin (Hinst _ k Hk ltac:(right; right; by left)))
      as [[-> _]|[[-> _]|[[-> ->]|(k0 & _ & ->)]]];
      [by vm_compute in Hk|by vm_compute in Hk| |].
    + unfold parseLevel, formatLevel. by destruct (Suppressed sc).
    + destruct (Codec.level_field_excl _ Hk) as (_ & _ & X).
      by rewrite canonical_baggage_key_is_baggage in X.
  - exists "X-Instana-T", (FormatID (TraceID sc)). split; [by apply Hmem|done].
  - exists "X-Instana-S", (FormatID (SpanID sc)). split; [by apply Hmem|done].
  - exists "X-Instana-L", (formatLevel sc). split; [by apply Hmem|done].
  - exists sc'. split; [done|]. split; [done|]. split; [done|]. split; [done|].
    intros Hcanon. rewrite EB. apply extracted_baggage_eq.
    + intros k v Hin Hk.
      destruct (Hpairs k v Hin (Hinst _ k Hk ltac:(by do 3 right)))
        as [[-> _]|[[-> _]|[[-> _]|(k0 & Hin0 & ->)]]];
        [by vm_compute in Hk|by vm_compute in Hk|by vm_compute in Hk|].
      rewrite baggage_key_read_back by done. apply Hbag in Hin0.
      by rewrite Hcanon by (by eexists).
    + intros k0 v Hl. exists (http.CanonicalMIMEHeaderKey (pre +:+ k0)).
      split; [|split].
      * apply Hmem. subst h'. apply header_loop_stored; [|done|by apply Hbag].
        intros k1 v1 Hin1 E.
        apply (f_equal (λ s, strings.slice_from s (String.length FieldB))) in E.
        rewrite !baggage_key_read_back in E by done.
        apply Hbag in Hin1.
        by rewrite !Hcanon in E by (by eexists).
      * by apply canonical_baggage_key_is_baggage.
      * rewrite baggage_key_read_back by done. apply Hcanon. by eexists.
Qed.


(** C7, amended.  For every span context whose trace and span identifiers
    are read back by [ParseID] from what [FormatID] prints, and every carrier
    with ASCII keys that spells each of the trace, span and level fields in
    one way at most: injecting the context and then extracting from the same
    carrier, in any iteration order, succeeds and yields the same [TraceID],
    the same [SpanID] and the same [Suppressed] flag.  The baggage entries
    are exactly the same as well, for a text map when the carrier held no
    key with the baggage prefix before, and for a header map when every
    baggage key is its own canonical header name.  For a header map,
    [w3ctrace.Inject] is taken to leave the Instana headers alone and to keep
    the header names ASCII. *)
Theorem inject_extract_round_trip (sc : SpanContext) :
  ParseID (FormatID (TraceID sc)) = Some (TraceID sc) →
  ParseID (FormatID (SpanID sc)) = Some (SpanID sc) →
  (∀ (m : gmap string string) (pairs order : list (string * string)),
     visits (TextMapCarrier m) pairs →
     ascii_keys pairs = true →
     one_spelling pairs →
     order ≡ₚ map_to_list (baggage_items sc) →
     ∃ m',
       injectTraceContext pairs order sc (TextMapCarrier m)
       = (TextMapCarrier m', None) ∧
       ∀ pairs', visits (TextMapCarrier m') pairs' →
         ∃ sc',
           extractTraceContext pairs' (TextMapCarrier m') = (sc', None) ∧
           TraceID sc' = TraceID sc ∧ SpanID sc' = SpanID sc ∧
           Suppressed sc' = Suppressed sc ∧
           ((∀ kv, kv ∈ pairs → is_baggage_field kv.1 = false) →
            baggage_items sc' = baggage_items sc)) ∧
  ((∀ c h, ascii_header_names h →
           ascii_header_names (Inject c h) ∧
           ∀ k, is_instana_field k = true → Inject c h !! k = h !! k) →
   ∀ (h : http.Header) (pairs order : list (string * string)),
     visits (HTTPHeadersCarrier h) pairs →
     ascii_header_names h →
     one_spelling pairs →
     order ≡ₚ map_to_list (baggage_items sc) →
     ∃ h',
       injectTraceContext pairs order sc (HTTPHeadersCarrier h)
       = (HTTPHeadersCarrier h', None) ∧
       ∀ pairs', visits (HTTPHeadersCarrier h') pairs' →
         ∃ sc',
           extractTraceContext pairs' (HTTPHeadersCarrier h') = (sc', None) ∧
           TraceID sc' = TraceID sc ∧ SpanID sc' = SpanID sc ∧
           Suppressed sc' = Suppressed sc ∧
           ((∀ k0, is_Some (baggage_items sc !! k0) →
                   http.CanonicalMIMEHeaderKey k0 = k0) →
            baggage_items sc' = baggage_items sc)).
Proof.
  intros HPT HPS. split.
  - intros m pairs order Hv _ Hone Hord.
    by apply text_map_round_trip.
  - intros Hinject h pairs order Hv Hascii Hone Hord.
    apply headers_round_trip; try done.
    intros c h0 Hh0. by apply Hinject.
Qed.

End Facts.

#[local] Existing Instance SpecCodec.codec.
#[local] Existing Instance SpecW3C.ops.

Lemma is_ascii_ToLower (s : string) : is_ascii (strings.ToLower s) = is_ascii s.
Proof.
  unfold is_ascii. induction s as [|c s IH]; [done|].
  cbn [strings.ToLower list_ascii_of_string forallb]. rewrite IH. f_equal.
  by destruct c as [[] [] [] [] [] [] [] []].
Qed.

(** The package modelled from the spec writes the two foreign headers
    only. *)
Lemma SpecW3C_Inject_frame (c : Context) (h : http.Header) :
  ascii_header_names h →
  ascii_header_names (Inject c h) ∧
  ∀ k, is_instana_field k = true → Inject c h !! k = h !! k.
Proof.
  intros Hascii. cbn [Inject SpecW3C.ops]. unfold SpecW3C.Inject, http.Set_.
  change (http.CanonicalMIMEHeaderKey "traceparent") with "Traceparent".
  change (http.CanonicalMIMEHeaderKey "tracestate") with "Tracestate".
  split.
  - intros k [vs Hk].
    destruct (decide (k = "Tracestate")) as [->|N1]; [done|].
    destruct (decide (k = "Traceparent")) as [->|N2]; [done|].
    rewrite !lookup_insert_ne in Hk by done.
    apply map_lookup_filter_Some in Hk as [Hk _]. apply Hascii. by eexists.
  - intros k Hk.
    rewrite !lookup_insert_ne by (intros <-; by vm_compute in Hk).
    apply option_eq. intros vs. rewrite map_lookup_filter_Some. cbn [fst].
    split; [by intros [? _]|]. intros Hl. split; [done|].
    unfold SpecW3C.is_foreign_header. apply orb_false_intro.
    + apply bool_decide_eq_false. intros E.
      unfold is_instana_field, is_trace_field, is_span_field, is_level_field,
        is_baggage_field in Hk. rewrite E in Hk. by vm_compute in Hk.
    + apply bool_decide_eq_false. intros E.
      unfold is_instana_field, is_trace_field, is_span_field, is_level_field,
        is_baggage_field in Hk. rewrite E in Hk. by vm_compute in Hk.
Qed.

Lemma inject_extract_round_trip_witness :
  (∃ m',
     injectTraceContext [("X-Instana-T", "ff")] [("user", "alice")]
       Inputs.sc_baggage (TextMapCarrier Inputs.cased_text_map)
     = (TextMapCarrier m', None) ∧
     ∀ pairs', visits (TextMapCarrier m') pairs' →
       ∃ sc',
         extractTraceContext pairs' (TextMapCarrier m') = (sc', None) ∧
         TraceID sc' = 26 ∧ SpanID sc' = 99 ∧ Suppressed sc' = true ∧
         baggage_items sc' = {[ "user" := "alice" ]}) ∧
  (∃ h',
     injectTraceContext [] [("user", "alice")]
       Inputs.sc_baggage (HTTPHeadersCarrier ∅)
     = (HTTPHeadersCarrier h', None) ∧
     ∀ pairs', visits (HTTPHeadersCarrier h') pairs' →
       ∃ sc',
         extractTraceContext pairs' (HTTPHeadersCarrier h') = (sc', None) ∧
         TraceID sc' = 26 ∧ SpanID sc' = 99 ∧ Suppressed sc' = true).
Proof.
  destruct (inject_extract_round_trip Inputs.sc_baggage) as [Htext Hheaders];
    [reflexivity|reflexivity|].
  split.
  - destruct (Htext Inputs.cased_text_map [("X-Instana-T", "ff")] [("user", "alice")])
      as (m' & Hinj & Hback).
    + cbn. unfold Inputs.cased_text_map. by rewrite map_to_list_singleton.
    + reflexivity.
    + intros is_f _ kv kv' Hkv Hkv' _ _.
      apply list_elem_of_singleton in Hkv as ->.
      by apply list_elem_of_singleton in Hkv' as ->.
    + cbn. by rewrite map_to_list_singleton.
    + exists m'. split; [exact Hinj|]. intros pairs' Hv'.
      destruct (Hback pairs' Hv') as (sc' & Hex & ET & ES & EL & EB).
      exists sc'. split; [exact Hex|]. split; [exact ET|]. split; [exact ES|].
      split; [exact EL|]. apply EB. intros kv Hkv.
      by apply list_elem_of_singleton in Hkv as ->.
  - destruct (Hheaders SpecW3C_Inject_frame ∅ [] [("user", "alice")])
      as (h' & Hinj & Hback).
    + exists []. split; [by rewrite map_to_list_empty|done].
    + intros k [vs Hk]. by rewrite lookup_empty in Hk.
    + intros is_f _ kv kv' Hkv. by apply elem_of_nil in Hkv.
    + cbn. by rewrite map_to_list_singleton.
    + exists h'. split; [exact Hinj|]. intros pairs' Hv'.
      destruct (Hback pairs' Hv') as (sc' & Hex & ET & ES & EL & _).
      exists sc'. split; [exact Hex|]. split; [exact ET|]. split; [exact ES|].
      exact EL.
Defined.

End RoundTrip.
